(** * similarweb-scraper: the fetch-normalize pipeline

    A shallow embedding of [src/extractors/traffic_utils.py] and
    [src/extractors/similarweb_parser.py], and the properties of the
    pipeline proved over it; then of the program around them, [src/main.py]
    and [src/outputs/exporters.py].

    Conventions of the embedding.
    - Python [str] is [string]; whitespace and letter case are classified
      on the ASCII range, the only one domains and JSON keys of the
      provider use.
    - Python [int] is [Z]; Python [float] is the kernel's binary64 [float],
      but for the durations slept, which are exact rationals.  The
      interpreter is CPython 3.11 or later as it is installed: [int] and
      [str] convert decimal texts of 4300 digits at most, so an integer
      that [json] has read has no more digits than that ([json_sized]).
    - A JSON value is a [pyval]; a [dict] is an association list in
      insertion order, as CPython keeps it.
    - Code that can raise returns a [result]; code that logs, sleeps,
      reads the clock or talks to the network runs in the monad [M], which
      threads a trace of the effects performed. *)

From Stdlib Require Import ZArith List String Ascii Bool Lia QArith Floats.
From Stdlib Require Import Sorted.
From Stdlib Require OrderedTypeEx.
Import ListNotations.

Open Scope string_scope.
Open Scope Z_scope.

(** ** Text *)

Module Text.

(** [str.isspace] on the ASCII range: TAB, LF, VT, FF, CR, the four
    separators FS GS RS US, and the space. *)
Definition is_space (c : ascii) : bool :=
  let n := nat_of_ascii c in
  ((9 <=? n)%nat && (n <=? 13)%nat) || ((28 <=? n)%nat && (n <=? 32)%nat).

Definition is_upper (c : ascii) : bool :=
  let n := nat_of_ascii c in (65 <=? n)%nat && (n <=? 90)%nat.

Definition is_lower (c : ascii) : bool :=
  let n := nat_of_ascii c in (97 <=? n)%nat && (n <=? 122)%nat.

Definition lower_char (c : ascii) : ascii :=
  if is_upper c then ascii_of_nat (nat_of_ascii c + 32) else c.

Definition upper_char (c : ascii) : ascii :=
  if is_lower c then ascii_of_nat (nat_of_ascii c - 32) else c.

Fixpoint map_chars (f : ascii -> ascii) (s : string) : string :=
  match s with
  | EmptyString => EmptyString
  | String c s' => String (f c) (map_chars f s')
  end.

Fixpoint all_chars (p : ascii -> bool) (s : string) : bool :=
  match s with
  | EmptyString => true
  | String c s' => p c && all_chars p s'
  end.

(** [s.lower()] *)
Definition lower (s : string) : string := map_chars lower_char s.

Fixpoint lstrip (s : string) : string :=
  match s with
  | EmptyString => EmptyString
  | String c s' => if is_space c then lstrip s' else s
  end.

(** [s.rstrip(chars)], the characters to drop given as a predicate. *)
Fixpoint rstrip_by (p : ascii -> bool) (s : string) : string :=
  match s with
  | EmptyString => EmptyString
  | String c s' =>
      match rstrip_by p s' with
      | EmptyString => if p c then EmptyString else String c EmptyString
      | r => String c r
      end
  end.

Definition rstrip (s : string) : string := rstrip_by is_space s.

(** [s.strip()] *)
Definition strip (s : string) : string := rstrip (lstrip s).

(** [strip_prefix p s] is [Some rest] when [s = p ++ rest]. *)
Fixpoint strip_prefix (p s : string) : option string :=
  match p with
  | EmptyString => Some s
  | String a p' =>
      match s with
      | EmptyString => None
      | String b s' => if Ascii.eqb a b then strip_prefix p' s' else None
      end
  end.

(** The leftmost occurrence of [sep] in [s]: what lies before it and
    what lies after it.  [None] is Python's [sep not in s]; on [Some (a, b)]
    the call [s.split(sep, 1)] is [[a, b]]. *)
Fixpoint find_sep (sep s : string) : option (string * string) :=
  match strip_prefix sep s with
  | Some rest => Some (EmptyString, rest)
  | None =>
      match s with
      | EmptyString => None
      | String c s' =>
          match find_sep sep s' with
          | Some (a, b) => Some (String c a, b)
          | None => None
          end
      end
  end.

(** [s.split(sep, 1)[0]] *)
Definition split1_head (sep s : string) : string :=
  match find_sep sep s with
  | Some (a, _) => a
  | None => s
  end.

Definition is_empty (s : string) : bool :=
  match s with EmptyString => true | _ => false end.

End Text.

Import Text.

(** ** traffic_utils.normalize_domain *)

Definition normalize_domain (domain : string) : string :=
  if is_empty domain then ""
  else
    let d := lower (strip domain) in
    let d := match find_sep "://" d with
             | Some (_, rest) => rest       (* d.split("://", 1)[1] *)
             | None => d
             end in
    let d := split1_head "/" d in
    let d := split1_head "?" d in
    d.


(** ** Python values, exceptions and the builtins the parser calls *)

(** What [resp.json()] can return. *)
#[warnings="-register-all"]
Inductive pyval : Type :=
| PNone
| PBool (b : bool)
| PInt (z : Z)
| PFloat (f : float)
| PStr (s : string)
| PList (l : list pyval)
| PDict (d : list (string * pyval)).

Inductive exn : Type :=
| ValueError (about : string)
| TypeError
| AttributeError
| OverflowError
| RuntimeError (about : string)
| OtherError (name : string).     (* whatever the transport raised *)

Inductive result (A : Type) : Type :=
| Ok (a : A)
| Raise (e : exn).

Arguments Ok {A} a.
Arguments Raise {A} e.

Definition rbind {A B} (r : result A) (k : A -> result B) : result B :=
  match r with
  | Ok a => k a
  | Raise e => Raise e
  end.

Declare Scope result_scope.
Delimit Scope result_scope with result.
Notation "x <- r ;; k" := (rbind r (fun x => k))
  (at level 61, r at next level, right associativity) : result_scope.

Definition raises {A} (r : result A) : bool :=
  match r with Ok _ => false | Raise _ => true end.

Module Py.

(** *** Numbers *)

(** [float(z)] for an [int]: the nearest binary64, ties to even; CPython
    raises [OverflowError] when that would be an infinity. *)
Definition float_of_Z (z : Z) : float :=
  SF2Prim (binary_normalize prec emax z 0 false).

(** The integer part of a finite float, toward zero. *)
Definition trunc (f : float) : Z :=
  match Prim2SF f with
  | S754_finite s m e =>
      let v := if 0 <=? e then Z.pos m * 2 ^ e else Z.pos m / 2 ^ (- e) in
      if s then - v else v
  | _ => 0
  end.

Definition is_digit (c : ascii) : bool :=
  let n := nat_of_ascii c in (48 <=? n)%nat && (n <=? 57)%nat.

Definition digit_val (c : ascii) : Z := Z.of_nat (nat_of_ascii c) - 48.

(** After a first digit: [(["_"] digit)*].  Returns the number read so
    far, how many digits it has, and what is left. *)
Fixpoint digits_tail (acc : Z) (n : nat) (s : string) : Z * nat * string :=
  match s with
  | String c s' =>
      if is_digit c then digits_tail (10 * acc + digit_val c) (S n) s'
      else if Ascii.eqb c "_" then
        match s' with
        | String d s'' =>
            if is_digit d then digits_tail (10 * acc + digit_val d) (S n) s''
            else (acc, n, s)
        | EmptyString => (acc, n, s)
        end
      else (acc, n, s)
  | EmptyString => (acc, n, s)
  end.

(** [digitpart ::= digit (["_"] digit)*] *)
Definition digitpart (s : string) : option (Z * nat * string) :=
  match s with
  | String c s' => if is_digit c then Some (digits_tail (digit_val c) 1 s') else None
  | EmptyString => None
  end.

(** An optional sign: [true] for a minus. *)
Definition sign_opt (s : string) : bool * string :=
  match s with
  | String "-" s' => (true, s')
  | String "+" s' => (false, s')
  | _ => (false, s)
  end.

(** The white space [int] and [float] skip at the two ends of a [str]:
    the space, TAB, LF, VT, FF and CR.  The separators FS, GS, RS and US,
    which [str.strip] drops, are not skipped: [float(chr(31) + "0.5")]
    raises. *)
Definition is_c_space (c : ascii) : bool :=
  let n := nat_of_ascii c in ((9 <=? n)%nat && (n <=? 13)%nat) || (n =? 32)%nat.

Fixpoint skip_c_space (s : string) : string :=
  match s with
  | EmptyString => EmptyString
  | String c s' => if is_c_space c then skip_c_space s' else s
  end.

Definition trim_c_space (s : string) : string := rstrip_by is_c_space (skip_c_space s).

(** [sys.int_max_str_digits] as it is unless configured: a decimal text
    of more digits is refused by [int]. *)
Definition max_str_digits : Z := 4300.

(** [int(s)] for a [str], base 10: surrounding whitespace, an optional
    sign, one digit part of [max_str_digits] digits at most, the zeros that
    lead it counted. *)
Definition parse_int (s : string) : option Z :=
  let (neg, body) := sign_opt (trim_c_space s) in
  match digitpart body with
  | Some (v, n, EmptyString) =>
      if max_str_digits <? Z.of_nat n then None else Some (if neg then - v else v)
  | _ => None
  end.

(** The binary64 nearest to [D * 10 ^ e], ties to even, for [D > 0].  For
    a negative exponent the quotient is taken with 66 or more significant
    bits and a sticky last bit, so that rounding it rounds the exact
    value. *)
Definition float_of_decimal (D e : Z) : spec_float :=
  if D =? 0 then S754_zero false
  else if 0 <=? e then binary_normalize prec emax (D * 10 ^ e) 0 false
  else
    let den := 10 ^ (- e) in
    let sh := Z.max 0 (64 + Z.log2 den - Z.log2 D) + 2 in
    let num := D * 2 ^ sh in
    let q := num / den in
    let sticky := if num mod den =? 0 then 0 else 1 in
    binary_normalize prec emax (2 * q + sticky) (- (sh + 1)) false.

(** [number ::= [digitpart] "." digitpart | digitpart ["."]]: the digits
    as one integer and the power of ten that scales it. *)
Definition number (s : string) : option (Z * Z * string) :=
  match digitpart s with
  | Some (ip, _, String "." rest) =>
      match digitpart rest with
      | Some (fp, nf, rest') =>
          Some (ip * 10 ^ Z.of_nat nf + fp, - Z.of_nat nf, rest')
      | None => Some (ip, 0, rest)
      end
  | Some (ip, _, rest) => Some (ip, 0, rest)
  | None =>
      match s with
      | String "." rest =>
          match digitpart rest with
          | Some (fp, nf, rest') => Some (fp, - Z.of_nat nf, rest')
          | None => None
          end
      | _ => None
      end
  end.

(** [exponent ::= ("e" | "E") [sign] digitpart], optional. *)
Definition exponent (s : string) : option (Z * string) :=
  match s with
  | String c s' =>
      if Ascii.eqb (lower_char c) "e" then
        let (neg, body) := sign_opt s' in
        match digitpart body with
        | Some (v, _, rest) => Some (if neg then - v else v, rest)
        | None => None
        end
      else Some (0, s)
  | EmptyString => Some (0, s)
  end.

Definition abs_float_value (s : string) : option spec_float :=
  let l := lower s in
  if String.eqb l "inf" || String.eqb l "infinity" then Some (S754_infinity false)
  else if String.eqb l "nan" then Some S754_nan
  else
    match number s with
    | Some (D, e1, rest) =>
        match exponent rest with
        | Some (e2, EmptyString) => Some (float_of_decimal D (e1 + e2))
        | _ => None
        end
    | None => None
    end.

(** [float(s)] for a [str]. *)
Definition parse_float (s : string) : option float :=
  let (neg, body) := sign_opt (trim_c_space s) in
  match abs_float_value body with
  | Some x => Some (SF2Prim (if neg then SFopp x else x))
  | None => None
  end.

(** *** Rendering numbers *)

Fixpoint digits_of_pos (fuel : nat) (n : Z) (acc : string) : string :=
  match fuel with
  | O => acc
  | S k =>
      let acc' := String (ascii_of_nat (Z.to_nat (48 + n mod 10))) acc in
      if n / 10 =? 0 then acc' else digits_of_pos k (n / 10) acc'
  end.

(** [str(z)] for an [int]. *)
Definition decimal (z : Z) : string :=
  let a := Z.abs z in
  let body := digits_of_pos (S (Z.to_nat (Z.log2 a))) a "" in
  if z <? 0 then String "-" body else body.

Fixpoint zeros (n : nat) : string :=
  match n with O => "" | S k => String "0" (zeros k) end.

(** [decimal] padded with zeros on the left to [width] characters. *)
Definition zero_pad (width : nat) (z : Z) : string :=
  let d := decimal z in
  zeros (width - String.length d) ++ d.

(** [m * 2 ^ e * 10 ^ p] rounded to the nearest integer, ties to even. *)
Definition scaled_round (m : positive) (e : Z) (p : nat) : Z :=
  let num := Z.pos m * 10 ^ Z.of_nat p in
  if 0 <=? e then num * 2 ^ e
  else
    let den := 2 ^ (- e) in
    let q := num / den in
    let r := num mod den in
    if (den <? 2 * r) || ((den =? 2 * r) && Z.odd q) then q + 1 else q.

(** [f"{x:.{p}f}"] for a float [x]. *)
Definition format_fixed (p : nat) (x : float) : string :=
  let fixed (neg : bool) (n : Z) :=
    let whole := decimal (n / 10 ^ Z.of_nat p) in
    let frac := zero_pad p (n mod 10 ^ Z.of_nat p) in
    (if neg then "-" else "") ++ whole ++
    (match p with O => "" | _ => String "." frac end) in
  match Prim2SF x with
  | S754_nan => "nan"
  | S754_infinity s => if s then "-inf" else "inf"
  | S754_zero s => fixed s 0
  | S754_finite s m e => fixed s (scaled_round m e p)
  end.

(** *** Truth, conversions, attribute access *)

(** [bool(v)] *)
Definition truthy (v : pyval) : bool :=
  match v with
  | PNone => false
  | PBool b => b
  | PInt z => negb (z =? 0)
  | PFloat f => negb (PrimFloat.eqb f 0)
  | PStr s => negb (is_empty s)
  | PList l => match l with [] => false | _ => true end
  | PDict d => match d with [] => false | _ => true end
  end.

(** [a or b], both already evaluated (neither operand has an effect
    where the parser uses it). *)
Definition py_or (a b : pyval) : pyval := if truthy a then a else b.

(** [isinstance(v, (int, float))]; [bool] is a subclass of [int]. *)
Definition is_number (v : pyval) : bool :=
  match v with
  | PBool _ | PInt _ | PFloat _ => true
  | _ => false
  end.

(** [isinstance(v, dict)] *)
Definition is_dict (v : pyval) : bool :=
  match v with PDict _ => true | _ => false end.

(** [int(v)] *)
Definition py_int (v : pyval) : result Z :=
  match v with
  | PBool b => Ok (if b then 1 else 0)
  | PInt z => Ok z
  | PFloat f =>
      if PrimFloat.is_nan f then Raise (ValueError "cannot convert float NaN to integer")
      else if PrimFloat.is_infinity f then Raise OverflowError
      else Ok (trunc f)
  | PStr s =>
      match parse_int s with
      | Some z => Ok z
      | None => Raise (ValueError s)
      end
  | PNone | PList _ | PDict _ => Raise TypeError
  end.

(** [float(v)] *)
Definition py_float (v : pyval) : result float :=
  match v with
  | PBool b => Ok (if b then 1%float else 0%float)
  | PInt z =>
      let f := float_of_Z z in
      if PrimFloat.is_infinity f then Raise OverflowError else Ok f
  | PFloat f => Ok f
  | PStr s =>
      match parse_float s with
      | Some f => Ok f
      | None => Raise (ValueError s)
      end
  | PNone | PList _ | PDict _ => Raise TypeError
  end.

(** A text the parser obtains by [str(v)].  The characters are spelled
    out where they are those of a string, an integer, a bool or [None];
    the repr of a float or of a container is kept as [Repr v]. *)
Inductive text : Type :=
| Chars (s : string)
| Repr (v : pyval).

(** [str(v)]; it never raises on a JSON value. *)
Definition py_str (v : pyval) : text :=
  match v with
  | PNone => Chars "None"
  | PBool b => Chars (if b then "True" else "False")
  | PInt z => Chars (decimal z)
  | PStr s => Chars s
  | PFloat _ | PList _ | PDict _ => Repr v
  end.

(** [d.get(k)] on the items of a dict: [None] when the key is absent. *)
Fixpoint lookup (d : list (string * pyval)) (k : string) : option pyval :=
  match d with
  | [] => None
  | (k', v) :: rest => if String.eqb k' k then Some v else lookup rest k
  end.

Definition dict_get (d : list (string * pyval)) (k : string) (default : pyval) : pyval :=
  match lookup d k with
  | Some v => v
  | None => default
  end.

(** [v.get(k, default)]: only a dict has the method. *)
Definition py_get (v : pyval) (k : string) (default : pyval) : result pyval :=
  match v with
  | PDict d => Ok (dict_get d k default)
  | _ => Raise AttributeError
  end.

(** [v.items()] *)
Definition py_items (v : pyval) : result (list (string * pyval)) :=
  match v with
  | PDict d => Ok d
  | _ => Raise AttributeError
  end.

Fixpoint chars_of (s : string) : list pyval :=
  match s with
  | EmptyString => []
  | String c s' => PStr (String c EmptyString) :: chars_of s'
  end.

(** What [for x in v] runs over: the elements of a list, the keys of a
    dict, the characters of a string; nothing else here is iterable. *)
Definition py_iter (v : pyval) : result (list pyval) :=
  match v with
  | PList l => Ok l
  | PDict d => Ok (map (fun kv => PStr (fst kv)) d)
  | PStr s => Ok (chars_of s)
  | PNone | PBool _ | PInt _ | PFloat _ => Raise TypeError
  end.

(** [d[k] = v] on a dict under construction: an existing key keeps its
    place and takes the new value, a new key goes last. *)
Fixpoint dict_set {V : Type} (d : list (string * V)) (k : string) (v : V)
  : list (string * V) :=
  match d with
  | [] => [(k, v)]
  | (k', v') :: rest =>
      if String.eqb k' k then (k', v) :: rest else (k', v') :: dict_set rest k v
  end.

(** [s.title()]: a letter that follows a letter is lowered, any other
    letter is raised. *)
Fixpoint title_from (previous_is_cased : bool) (s : string) : string :=
  match s with
  | EmptyString => EmptyString
  | String c s' =>
      String (if previous_is_cased then lower_char c else upper_char c)
             (title_from (is_upper c || is_lower c) s')
  end.

Definition str_title (s : string) : string := title_from false s.

(** [s.split(".")] *)
Fixpoint split_dots_from (cur : string -> string) (s : string) : list string :=
  match s with
  | EmptyString => [cur EmptyString]
  | String c s' =>
      if Ascii.eqb c "." then cur EmptyString :: split_dots_from (fun t => t) s'
      else split_dots_from (fun t => cur (String c t)) s'
  end.

Definition split_dots (s : string) : list string := split_dots_from (fun t => t) s.

End Py.

Import Py.

(** ** hashlib.sha256 (FIPS 180-4), on 32-bit words kept in [Z] *)

Module Sha256.

Definition w32 (x : Z) : Z := x mod 2 ^ 32.

Definition rotr (n x : Z) : Z :=
  w32 (Z.lor (Z.shiftr x n) (Z.shiftl x (32 - n))).

Definition Ch (x y z : Z) : Z :=
  Z.lxor (Z.land x y) (Z.land (w32 (Z.lnot x)) z).

Definition Maj (x y z : Z) : Z :=
  Z.lxor (Z.lxor (Z.land x y) (Z.land x z)) (Z.land y z).

Definition Sigma0 (x : Z) : Z := Z.lxor (Z.lxor (rotr 2 x) (rotr 13 x)) (rotr 22 x).
Definition Sigma1 (x : Z) : Z := Z.lxor (Z.lxor (rotr 6 x) (rotr 11 x)) (rotr 25 x).
Definition sigma0 (x : Z) : Z := Z.lxor (Z.lxor (rotr 7 x) (rotr 18 x)) (Z.shiftr x 3).
Definition sigma1 (x : Z) : Z := Z.lxor (Z.lxor (rotr 17 x) (rotr 19 x)) (Z.shiftr x 10).

Definition is_prime (n : nat) : bool :=
  forallb (fun d => negb (n mod d =? 0)%nat) (seq 2 (n - 2)).

(** The primes below 312: the first sixty-four. *)
Definition primes : list Z := map Z.of_nat (filter is_prime (seq 2 310)).

(** The integer part of a cube root, one bit at a time from [bits] down. *)
Fixpoint cube_root_from (bits : nat) (n acc : Z) : Z :=
  match bits with
  | O => acc
  | S b =>
      let c := acc + 2 ^ Z.of_nat b in
      cube_root_from b n (if c * c * c <=? n then c else acc)
  end.

(** The round constants: the first thirty-two bits of the fractional
    parts of the cube roots of the first sixty-four primes. *)
Definition K : list Z :=
  Eval vm_compute in map (fun p => w32 (cube_root_from 40 (p * 2 ^ 96) 0)) primes.

(** The initial hash value: the same of the square roots of the first
    eight primes. *)
Definition H0 : list Z :=
  Eval vm_compute in map (fun p => w32 (Z.sqrt (p * 2 ^ 64))) (firstn 8 primes).

(** [text.encode("utf-8")] on ASCII text: one byte per character. *)
Fixpoint encode (s : string) : list Z :=
  match s with
  | EmptyString => []
  | String c s' => Z.of_nat (nat_of_ascii c) :: encode s'
  end.

Definition be64 (n : Z) : list Z :=
  map (fun i => (n / 2 ^ (8 * i)) mod 256) [7; 6; 5; 4; 3; 2; 1; 0].

Definition pad (msg : list Z) : list Z :=
  let l := Z.of_nat (List.length msg) in
  msg ++ [128] ++ repeat 0 (Z.to_nat ((55 - l) mod 64)) ++ be64 (8 * l).

(** The first [n] big-endian words of a byte list, and the bytes left. *)
Fixpoint take_words (n : nat) (bs : list Z) : list Z * list Z :=
  match n with
  | O => ([], bs)
  | S k =>
      match bs with
      | a :: b :: c :: d :: rest =>
          let (ws, left) := take_words k rest in
          (a * 2 ^ 24 + b * 2 ^ 16 + c * 2 ^ 8 + d :: ws, left)
      | _ => ([], [])
      end
  end.

(** The message schedule, latest word first. *)
Fixpoint extend (n : nat) (rw : list Z) : list Z :=
  match n with
  | O => rw
  | S k =>
      let w := w32 (sigma1 (nth 1 rw 0) + nth 6 rw 0 + sigma0 (nth 14 rw 0) + nth 15 rw 0) in
      extend k (w :: rw)
  end.

Definition round (st : list Z) (kw : Z * Z) : list Z :=
  match st with
  | [a; b; c; d; e; f; g; h] =>
      let t1 := h + Sigma1 e + Ch e f g + fst kw + snd kw in
      let t2 := Sigma0 a + Maj a b c in
      [w32 (t1 + t2); a; b; c; w32 (d + t1); e; f; g]
  | _ => st
  end.

Definition compress (h : list Z) (block : list Z) : list Z :=
  let w := rev (extend 48 (rev block)) in
  let st := fold_left round (combine K w) h in
  map (fun p => w32 (fst p + snd p)) (combine h st).

Fixpoint blocks (n : nat) (h : list Z) (bs : list Z) : list Z :=
  match n with
  | O => h
  | S k =>
      let (block, rest) := take_words 16 bs in
      blocks k (compress h block) rest
  end.

Definition digest (msg : list Z) : list Z :=
  let p := pad msg in
  blocks (List.length p / 64) H0 p.

Definition hex_char (n : Z) : ascii :=
  ascii_of_nat (Z.to_nat (if n <? 10 then 48 + n else 87 + n)).

Definition hex8 (w : Z) : string :=
  fold_right (fun i acc => String (hex_char ((w / 16 ^ i) mod 16)) acc) ""
             [7; 6; 5; 4; 3; 2; 1; 0].

(** [hashlib.sha256(data).hexdigest()] *)
Definition hexdigest (msg : list Z) : string :=
  fold_right (fun w acc => hex8 w ++ acc) "" (digest msg).

End Sha256.


(** ** datetime: the proleptic Gregorian calendar of CPython's [datetime] *)

Module Calendar.

Record datetime : Type := {
  year : Z; month : Z; day : Z;
  hour : Z; minute : Z; second : Z
}.

Definition is_leap (y : Z) : bool :=
  (y mod 4 =? 0) && (negb (y mod 100 =? 0) || (y mod 400 =? 0)).

Definition days_in_month (y m : Z) : Z :=
  if m =? 2 then (if is_leap y then 29 else 28)
  else if (m =? 4) || (m =? 6) || (m =? 9) || (m =? 11) then 30
  else 31.

Definition days_before_year (y : Z) : Z :=
  let y1 := y - 1 in
  y1 * 365 + y1 / 4 - y1 / 100 + y1 / 400.

(** [_DAYS_BEFORE_MONTH[m]], without the leap day. *)
Definition days_before_month_table (m : Z) : Z :=
  nth (Z.to_nat m) [0; 0; 31; 59; 90; 120; 151; 181; 212; 243; 273; 304; 334] 0.

Definition days_before_month (y m : Z) : Z :=
  days_before_month_table m + (if (2 <? m) && is_leap y then 1 else 0).

(** [_ymd2ord]: 1 for 0001-01-01. *)
Definition ymd2ord (y m d : Z) : Z :=
  days_before_year y + days_before_month y m + d.

(** [_ord2ymd] *)
Definition ord2ymd (n : Z) : Z * Z * Z :=
  let n := n - 1 in
  let n400 := n / 146097 in
  let n := n mod 146097 in
  let n100 := n / 36524 in
  let n := n mod 36524 in
  let n4 := n / 1461 in
  let n := n mod 1461 in
  let n1 := n / 365 in
  let n := n mod 365 in
  let y := n400 * 400 + 1 + n100 * 100 + n4 * 4 + n1 in
  if (n1 =? 4) || (n100 =? 4) then (y - 1, 12, 31)
  else
    let leapyear := (n1 =? 3) && (negb (n4 =? 24) || (n100 =? 3)) in
    let m := Z.shiftr (n + 50) 5 in
    let preceding := days_before_month_table m + (if (2 <? m) && leapyear then 1 else 0) in
    if n <? preceding then
      let m' := m - 1 in
      let preceding' :=
        preceding - (nth (Z.to_nat m') [0; 31; 28; 31; 30; 31; 30; 31; 31; 30; 31; 30; 31] 0
                     + (if (m' =? 2) && leapyear then 1 else 0)) in
      (y, m', n - preceding' + 1)
    else (y, m, n - preceding + 1).

(** The largest ordinal, that of 9999-12-31. *)
Definition max_ordinal : Z := 3652059.

(** [t.replace(day=d)] with a day every month has. *)
Definition replace_day (t : datetime) (d : Z) : datetime :=
  {| year := year t; month := month t; day := d;
     hour := hour t; minute := minute t; second := second t |}.

(** [t - timedelta(days=n)]: the time of day stays; a date before year 1
    or after year 9999 is an [OverflowError]. *)
Definition minus_days (t : datetime) (n : Z) : result datetime :=
  let o := ymd2ord (year t) (month t) (day t) - n in
  if (o <? 1) || (max_ordinal <? o) then Raise OverflowError
  else
    let '(y, m, d) := ord2ymd o in
    Ok {| year := y; month := m; day := d;
          hour := hour t; minute := minute t; second := second t |}.

(** [t.strftime("%Y-%m-01")], for a year of four digits. *)
Definition month_key (t : datetime) : string :=
  zero_pad 4 (year t) ++ "-" ++ zero_pad 2 (month t) ++ "-01".

(** [t.isoformat(timespec="seconds")] for a time in UTC. *)
Definition isoformat_seconds (t : datetime) : string :=
  zero_pad 4 (year t) ++ "-" ++ zero_pad 2 (month t) ++ "-" ++ zero_pad 2 (day t)
  ++ "T" ++ zero_pad 2 (hour t) ++ ":" ++ zero_pad 2 (minute t) ++ ":"
  ++ zero_pad 2 (second t) ++ "+00:00".

(** What [datetime.now] can return: a date of the calendar. *)
Definition valid (t : datetime) : Prop :=
  1 <= year t <= 9999 /\ 1 <= month t <= 12 /\
  1 <= day t <= days_in_month (year t) (month t).

Definition same_month (a b : datetime) : Prop :=
  year a = year b /\ month a = month b.

End Calendar.

Import Calendar.

(** ** Effects: the log, the network, the clock, the environment *)

Inductive level : Type := DEBUG | WARNING.

Inductive event : Type :=
| Log (lvl : level) (message : string)
| HttpGet (url api_key : string) (timeout : Z) (attempt : Z)
| Sleep (seconds : Q).

(** What one [requests.get] followed by [resp.json()] can do: the call
    returns a response, whose body parses or not, or the call raises. *)
Inductive http_outcome : Type :=
| Response (status_code : Z) (json : result pyval)
| Failed (e : exn).

Record World : Type := {
  environ : string -> option string;        (* os.environ.get *)
  transport : Z -> http_outcome;             (* the n-th attempt of a fetch *)
  clock : nat -> datetime                    (* the n-th reading of the clock *)
}.

Record State : Type := {
  trace : list event;                        (* oldest first *)
  ticks : nat                                (* readings of the clock so far *)
}.

Definition M (A : Type) : Type := World -> State -> result A * State.

Definition ret {A} (a : A) : M A := fun _ st => (Ok a, st).

Definition raise {A} (e : exn) : M A := fun _ st => (Raise e, st).

Definition bind {A B} (c : M A) (k : A -> M B) : M B :=
  fun w st =>
    match c w st with
    | (Ok a, st') => k a w st'
    | (Raise e, st') => (Raise e, st')
    end.

Definition lift {A} (r : result A) : M A := fun _ st => (r, st).

Definition emit (e : event) : M unit :=
  fun _ st => (Ok tt, {| trace := trace st ++ [e]; ticks := ticks st |}).

(** [datetime.now(timezone.utc)] *)
Definition now : M datetime :=
  fun w st => (Ok (clock w (ticks st)), {| trace := trace st; ticks := S (ticks st) |}).

(** [os.environ.get(name)] *)
Definition getenv (name : string) : M (option string) :=
  fun w st => (Ok (environ w name), st).

Definition http_get (url api_key : string) (timeout attempt : Z) : M http_outcome :=
  fun w st =>
    (Ok (transport w attempt),
     {| trace := trace st ++ [HttpGet url api_key timeout attempt]; ticks := ticks st |}).

Declare Scope monad_scope.
Delimit Scope monad_scope with monad.
Notation "x <- c ;; k" := (bind c (fun x => k))
  (at level 61, c at next level, right associativity) : monad_scope.
Notation "c ;;; k" := (bind c (fun _ => k))
  (at level 61, right associativity) : monad_scope.

(** [utc_now_iso] *)
Definition utc_now_iso : M string :=
  (t <- now ;; ret (isoformat_seconds t))%monad.

(** ** The output schema *)

Record country_share : Type := { CountryCode : pyval; Value : float }.

Record keyword : Type := { kw_name : pyval; kw_value : Z; kw_cpc : float }.

Record NormalizedRecord : Type := {
  domain : string;
  snapshotDate : string;
  title : pyval;
  description : pyval;
  category : pyval;
  screenshot : pyval;
  globalRank : pyval;
  countryRank : pyval;
  categoryRank : text;
  estimatedMonthlyVisits : list (string * Z);
  bounceRate : string;
  pagesPerVisit : string;
  visits : string;
  timeOnSite : string;
  topCountryShares : list country_share;
  trafficSources : list (string * float);
  topKeywords : list keyword;
  isDataFromGA : bool;
  competitors : pyval
}.

(** ** SimilarwebParser *)

Record SimilarwebParser : Type := {
  base_url : string;
  api_key_env : string;
  timeout : Z;
  max_retries : Z;
  backoff_factor : Q;
  use_mock_data : bool
}.

(** [__init__]: only the base URL is touched, [base_url.rstrip("/")]. *)
Definition SimilarwebParser_init (base_url api_key_env : string) (timeout max_retries : Z)
           (backoff_factor : Q) (use_mock_data : bool) : SimilarwebParser :=
  {| base_url := rstrip_by (Ascii.eqb "/") base_url;
     api_key_env := api_key_env;
     timeout := timeout;
     max_retries := max_retries;
     backoff_factor := backoff_factor;
     use_mock_data := use_mock_data |}.

(** [not api_key] for what [os.environ.get] returned. *)
Definition no_key (api_key : option string) : bool :=
  match api_key with
  | None => true
  | Some k => is_empty k
  end.

Definition _has_api_key (self : SimilarwebParser) : M bool :=
  (api_key <- getenv (api_key_env self) ;;
   if no_key api_key then
     emit (Log WARNING "Environment variable %s not set; falling back to mock data.") ;;;
     ret false
   else ret true)%monad.

(** The delay before the attempt that follows [attempt]:
    [backoff_factor * (2 ** (attempt - 1))], in seconds.  Durations are
    kept as exact rationals: scaling a binary64 by a power of two is exact. *)
Definition backoff_delay (self : SimilarwebParser) (attempt : Z) : Q :=
  (backoff_factor self * inject_Z (2 ^ (attempt - 1)))%Q.

(** [time.sleep] refuses a negative delay. *)
Definition _sleep_with_backoff (self : SimilarwebParser) (attempt : Z) : M unit :=
  let delay := backoff_delay self attempt in
  if Qle_bool 0 delay then emit (Sleep delay)
  else raise (ValueError "sleep length must be non-negative").

(** The body of [for attempt in range(1, self.max_retries + 1)] with
    [todo] iterations left, and what follows the loop. *)
Fixpoint attempts (self : SimilarwebParser) (url api_key : string)
         (todo : nat) (attempt : Z) (last_exc : option exn) : M pyval :=
  match todo with
  | O =>
      match last_exc with
      | Some exc => raise exc
      | None => raise (RuntimeError "Failed to retrieve data")
      end
  | S todo' =>
      let next (last_exc : option exn) : M pyval :=
        ((if attempt <? max_retries self
          then _sleep_with_backoff self attempt else ret tt) ;;;
         attempts self url api_key todo' (attempt + 1) last_exc)%monad in
      (resp <- http_get url api_key (timeout self) attempt ;;
       match resp with
       | Response status_code json =>
           if (200 <=? status_code) && (status_code <? 300) then
             match json with
             | Ok payload => ret payload
             | Raise exc =>
                 emit (Log WARNING "Request error for domain %s (attempt %d/%d): %s") ;;;
                 next (Some exc)
             end
           else
             emit (Log WARNING "Non-success status code for %s: %s - body: %s") ;;;
             next last_exc
       | Failed exc =>
           emit (Log WARNING "Request error for domain %s (attempt %d/%d): %s") ;;;
           next (Some exc)
       end)%monad
  end.

Definition _fetch_raw_data (self : SimilarwebParser) (domain : string) : M pyval :=
  (api_key <- getenv (api_key_env self) ;;
   match api_key with
   | Some key =>
       if is_empty key
       then raise (RuntimeError "API key not found in environment variable")
       else
         let url := base_url self ++ "/" ++ domain ++ "/overview" in
         attempts self url key (Z.to_nat (max_retries self)) 1 None
   | None => raise (RuntimeError "API key not found in environment variable")
   end)%monad.

(** ** _normalize_real_response *)

(** The loop of the dotted-path getter [g], on the parts of the path. *)
Fixpoint g_walk (cur : pyval) (parts : list string) (default : pyval) : pyval :=
  match parts with
  | [] => match cur with PNone => default | _ => cur end
  | part :: rest =>
      match cur with
      | PDict d => g_walk (dict_get d part PNone) rest default
      | _ => default
      end
  end.

(** [g(path, default)], closed over the payload [raw]. *)
Definition g (raw : pyval) (path : string) (default : pyval) : pyval :=
  g_walk raw (split_dots path) default.

Open Scope result_scope.

(** [{str(k): int(v) for k, v in estimated_visits.items()
      if isinstance(v, (int, float))}] *)
Fixpoint visits_of_items (items : list (string * pyval)) (acc : list (string * Z))
  : result (list (string * Z)) :=
  match items with
  | [] => Ok acc
  | (k, v) :: rest =>
      if is_number v then
        n <- py_int v ;;
        visits_of_items rest (dict_set acc k n)
      else visits_of_items rest acc
  end.

(** The loop over [top_countries]. *)
Fixpoint countries_of (cs : list pyval) (acc : list country_share)
  : result (list country_share) :=
  match cs with
  | [] => Ok acc
  | c :: rest =>
      code <- py_get c "country_code" PNone ;;
      value <- py_get c "share" PNone ;;
      if truthy code && is_number value then
        f <- py_float value ;;
        countries_of rest (acc ++ [{| CountryCode := code; Value := f |}])
      else countries_of rest acc
  end.

(** The loop over [traffic_sources.items()]. *)
Fixpoint sources_of_items (items : list (string * pyval)) (acc : list (string * float))
  : result (list (string * float)) :=
  match items with
  | [] => Ok acc
  | (key, val) :: rest =>
      if is_number val then
        f <- py_float val ;;
        sources_of_items rest (dict_set acc (str_title key) f)
      else sources_of_items rest acc
  end.

(** One turn of the loop over [top_keywords_raw]: the entry appended, if
    any. *)
Definition keyword_of (kw : pyval) : result (option keyword) :=
  k1 <- py_get kw "keyword" PNone ;;
  k2 <- py_get kw "name" PNone ;;
  let name := py_or k1 k2 in
  v1 <- py_get kw "visits" PNone ;;
  v2 <- py_get kw "value" PNone ;;
  let value := py_or v1 v2 in
  c <- py_get kw "cpc" PNone ;;
  let cpc := py_or c (PFloat 0) in
  if truthy name && is_number value then
    n <- py_int value ;;
    f <- py_float cpc ;;
    Ok (Some {| kw_name := name; kw_value := n; kw_cpc := f |})
  else Ok None.

Fixpoint keywords_of (kws : list pyval) (acc : list keyword) : result (list keyword) :=
  match kws with
  | [] => Ok acc
  | kw :: rest =>
      r <- keyword_of kw ;;
      keywords_of rest (match r with Some k => acc ++ [k] | None => acc end)
  end.

Definition normalized_visits (raw : pyval) : result (list (string * Z)) :=
  let estimated_visits := py_or (g raw "traffic.estimated_monthly_visits" (PDict [])) (PDict []) in
  items <- py_items estimated_visits ;;
  visits_of_items items [].

Definition norm_countries (raw : pyval) : result (list country_share) :=
  let top_countries := py_or (g raw "audience.top_countries" (PList [])) (PList []) in
  cs <- py_iter top_countries ;;
  countries_of cs [].

Definition norm_sources (raw : pyval) : result (list (string * float)) :=
  let traffic_sources := py_or (g raw "traffic.sources" (PDict [])) (PDict []) in
  items <- py_items traffic_sources ;;
  sources_of_items items [].

Definition norm_keywords (raw : pyval) : result (list keyword) :=
  let top_keywords_raw := py_or (g raw "traffic.top_keywords" (PList [])) (PList []) in
  kws <- py_iter top_keywords_raw ;;
  keywords_of kws [].

Definition country_rank (raw : pyval) : result pyval :=
  let country_rank_raw := py_or (g raw "ranking.country" PNone) (PDict []) in
  name <- py_get country_rank_raw "name" (PStr "") ;;
  code <- py_get country_rank_raw "code" (PStr "") ;;
  rank <- py_get country_rank_raw "rank" (PInt 0) ;;
  Ok (PDict [("Country", name); ("CountryCode", code); ("Rank", rank)]).

Close Scope result_scope.
Open Scope monad_scope.

Definition _normalize_real_response (self : SimilarwebParser) (domain : string)
           (raw : pyval) : M NormalizedRecord :=
  overview <- lift (py_get raw "overview" (PDict [])) ;;
  visits_map <- lift (normalized_visits raw) ;;
  countries <- lift (norm_countries raw) ;;
  sources <- lift (norm_sources raw) ;;
  keywords <- lift (norm_keywords raw) ;;
  crank <- lift (country_rank raw) ;;
  snapshot <- utc_now_iso ;;
  title1 <- lift (py_get overview "title" PNone) ;;
  description1 <- lift (py_get overview "description" PNone) ;;
  bounce_rate <- lift (py_float (g raw "engagement.bounce_rate" (PFloat 0))) ;;
  pages_per_visit <- lift (py_float (g raw "engagement.pages_per_visit" (PFloat 0))) ;;
  visits_n <- lift (py_int (g raw "engagement.visits" (PInt 0))) ;;
  time_on_site <- lift (py_float (g raw "engagement.time_on_site" (PFloat 0))) ;;
  let normalized :=
    {| domain := domain;
       snapshotDate := snapshot;
       title := py_or (py_or title1 (g raw "meta.title" PNone)) (PStr "");
       description := py_or (py_or description1 (g raw "meta.description" PNone)) (PStr "");
       category := py_or (g raw "classification.category" PNone) (PStr "");
       screenshot := py_or (g raw "meta.screenshot_url" PNone) (PStr "");
       globalRank := g raw "ranking.global.rank" (PInt 0);
       countryRank := crank;
       categoryRank := py_str (g raw "ranking.category.rank" (PStr ""));
       estimatedMonthlyVisits := visits_map;
       bounceRate := format_fixed 4 bounce_rate;
       pagesPerVisit := format_fixed 2 pages_per_visit;
       visits := decimal visits_n;
       timeOnSite := format_fixed 2 time_on_site;
       topCountryShares := countries;
       trafficSources := sources;
       topKeywords := keywords;
       isDataFromGA := truthy (g raw "meta.is_from_ga" (PBool false));
       competitors := g raw "competition.competitors" (PList []) |} in
  emit (Log DEBUG "Normalized real response for %s: %s") ;;;
  ret normalized.

Close Scope monad_scope.

(** ** traffic_utils: the seed and the generator *)

Definition hex_val (c : ascii) : option Z :=
  let n := Z.of_nat (nat_of_ascii c) in
  if (48 <=? n) && (n <=? 57) then Some (n - 48)
  else if (97 <=? n) && (n <=? 102) then Some (n - 87)
  else if (65 <=? n) && (n <=? 70) then Some (n - 55)
  else None.

Fixpoint int16_from (acc : Z) (s : string) : option Z :=
  match s with
  | EmptyString => Some acc
  | String c s' =>
      match hex_val c with
      | Some v => int16_from (16 * acc + v) s'
      | None => None
      end
  end.

(** [int(s, 16)] on a text of hexadecimal digits, which is all a
    hexdigest holds. *)
Definition int_base16 (s : string) : result Z :=
  match s with
  | EmptyString => Raise (ValueError s)
  | _ =>
      match int16_from 0 s with
      | Some z => Ok z
      | None => Raise (ValueError s)
      end
  end.

Definition _hash_to_int (text : string) : result Z :=
  let h := Sha256.hexdigest (Sha256.encode text) in
  int_base16 (substring 0 12 h).

Definition _pseudo_random_float (seed : Z) (minimum maximum : float) : float :=
  let a := 1664525 in
  let c := 1013904223 in
  let m := 2 ^ 32 in
  let value := (a * seed + c) mod m in
  let frac := (float_of_Z value / float_of_Z m)%float in
  (minimum + (maximum - minimum) * frac)%float.

(** The profile [generate_mock_profile] returns, by the keys
    [_normalize_mock_response] reads from it. *)
Module Raw.

(** The fields that depend on the domain and its seed alone. *)
Record seeded : Type := {
  title : string;
  description : string;
  category : string;
  screenshot : string;
  global_rank : Z;
  country_rank : Z;
  category_rank : string;
  bounce_rate : float;
  pages_per_visit : float;
  visits : Z;
  time_on_site : float;
  top_country_shares : list country_share;
  traffic_sources : list (string * float);
  top_keywords : list keyword;
  competitors : list string;
  base_visits : Z                     (* what the visit history starts from *)
}.

Record profile : Type := {
  domain : string;
  fields : seeded;
  estimated_monthly_visits : list (string * Z)
}.

End Raw.

Fixpoint lookup_count (d : list (string * Z)) (k : string) : option Z :=
  match d with
  | [] => None
  | (k', v) :: rest => if String.eqb k' k then Some v else lookup_count rest k
  end.

Open Scope monad_scope.

(** The first loop of [_build_estimated_visits]: the keys of the months
    [30 * i] days before the first of this month, [i] running over [offsets]. *)
Fixpoint month_keys (today : datetime) (offsets : list Z) : result (list string) :=
  match offsets with
  | [] => Ok []
  | i :: rest =>
      match minus_days (replace_day today 1) (30 * i) with
      | Ok d =>
          let month_date := replace_day d 1 in
          match month_keys today rest with
          | Ok keys => Ok (month_key month_date :: keys)
          | Raise e => Raise e
          end
      | Raise e => Raise e
      end
  end.

Section MockGenerator.

(** Modelled from the spec: the statement of [_build_estimated_visits]
    that updates [current] after a month is stored is missing from src.
    Section 4.2 step 3 has the counts "generally decaying moving backward
    from a base visit value"; [decay] is that step, on visit counts. *)
Variable decay : Z -> Z.

(** The second loop: [visits[key] = max(1000, int(current))] for the keys
    newest first; [int] is the identity on a count. *)
Fixpoint fill_visits (keys : list string) (current : Z) (visits : list (string * Z))
  : list (string * Z) :=
  match keys with
  | [] => visits
  | key :: rest => fill_visits rest (decay current) (dict_set visits key (Z.max 1000 current))
  end.

(** Modelled from the spec: the [return] of [_build_estimated_visits] is
    missing from src.  The docstring has the history "ending with base" and
    section 3 has the mapping in "oldest→newest insertion order": the
    mapping returned lists the months of [months] in their order. *)
Definition oldest_first (months : list string) (visits : list (string * Z))
  : list (string * Z) :=
  fold_left (fun acc key =>
               match lookup_count visits key with
               | Some v => dict_set acc key v
               | None => acc
               end) months [].

Definition _build_estimated_visits (base : Z) : M (list (string * Z)) :=
  today <- now ;;
  months <- lift (month_keys today [2; 1; 0]) ;;
  let visits := fill_visits (rev months) base [] in
  ret (oldest_first months visits).

(** Modelled from the spec: [generate_mock_profile] is imported by the
    parser and missing from src.  Section 4.2: the seed is the hash of the
    canonical domain (step 1); every metric, label, keyword and competitor
    is derived from the domain and that seed alone (steps 2 and 4), which
    is [derive]; the visit history is built from a base value derived from
    the seed (step 3). *)
Variable derive : string -> Z -> Raw.seeded.

Definition generate_mock_profile (domain : string) : M Raw.profile :=
  seed <- lift (_hash_to_int domain) ;;
  let f := derive domain seed in
  history <- _build_estimated_visits (Raw.base_visits f) ;;
  ret {| Raw.domain := domain; Raw.fields := f; Raw.estimated_monthly_visits := history |}.

Definition _normalize_mock_response (raw : Raw.profile) : M NormalizedRecord :=
  let f := Raw.fields raw in
  snapshot <- utc_now_iso ;;
  ret {| domain := Raw.domain raw;
         snapshotDate := snapshot;
         title := PStr (Raw.title f);
         description := PStr (Raw.description f);
         category := PStr (Raw.category f);
         screenshot := PStr (Raw.screenshot f);
         globalRank := PInt (Raw.global_rank f);
         countryRank := PInt (Raw.country_rank f);
         categoryRank := Chars (Raw.category_rank f);
         estimatedMonthlyVisits := Raw.estimated_monthly_visits raw;
         bounceRate := format_fixed 4 (Raw.bounce_rate f);
         pagesPerVisit := format_fixed 2 (Raw.pages_per_visit f);
         visits := decimal (Raw.visits f);
         timeOnSite := format_fixed 2 (Raw.time_on_site f);
         topCountryShares := Raw.top_country_shares f;
         trafficSources := Raw.traffic_sources f;
         topKeywords := Raw.top_keywords f;
         isDataFromGA := false;
         competitors := PList (map PStr (Raw.competitors f)) |}.

(** [self.use_mock_data or not self._has_api_key()]: the key is looked up
    only when mock data is off. *)
Definition wants_mock (self : SimilarwebParser) : M bool :=
  if use_mock_data self then ret true
  else (has <- _has_api_key self ;; ret (negb has)).

Definition get_domain_data (self : SimilarwebParser) (domain : string)
  : M NormalizedRecord :=
  let clean_domain := normalize_domain domain in
  if is_empty clean_domain then raise (ValueError domain)
  else
    mock <- wants_mock self ;;
    if mock then
      emit (Log DEBUG "Using mock traffic profile for %s") ;;;
      raw <- generate_mock_profile clean_domain ;;
      _normalize_mock_response raw
    else
      emit (Log DEBUG "Fetching real data for %s") ;;;
      raw_response <- _fetch_raw_data self clean_domain ;;
      _normalize_real_response self clean_domain raw_response.

End MockGenerator.

Close Scope monad_scope.

(** ** Readings the statements below are written against *)

(** A character that does not occur in a text. *)
Definition absent (a : ascii) (s : string) : bool :=
  all_chars (fun c => negb (Ascii.eqb a c)) s.

(** A character [lower] leaves as it is. *)
Definition lower_fixed (c : ascii) : bool := Ascii.eqb (lower_char c) c.

Definition not_space (c : ascii) : bool := negb (is_space c).

(** The value a path leads to in a payload: [None] when a node on the way
    is not a mapping or lacks the key. *)
Fixpoint at_path (cur : pyval) (parts : list string) : option pyval :=
  match parts with
  | [] => Some cur
  | part :: rest =>
      match cur with
      | PDict d =>
          match lookup d part with
          | Some v => at_path v rest
          | None => None
          end
      | _ => None
      end
  end.











(** What the keyword loop reads in an entry, told by the keys the entry
    has: the name under [keyword] unless that key is absent or holds a
    falsy value, then the one under [name]; likewise the value under
    [visits], then [value]; the cpc under [cpc], then 0.0. *)
Definition first_truthy (d : list (string * pyval)) (key : string) (otherwise : pyval)
  : pyval :=
  match lookup d key with
  | Some v => if truthy v then v else otherwise
  | None => otherwise
  end.

Definition keyword_name (d : list (string * pyval)) : pyval :=
  first_truthy d "keyword" (match lookup d "name" with Some v => v | None => PNone end).

Definition keyword_value (d : list (string * pyval)) : pyval :=
  first_truthy d "visits" (match lookup d "value" with Some v => v | None => PNone end).

Definition keyword_cpc (d : list (string * pyval)) : pyval :=
  first_truthy d "cpc" (PFloat 0).

(** An entry the loop keeps: a mapping with a truthy name and a value
    that is a number. *)
Definition keepable (kw : pyval) : bool :=
  match kw with
  | PDict d => truthy (keyword_name d) && is_number (keyword_value d)
  | _ => false
  end.

(** [k] is the entry of the record made from the entry [kw] of the
    payload. *)
Definition renders (kw : pyval) (k : keyword) : Prop :=
  exists d, kw = PDict d /\
            kw_name k = keyword_name d /\
            py_int (keyword_value d) = Ok (kw_value k) /\
            py_float (keyword_cpc d) = Ok (kw_cpc k).

(** The record of a payload in which every field is missing. *)
Definition default_record (domain snapshot : string) : NormalizedRecord :=
  {| domain := domain;
     snapshotDate := snapshot;
     title := PStr "";
     description := PStr "";
     category := PStr "";
     screenshot := PStr "";
     globalRank := PInt 0;
     countryRank := PDict [("Country", PStr ""); ("CountryCode", PStr ""); ("Rank", PInt 0)];
     categoryRank := Chars "";
     estimatedMonthlyVisits := [];
     bounceRate := "0.0000";
     pagesPerVisit := "0.00";
     visits := "0";
     timeOnSite := "0.00";
     topCountryShares := [];
     trafficSources := [];
     topKeywords := [];
     isDataFromGA := false;
     competitors := PList [] |}.

(** *** The retry loop *)

Definition is_success (status_code : Z) : bool :=
  (200 <=? status_code) && (status_code <? 300).

(** The body an attempt returns, when it succeeds. *)
Definition succeeded (o : http_outcome) : option pyval :=
  match o with
  | Response status_code (Ok body) => if is_success status_code then Some body else None
  | _ => None
  end.

(** The error an attempt raises inside the [try], when it raises. *)
Definition raised (o : http_outcome) : option exn :=
  match o with
  | Failed e => Some e
  | Response status_code (Raise e) => if is_success status_code then Some e else None
  | Response _ (Ok _) => None
  end.

(** The last error raised by the attempts [1 .. n]. *)
Fixpoint last_error (w : World) (n : nat) : option exn :=
  match n with
  | O => None
  | S k =>
      match raised (transport w (Z.of_nat (S k))) with
      | Some e => Some e
      | None => last_error w k
      end
  end.

(** [count] attempts from [first] on, with the backoff sleep between two
    attempts and none after the last. *)
Fixpoint schedule (self : SimilarwebParser) (url key : string) (first : Z) (count : nat)
  : list event :=
  match count with
  | O => []
  | S c =>
      HttpGet url key (timeout self) first ::
      match c with
      | O => []
      | S _ => Sleep (backoff_delay self first) :: schedule self url key (first + 1) c
      end
  end.

Definition is_log (e : event) : bool :=
  match e with Log _ _ => true | _ => false end.

(** A trace without its log lines. *)
Definition network (tr : list event) : list event :=
  filter (fun e => negb (is_log e)) tr.

(** The warning a failed attempt logs. *)
Definition failure_log (o : http_outcome) : string :=
  match raised o with
  | Some _ => "Request error for domain %s (attempt %d/%d): %s"
  | None => "Non-success status code for %s: %s - body: %s"
  end.

(** The delays a trace sleeps, in order. *)
Definition sleeps (tr : list event) : list Q :=
  flat_map (fun e => match e with Sleep s => [s] | _ => [] end) tr.

(** The requests of a trace. *)
Definition requests (tr : list event) : list event :=
  filter (fun e => match e with HttpGet _ _ _ _ => true | _ => false end) tr.

(** *** The mock path *)

Definition with_snapshot (s : string) (r : NormalizedRecord) : NormalizedRecord :=
  {| domain := domain r; snapshotDate := s; title := title r;
     description := description r; category := category r;
     screenshot := screenshot r; globalRank := globalRank r;
     countryRank := countryRank r; categoryRank := categoryRank r;
     estimatedMonthlyVisits := estimatedMonthlyVisits r;
     bounceRate := bounceRate r; pagesPerVisit := pagesPerVisit r;
     visits := visits r; timeOnSite := timeOnSite r;
     topCountryShares := topCountryShares r; trafficSources := trafficSources r;
     topKeywords := topKeywords r; isDataFromGA := isDataFromGA r;
     competitors := competitors r |}.

(** The parser with mock data switched on. *)
Definition in_mock_mode (self : SimilarwebParser) : SimilarwebParser :=
  {| base_url := base_url self; api_key_env := api_key_env self;
     timeout := timeout self; max_retries := max_retries self;
     backoff_factor := backoff_factor self; use_mock_data := true |}.

Definition is_hex (c : ascii) : bool :=
  match hex_val c with Some _ => true | None => false end.

(** The profile the generator returns for a domain when its seed is
    [seed] and the month keys are [months]. *)
Definition mock_profile (decay : Z -> Z) (derive : string -> Z -> Raw.seeded)
           (clean : string) (seed : Z) (months : list string) : Raw.profile :=
  let f := derive clean seed in
  {| Raw.domain := clean; Raw.fields := f;
     Raw.estimated_monthly_visits :=
       oldest_first months (fill_visits decay (rev months) (Raw.base_visits f) []) |}.

(** The key of the month [k] months before month [m] of year [y]. *)
Definition key_months_back (y m : Z) (k : Z) : string :=
  let t := y * 12 + (m - 1) - k in
  zero_pad 4 (t / 12) ++ "-" ++ zero_pad 2 (t mod 12 + 1) ++ "-01".

Fixpoint same_keys (a b : list string) : bool :=
  match a, b with
  | [], [] => true
  | x :: a', y :: b' => String.eqb x y && same_keys a' b'
  | _, _ => false
  end.

(** Whether the keys computed in month [m] of year [y] are those of that
    month and of the two before it, oldest first. *)
Definition keys_are_recent (y m : Z) : bool :=
  let today := {| year := y; month := m; day := 15; hour := 0; minute := 0; second := 0 |} in
  match month_keys today [2; 1; 0] with
  | Ok keys => same_keys keys (map (key_months_back y m) [2; 1; 0])
  | Raise _ => false
  end.

(** A clock [datetime.now] can show: a date of the calendar after year 1. *)
Definition wall_clock (w : World) : Prop :=
  forall n, valid (clock w n) /\ 2 <= year (clock w n).

(** ** Sample inputs *)

Module Sample.

Definition at_time (y m d : Z) : datetime :=
  {| year := y; month := m; day := d; hour := 9; minute := 30; second := 0 |}.

(** No credential, a provider that is never reached, a clock that stands
    still. *)
Definition world (t : datetime) : World :=
  {| environ := fun _ => None;
     transport := fun _ => Failed (OtherError "ConnectionError");
     clock := fun _ => t |}.

(** A credential, and a provider that fails twice before it answers. *)
Definition flaky : World :=
  {| environ := fun name => if String.eqb name "SIMILARWEB_API_KEY" then Some "secret" else None;
     transport := fun attempt =>
       if attempt =? 1 then Failed (OtherError "Timeout")
       else if attempt =? 2 then Response 503 (Ok PNone)
       else Response 200 (Ok (PDict [("meta", PDict [("title", PStr "Example")])]));
     clock := fun _ => at_time 2025 6 15 |}.

(** A credential, and a provider that always fails. *)
Definition down : World :=
  {| environ := fun name => if String.eqb name "SIMILARWEB_API_KEY" then Some "secret" else None;
     transport := fun attempt =>
       if attempt =? 2 then Failed (OtherError "Timeout") else Response 500 (Ok PNone);
     clock := fun _ => at_time 2025 6 15 |}.

Definition start : State := {| trace := []; ticks := 0 |}.

Definition parser (use_mock_data : bool) : SimilarwebParser :=
  SimilarwebParser_init "https://api.similarweb.com/v1/website/" "SIMILARWEB_API_KEY"
                        10 3 (1 # 2) use_mock_data.

(** A generator in the manner of section 4.2: every metric drawn by
    [_pseudo_random_float] from the seed moved by an offset of its own. *)
Definition derive (domain : string) (seed : Z) : Raw.seeded :=
  let draw (offset : Z) (lo hi : float) := _pseudo_random_float (seed + offset) lo hi in
  {| Raw.title := domain;
     Raw.description := "Synthetic profile";
     Raw.category := "General";
     Raw.screenshot := "https://example.invalid/" ++ domain ++ ".png";
     Raw.global_rank := trunc (draw 0 1%float 1000000%float);
     Raw.country_rank := trunc (draw 1 1%float 100000%float);
     Raw.category_rank := decimal (trunc (draw 2 1%float 5000%float));
     Raw.bounce_rate := draw 3 0.25%float 0.75%float;
     Raw.pages_per_visit := draw 4 1%float 8%float;
     Raw.visits := trunc (draw 5 1000%float 5000000%float);
     Raw.time_on_site := draw 6 30%float 600%float;
     Raw.top_country_shares := [{| CountryCode := PStr "US"; Value := draw 7 0.25%float 0.5%float |}];
     Raw.traffic_sources := [("direct", draw 8 0.125%float 0.5%float); ("search", draw 9 0.125%float 0.5%float)];
     Raw.top_keywords := [{| kw_name := PStr (domain ++ " login");
                            kw_value := trunc (draw 10 100%float 10000%float);
                            kw_cpc := draw 11 0.125%float 5%float |}];
     Raw.competitors := ["alt-" ++ domain];
     Raw.base_visits := trunc (draw 5 1000%float 5000000%float) |}.

Definition decay (current : Z) : Z := current * 9 / 10.

(** A payload with a field of every kind the normalization reads. *)
Definition payload : pyval :=
  PDict
    [("overview", PDict [("title", PStr "Example")]);
     ("traffic",
      PDict [("estimated_monthly_visits",
              PDict [("2025-04-01", PInt 1200); ("2025-05-01", PFloat 1300.5);
                     ("2025-06-01", PBool true); ("note", PStr "n/a")]);
             ("sources", PDict [("search", PFloat 0.5); ("not_a_number", PStr "x");
                                ("paid search", PBool true)]);
             ("top_keywords",
              PList [PDict [("keyword", PStr "example"); ("visits", PInt 40); ("cpc", PFloat 1.5)];
                     PDict [("name", PStr "sample"); ("value", PInt 7)];
                     PDict [("keyword", PStr "no number")];
                     PDict [("visits", PInt 10)]])]);
     ("audience",
      PDict [("top_countries",
              PList [PDict [("country_code", PStr "US"); ("share", PFloat 0.25)];
                     PDict [("country_code", PStr "DE"); ("share", PBool true)]])]);
     ("engagement", PDict [("bounce_rate", PStr "0.35"); ("visits", PInt 12345)]);
     ("meta", PDict [("is_from_ga", PNone)])].

End Sample.

(** ** Further readings *)

(** A text that does not begin with whitespace. *)
Definition starts_clean (s : string) : bool :=
  match s with
  | EmptyString => true
  | String c _ => negb (is_space c)
  end.

(** The last character of a text satisfies [p]. *)
Fixpoint ends_with (p : ascii -> bool) (s : string) : bool :=
  match s with
  | EmptyString => false
  | String c EmptyString => p c
  | String _ s' => ends_with p s'
  end.

(** The sum of the delays of a trace, in seconds. *)
Definition total_sleep (tr : list event) : Q :=
  fold_right Qplus 0%Q (sleeps tr).

(** A moment in month [m] of year [y]. *)
Definition probe (y m : Z) : datetime :=
  {| year := y; month := m; day := 15; hour := 0; minute := 0; second := 0 |}.

(** Whether the keys computed in month [m] of year [y] are three, end
    with the key of that month, and never go forward: the middle one is
    before the last, the first one is not after the middle one. *)
Definition keys_end_now (y m : Z) : bool :=
  match month_keys (probe y m) [2; 1; 0] with
  | Ok [k2; k1; k0] =>
      String.eqb k0 (month_key (probe y m)) && String.leb k2 k1 && String.ltb k1 k0
  | _ => false
  end.

(** [d.get(k)] on the items of a mapping with values of any one type. *)
Fixpoint assoc {V : Type} (d : list (string * V)) (k : string) : option V :=
  match d with
  | [] => None
  | (k', v) :: rest => if String.eqb k' k then Some v else assoc rest k
  end.

(** The items of a payload mapping that the loop over [traffic_sources]
    keeps, in their order: the key in title case, the value as a float. *)
Definition numeric_sources (items : list (string * pyval)) : list (string * float) :=
  flat_map (fun kv => if is_number (snd kv)
                      then match py_float (snd kv) with
                           | Ok f => [(str_title (fst kv), f)]
                           | Raise _ => []
                           end
                      else []) items.

(** The items that the comprehension over [estimated_visits] keeps. *)
Definition numeric_counts (items : list (string * pyval)) : list (string * Z) :=
  flat_map (fun kv => if is_number (snd kv)
                      then match py_int (snd kv) with
                           | Ok n => [(fst kv, n)]
                           | Raise _ => []
                           end
                      else []) items.

(** The value a mapping built from [items] in their order ends with under
    [k]: that of the last item with that key. *)
Definition last_value {V : Type} (items : list (string * V)) (k : string) : option V :=
  assoc (rev items) k.

(** ** The command-line program

    [src/main.py] from the point where the settings are read, and
    [export_data] of [src/outputs/exporters.py].  The libraries the program
    stands on are its environment: the rows [csv.reader] makes of a file,
    the file system, and the writers of [json] and [pandas]. *)

Inductive app_level : Type := INFO | ERROR.

(** What a run of the program does, in order: the effects of the parser,
    the lines of the loggers of [main] and of the exporter with their
    arguments, [os.makedirs], and the three writers, each with the records
    it is given ([to_csv] and [to_excel] write the frame of the flattened
    records). *)
Inductive app_event : Type :=
| Parser (e : event)
| AppLog (l : app_level) (message : string) (args : list string)
| Makedirs (path : string)
| JsonDump (path : string) (records : list NormalizedRecord)
| ToCsv (path : string) (records : list NormalizedRecord)
| ToExcel (path : string) (records : list NormalizedRecord).

(** The parser as the constructor leaves it.  [__init__] calls [rstrip]
    on [base_url] and stores its other arguments as they come: each holds
    whatever JSON value the settings give it. *)
Record BuiltParser : Type := {
  built_base_url : string;
  built_api_key_env : pyval;
  built_timeout : pyval;
  built_max_retries : pyval;
  built_backoff_factor : pyval;
  built_use_mock_data : pyval
}.

(** The machine the program runs on: the world of the parser, the paths
    that exist, the rows [csv.reader] yields for a file (or the error
    opening or reading it raises), and the error, if any, a file-system
    operation ends with.  [untyped_call] is what [get_domain_data] does on
    a parser whose attributes do not have the types the constructor
    declares, for a domain and a number of clock readings made so far: its
    outcome, its effects, the clock readings made after it.  Dynamic
    typing and the libraries decide it; nothing is assumed of it. *)
Record Host : Type := {
  parser_world : World;
  path_exists : string -> bool;
  csv_rows : string -> result (list (list string));
  disk_fault : app_event -> option exn;
  untyped_call : BuiltParser -> string -> nat -> result NormalizedRecord * list event * nat
}.

Record Run : Type := {
  events : list app_event;
  clock_reads : nat
}.

Definition App (A : Type) : Type := Host -> Run -> result A * Run.

Definition app_ret {A} (a : A) : App A := fun _ s => (Ok a, s).

Definition app_raise {A} (e : exn) : App A := fun _ s => (Raise e, s).

Definition app_bind {A B} (c : App A) (k : A -> App B) : App B :=
  fun h s =>
    match c h s with
    | (Ok a, s') => k a h s'
    | (Raise e, s') => (Raise e, s')
    end.

(** [try: c  except Exception as e: handler] *)
Definition try_except {A} (c : App A) (handler : exn -> App A) : App A :=
  fun h s =>
    match c h s with
    | (Ok a, s') => (Ok a, s')
    | (Raise e, s') => handler e h s'
    end.

Definition log (l : app_level) (message : string) (args : list string) : App unit :=
  fun _ s => (Ok tt, {| events := events s ++ [AppLog l message args];
                        clock_reads := clock_reads s |}).

(** A file-system operation: attempted, then failing or not as the host
    decides. *)
Definition disk (e : app_event) : App unit :=
  fun h s =>
    let s' := {| events := events s ++ [e]; clock_reads := clock_reads s |} in
    match disk_fault h e with
    | Some exc => (Raise exc, s')
    | None => (Ok tt, s')
    end.

(** A call into the parser: its effects join those of the run, in their
    order; the clock goes on from where the run has left it. *)
Definition of_parser {A} (c : M A) : App A :=
  fun h s =>
    let '(r, st) := c (parser_world h) {| trace := []; ticks := clock_reads s |} in
    (r, {| events := events s ++ map Parser (trace st); clock_reads := ticks st |}).

Declare Scope app_scope.
Delimit Scope app_scope with app.
Notation "x <- c ;; k" := (app_bind c (fun x => k))
  (at level 61, c at next level, right associativity) : app_scope.
Notation "c ;;; k" := (app_bind c (fun _ => k))
  (at level 61, right associativity) : app_scope.

(** *** load_domains_from_csv *)

(** [dict(zip(fieldnames, row))], then [restval], which is [None], under
    the field names the row is too short for.  The entry under [restkey]
    has the key [None] and is no column. *)
Definition dict_of_row (fieldnames row : list string) : list (string * option string) :=
  let d := fold_left (fun d kv => dict_set d (fst kv) (Some (snd kv)))
                     (combine fieldnames row) [] in
  fold_left (fun d key => dict_set d key None) (skipn (List.length row) fieldnames) d.

Definition is_blank (row : list string) : bool :=
  match row with [] => true | _ => false end.

(** The rows a [DictReader] yields: those after the header, the blank
    ones left out. *)
Definition dict_rows (rows : list (list string)) : list (list string) :=
  filter (fun row => negb (is_blank row)) (tl rows).

(** [(row.get("domain") or "").strip()] *)
Definition domain_cell (fieldnames row : list string) : string :=
  strip (match assoc (dict_of_row fieldnames row) "domain" with
         | Some (Some cell) => cell
         | _ => ""
         end).

(** [sorted(set(domains))]: the texts of [domains], each once, ascending
    in the order of their characters. *)
Fixpoint insert (x : string) (l : list string) : list string :=
  match l with
  | [] => [x]
  | y :: l' =>
      match String.compare x y with
      | Lt => x :: l
      | Eq => l
      | Gt => y :: insert x l'
      end
  end.

Definition sorted_set (domains : list string) : list string :=
  fold_right insert [] domains.

Definition named_column (rows : list (list string)) : list string :=
  let fieldnames := match rows with [] => [] | header :: _ => header end in
  flat_map (fun row =>
              let domain := domain_cell fieldnames row in
              if is_empty domain then [] else [domain])
           (dict_rows rows).

(** The fallback: the first column of every row, the header row too. *)
Definition first_column (rows : list (list string)) : list string :=
  flat_map (fun row =>
              match row with
              | [] => []
              | cell :: _ =>
                  let domain := strip cell in
                  if negb (is_empty domain) && negb (String.eqb (lower domain) "domain")
                  then [domain] else []
              end)
           rows.

Definition load_domains_from_csv (h : Host) (path : string) : result (list string) :=
  if negb (path_exists h path) then Raise (OtherError "FileNotFoundError")
  else
    (rows <- csv_rows h path ;;
     let fieldnames := match rows with [] => [] | header :: _ => header end in
     let domains :=
       if existsb (String.eqb "domain") fieldnames
       then named_column rows
       else first_column rows in
     Ok (sorted_set domains))%result.

(** *** export_data *)

(** [posixpath.dirname]: the path up to its last slash, without the
    slashes that end it unless it is made of slashes only. *)
Fixpoint head_length (p : string) : nat :=
  match p with
  | EmptyString => 0
  | String c p' =>
      match head_length p' with
      | O => if Ascii.eqb c "/" then 1 else 0
      | S n => S (S n)
      end
  end.

Definition dirname (p : string) : string :=
  let head := substring 0 (head_length p) p in
  if negb (is_empty head) && negb (all_chars (Ascii.eqb "/") head)
  then rstrip_by (Ascii.eqb "/") head
  else head.

Open Scope app_scope.

Definition _ensure_parent_dir (path : string) : App unit :=
  let parent := dirname path in
  fun h s =>
    if negb (is_empty parent) && negb (path_exists h parent)
    then disk (Makedirs parent) h s
    else (Ok tt, s).

Definition export_data (records : list NormalizedRecord) (output_format output_path : string)
  : App unit :=
  let output_format := lower output_format in
  match records with
  | [] => app_raise (ValueError "No records to export")
  | _ =>
      _ensure_parent_dir output_path ;;;
      log INFO "Exporting %d records to %s (%s)"
          [decimal (Z.of_nat (List.length records)); output_path; output_format] ;;;
      if String.eqb output_format "json" then disk (JsonDump output_path records)
      else if String.eqb output_format "csv" then disk (ToCsv output_path records)
      else if String.eqb output_format "xlsx" then disk (ToExcel output_path records)
      else app_raise (ValueError ("Unsupported output format: " ++ output_format))
  end.

(** *** main *)

Section Program.

Variable decay : Z -> Z.
Variable derive : string -> Z -> Raw.seeded.

(** The loop [for idx, domain in enumerate(domains, start=1)], with
    [total = len(domains)]. *)
Fixpoint process (parser : SimilarwebParser) (domains : list string) (idx total : Z)
         (results : list NormalizedRecord) : App (list NormalizedRecord) :=
  match domains with
  | [] => app_ret results
  | domain :: rest =>
      results <-
        try_except
          (log INFO "Processing %d/%d: %s" [decimal idx; decimal total; domain] ;;;
           record <- of_parser (get_domain_data decay derive parser domain) ;;
           app_ret (results ++ [record])%list)
          (fun _ => log ERROR "Failed to fetch data for domain '%s'" [domain] ;;;
                    app_ret results) ;;
      process parser rest (idx + 1) total results
  end.

(** *** build_parser_from_settings *)

(** Every failure is the [AttributeError] of a [get] on a section that is
    no mapping, or of [rstrip] on a [base_url] that is no string. *)
Definition build_parser_from_settings (settings : pyval) (cli_use_mock_data : option bool)
  : result BuiltParser :=
  (sw_conf <- py_get settings "similarweb" (PDict []) ;;
   req_conf <- py_get settings "request" (PDict []) ;;
   use_mock_data <- py_get sw_conf "use_mock_data" (PBool true) ;;
   let use_mock_data :=
     match cli_use_mock_data with
     | Some given => PBool given
     | None => use_mock_data
     end in
   base_url <- py_get sw_conf "base_url" (PStr "https://api.similarweb.com/v1/website") ;;
   api_key_env <- py_get sw_conf "api_key_env" (PStr "SIMILARWEB_API_KEY") ;;
   timeout <- py_get req_conf "timeout" (PInt 10) ;;
   max_retries <- py_get req_conf "max_retries" (PInt 3) ;;
   backoff_factor <- py_get req_conf "backoff_factor" (PFloat 0.5) ;;
   match base_url with
   | PStr url =>
       Ok {| built_base_url := rstrip_by (Ascii.eqb "/") url;
             built_api_key_env := api_key_env;
             built_timeout := timeout;
             built_max_retries := max_retries;
             built_backoff_factor := backoff_factor;
             built_use_mock_data := use_mock_data |}
   | _ => Raise AttributeError
   end)%result.

(** The rational a finite float is. *)
Definition exact_Q (f : float) : option Q :=
  match Prim2SF f with
  | S754_zero _ => Some 0%Q
  | S754_finite s m e =>
      let magnitude := (inject_Z (Z.pos m) * Qpower 2 e)%Q in
      Some (if s then Qopp magnitude else magnitude)
  | S754_infinity _ | S754_nan => None
  end.

(** The parser of the sections above, when every attribute has the type
    the constructor declares: a string, two integers, a number, a bool. *)
Definition declared_types (b : BuiltParser) : option SimilarwebParser :=
  match built_api_key_env b, built_timeout b, built_max_retries b, built_use_mock_data b with
  | PStr env_var, PInt secs, PInt retries, PBool mock =>
      let factor :=
        match built_backoff_factor b with
        | PFloat f => exact_Q f
        | PInt z => Some (inject_Z z)
        | _ => None
        end in
      match factor with
      | Some q =>
          Some {| base_url := built_base_url b; api_key_env := env_var; timeout := secs;
                  max_retries := retries; backoff_factor := q; use_mock_data := mock |}
      | None => None
      end
  | _, _, _, _ => None
  end.

(** [parser.get_domain_data(domain)] in a run. *)
Definition call_parser (parser : BuiltParser) (domain : string) : App NormalizedRecord :=
  match declared_types parser with
  | Some self => of_parser (get_domain_data decay derive self domain)
  | None =>
      fun h s =>
        let '(r, effects, reads) := untyped_call h parser domain (clock_reads s) in
        (r, {| events := events s ++ map Parser effects; clock_reads := reads |})
  end.

(** The loop of [main] again, on the parser as built. *)
Fixpoint process_with (call : string -> App NormalizedRecord) (domains : list string)
         (idx total : Z) (results : list NormalizedRecord) : App (list NormalizedRecord) :=
  match domains with
  | [] => app_ret results
  | domain :: rest =>
      results <-
        try_except
          (log INFO "Processing %d/%d: %s" [decimal idx; decimal total; domain] ;;;
           record <- call domain ;;
           app_ret (results ++ [record])%list)
          (fun _ => log ERROR "Failed to fetch data for domain '%s'" [domain] ;;;
                    app_ret results) ;;
      process_with call rest (idx + 1) total results
  end.

(** [main] from its line 122: [settings] is the mapping [load_settings]
    has returned, [cli_use_mock_data] is [args.use_mock_data] ([None], or
    [False] after [--no-mock]), and [input_file], [output_path] and
    [output_format] are what lines 118 to 120 make of the arguments and the
    settings.  The parser is built after the domains are loaded, in no
    [try]. *)
Definition main (settings : pyval) (cli_use_mock_data : option bool)
           (input_file output_path output_format : string) : App Z :=
  log INFO "Starting Similarweb scraper" [] ;;;
  log INFO "Input file: %s" [input_file] ;;;
  log INFO "Output file: %s (%s)" [output_path; output_format] ;;;
  fun h =>
    match load_domains_from_csv h input_file with
    | Raise _ => (log ERROR "Failed to load domains from CSV" [] ;;; app_ret 1) h
    | Ok [] => (log ERROR "No domains found in input file: %s" [input_file] ;;; app_ret 1) h
    | Ok domains =>
        (let total := Z.of_nat (List.length domains) in
         log INFO "Loaded %d unique domains" [decimal total] ;;;
         parser <- (fun _ s => (build_parser_from_settings settings cli_use_mock_data, s)) ;;
         results <- process_with (call_parser parser) domains 1 total [] ;;
         match results with
         | [] => log ERROR "No data could be retrieved for any domain." [] ;;; app_ret 1
         | _ =>
             exported <-
               try_except (export_data results output_format output_path ;;; app_ret true)
                          (fun _ => log ERROR "Failed to export data" [] ;;; app_ret false) ;;
             if exported : bool then
               log INFO "Completed successfully. Exported %d records."
                   [decimal (Z.of_nat (List.length results))] ;;;
               app_ret 0
             else app_ret 1
         end) h
    end.

End Program.

Close Scope app_scope.

(** ** Readings of the program *)

(** The position of the last occurrence of [k] in [l]. *)
Fixpoint last_index (k : string) (l : list string) : option nat :=
  match l with
  | [] => None
  | x :: l' =>
      match last_index k l' with
      | Some j => Some (S j)
      | None => if String.eqb x k then Some 0%nat else None
      end
  end.

(** The entries [DictReader] puts in the mapping of a row, in their
    order. *)
Fixpoint row_entries (fieldnames row : list string) : list (string * option string) :=
  match fieldnames, row with
  | [], _ => []
  | f :: fs, [] => (f, None) :: row_entries fs []
  | f :: fs, c :: cs => (f, Some c) :: row_entries fs cs
  end.

Definition ascending : list string -> Prop :=
  StronglySorted (fun a b => String.ltb a b = true).


(** The files a run writes: the path and the records of each write. *)
Definition written (tr : list app_event) : list (string * list NormalizedRecord) :=
  flat_map (fun e => match e with
                     | JsonDump path records | ToCsv path records | ToExcel path records =>
                         [(path, records)]
                     | _ => []
                     end) tr.



(** The effects of the parser in a run. *)
Definition parser_events (tr : list app_event) : list event :=
  flat_map (fun e => match e with Parser e' => [e'] | _ => [] end) tr.

Definition supported (output_format : string) : bool :=
  String.eqb (lower output_format) "json" || String.eqb (lower output_format) "csv"
  || String.eqb (lower output_format) "xlsx".


Definition has_slash (p : string) : bool :=
  negb (all_chars (fun c => negb (Ascii.eqb c "/")) p).

(** The write [export_data] ends with for a supported format. *)
Definition write_event (output_format path : string) (records : list NormalizedRecord)
  : app_event :=
  if String.eqb (lower output_format) "json" then JsonDump path records
  else if String.eqb (lower output_format) "csv" then ToCsv path records
  else ToExcel path records.

(** The directory [_ensure_parent_dir] has to make on a host. *)
Definition missing_parent (h : Host) (path : string) : list app_event :=
  if negb (is_empty (dirname path)) && negb (path_exists h (dirname path))
  then [Makedirs (dirname path)] else [].

Module SampleRun.

(** A file with a header that names the domain column twice, a row too
    short for the second one, a blank row, and two spellings of one site. *)
Definition named : list (list string) :=
  [["domain"; "rank"; "domain"];
   ["ignored.example"; "1"; " Example.com "];
   ["short.example"; "2"];
   [];
   ["x"; "3"; "example.com"];
   ["y"; "4"; "http://"]].

(** A file whose header does not name the column. *)
Definition unnamed : list (list string) :=
  [["website"; "rank"]; [" b.example"; "1"]; ["DOMAIN"; "2"]; []; ["a.example"; "3"]].

Definition host : Host :=
  {| parser_world := Sample.world (Sample.at_time 2025 6 15);
     path_exists := fun p => String.eqb p "in.csv" || String.eqb p "sites.csv";
     csv_rows := fun p => if String.eqb p "in.csv" then Ok named else Ok unnamed;
     disk_fault := fun _ => None;
     untyped_call := fun _ _ reads => (Raise TypeError, [], reads) |}.

Definition start : Run := {| events := []; clock_reads := 0 |}.

End SampleRun.
(** * Properties *)

(** ** Text lemmas *)

Ltac each_ascii c :=
  destruct c as [[] [] [] [] [] [] [] []]; try reflexivity; try discriminate.

Lemma lower_char_fixed (c : ascii) : lower_fixed (lower_char c) = true.
Proof. each_ascii c. Qed.

Lemma lower_char_not_space (c : ascii) : not_space c = true -> not_space (lower_char c) = true.
Proof. each_ascii c. Qed.

Lemma all_chars_lower_fixed (s : string) : all_chars lower_fixed (lower s) = true.
Proof.
  unfold lower. induction s as [|c s IH]; simpl; [reflexivity|].
  now rewrite lower_char_fixed, IH.
Qed.

Lemma lower_of_fixed (s : string) : all_chars lower_fixed s = true -> lower s = s.
Proof.
  unfold lower. induction s as [|c s IH]; simpl; [reflexivity|].
  intros H. apply andb_true_iff in H as [Hc Hs].
  rewrite (IH Hs). apply Ascii.eqb_eq in Hc. now rewrite Hc.
Qed.

Lemma lower_not_space (s : string) :
  all_chars not_space s = true -> all_chars not_space (lower s) = true.
Proof.
  unfold lower. induction s as [|c s IH]; simpl; [reflexivity|].
  intros H. apply andb_true_iff in H as [Hc Hs].
  now rewrite (lower_char_not_space _ Hc), (IH Hs).
Qed.

Section Preserved.

Variable p : ascii -> bool.

Lemma lstrip_all (s : string) : all_chars p s = true -> all_chars p (lstrip s) = true.
Proof.
  induction s as [|c s IH]; simpl; [reflexivity|].
  intros H. destruct (is_space c); [|exact H].
  apply andb_true_iff in H as [_ Hs]. exact (IH Hs).
Qed.

Lemma rstrip_by_all (q : ascii -> bool) (s : string) :
  all_chars p s = true -> all_chars p (rstrip_by q s) = true.
Proof.
  induction s as [|c s IH]; simpl; [reflexivity|].
  intros H. apply andb_true_iff in H as [Hc Hs]. specialize (IH Hs).
  destruct (rstrip_by q s) as [|c' r].
  - destruct (q c); simpl; [reflexivity|now rewrite Hc].
  - change (all_chars p (String c (String c' r)) = true).
    simpl in *. now rewrite Hc.
Qed.

Lemma strip_all (s : string) : all_chars p s = true -> all_chars p (strip s) = true.
Proof. intros H. apply rstrip_by_all, lstrip_all, H. Qed.

Lemma strip_prefix_all (q s rest : string) :
  all_chars p s = true -> strip_prefix q s = Some rest -> all_chars p rest = true.
Proof.
  revert s. induction q as [|a q IH]; simpl; intros s H E.
  - now inversion E; subst.
  - destruct s as [|b s]; [discriminate|].
    destruct (Ascii.eqb a b); [|discriminate].
    simpl in H. apply andb_true_iff in H as [_ Hs]. exact (IH _ Hs E).
Qed.

Lemma find_sep_all (sep s x y : string) :
  all_chars p s = true -> find_sep sep s = Some (x, y) ->
  all_chars p x = true /\ all_chars p y = true.
Proof.
  revert x y. induction s as [|c s IH]; intros x y H E.
  - simpl in E. destruct (strip_prefix sep ""%string) eqn:Ep; [|discriminate].
    inversion E; subst. split; [reflexivity|]. exact (strip_prefix_all _ _ _ H Ep).
  - simpl in E. destruct (strip_prefix sep (String c s)) eqn:Ep.
    + inversion E; subst. split; [reflexivity|]. exact (strip_prefix_all _ _ _ H Ep).
    + destruct (find_sep sep s) as [[a b]|] eqn:Ef; [|discriminate].
      inversion E; subst. simpl in H. apply andb_true_iff in H as [Hc Hs].
      destruct (IH _ _ Hs eq_refl) as [Ha Hb]. split; [|exact Hb].
      simpl. now rewrite Hc, Ha.
Qed.

Lemma split1_head_all (sep s : string) :
  all_chars p s = true -> all_chars p (split1_head sep s) = true.
Proof.
  intros H. unfold split1_head. destruct (find_sep sep s) as [[x y]|] eqn:E; [|exact H].
  exact (proj1 (find_sep_all _ _ _ _ H E)).
Qed.

End Preserved.

(** A separator that has a character the text lacks does not occur in it. *)
Lemma strip_prefix_absent (a : ascii) (q s : string) :
  absent a s = true -> absent a q = false -> strip_prefix q s = None.
Proof.
  revert s. induction q as [|b q IH]; simpl; intros s Hs Hq; [discriminate|].
  destruct s as [|c s]; [reflexivity|].
  destruct (Ascii.eqb b c) eqn:Ebc; [|reflexivity].
  apply Ascii.eqb_eq in Ebc. subst c.
  unfold absent in *. simpl in Hs, Hq. apply andb_true_iff in Hs as [Hb Hs].
  rewrite Hb in Hq. simpl in Hq. exact (IH _ Hs Hq).
Qed.

Lemma find_sep_absent (a : ascii) (sep s : string) :
  absent a s = true -> absent a sep = false -> find_sep sep s = None.
Proof.
  intros Hs Hq. induction s as [|c s IH]; simpl.
  - now rewrite (strip_prefix_absent a).
  - rewrite (strip_prefix_absent a _ _ Hs Hq).
    unfold absent in Hs. simpl in Hs. apply andb_true_iff in Hs as [_ Hs].
    now rewrite (IH Hs).
Qed.

(** What is cut at a one-character separator does not hold it. *)
Lemma split1_head_absent (a : ascii) (s : string) :
  absent a (split1_head (String a EmptyString) s) = true.
Proof.
  unfold split1_head. induction s as [|c s IH]; [reflexivity|].
  simpl. destruct (Ascii.eqb a c) eqn:E; [reflexivity|].
  destruct (find_sep (String a EmptyString) s) as [[x y]|].
  - unfold absent in *. simpl. now rewrite E, IH.
  - unfold absent in *. simpl. now rewrite E, IH.
Qed.

Lemma lstrip_not_space (s : string) : all_chars not_space s = true -> lstrip s = s.
Proof.
  destruct s as [|c s]; simpl; [reflexivity|].
  intros H. apply andb_true_iff in H as [Hc _].
  unfold not_space in Hc. now destruct (is_space c).
Qed.

Lemma rstrip_not_space (s : string) : all_chars not_space s = true -> rstrip s = s.
Proof.
  unfold rstrip. induction s as [|c s IH]; simpl; [reflexivity|].
  intros H. apply andb_true_iff in H as [Hc Hs]. rewrite (IH Hs).
  unfold not_space in Hc. destruct s; [now destruct (is_space c)|reflexivity].
Qed.

Lemma strip_not_space (s : string) : all_chars not_space s = true -> strip s = s.
Proof.
  intros H. unfold strip. rewrite (lstrip_not_space _ H). exact (rstrip_not_space _ H).
Qed.

Lemma lstrip_spaces (s : string) : all_chars is_space s = true -> lstrip s = EmptyString.
Proof.
  induction s as [|c s IH]; simpl; [reflexivity|].
  intros H. apply andb_true_iff in H as [Hc Hs]. now rewrite Hc, IH.
Qed.

(** ** normalize_domain *)

(** The result of [normalize_domain] is in lower case and holds neither a
    slash nor a question mark. *)
Lemma normalize_domain_shape (s : string) :
  all_chars lower_fixed (normalize_domain s) = true /\
  absent "/" (normalize_domain s) = true /\
  absent "?" (normalize_domain s) = true.
Proof.
  unfold normalize_domain. destruct (is_empty s); [repeat split|].
  set (d0 := lower (strip s)).
  set (d1 := match find_sep "://" d0 with Some (_, rest) => rest | None => d0 end).
  assert (H0 : all_chars lower_fixed d0 = true) by apply all_chars_lower_fixed.
  assert (H1 : all_chars lower_fixed d1 = true).
  { unfold d1. destruct (find_sep "://" d0) as [[x y]|] eqn:E; [|exact H0].
    exact (proj2 (find_sep_all _ _ _ _ _ H0 E)). }
  repeat split.
  - now apply split1_head_all, split1_head_all.
  - unfold absent. apply split1_head_all. apply split1_head_absent.
  - apply split1_head_absent.
Qed.

(** Normalizing a second time only strips surrounding whitespace. *)
Lemma normalize_domain_again (s : string) :
  normalize_domain (normalize_domain s) = strip (normalize_domain s).
Proof.
  destruct (normalize_domain_shape s) as (Hl & Hs & Hq).
  set (r := normalize_domain s) in *.
  unfold normalize_domain at 1. destruct (is_empty r) eqn:Er.
  - destruct r; [reflexivity|discriminate].
  - assert (Hl' : all_chars lower_fixed (strip r) = true) by now apply strip_all.
    assert (Hs' : absent "/" (strip r) = true) by now apply strip_all.
    assert (Hq' : absent "?" (strip r) = true) by now apply strip_all.
    rewrite (lower_of_fixed _ Hl').
    rewrite (find_sep_absent "/" "://" _ Hs' eq_refl).
    unfold split1_head.
    rewrite (find_sep_absent "/" "/" _ Hs' eq_refl).
    now rewrite (find_sep_absent "?" "?" _ Hq' eq_refl).
Qed.

Lemma normalize_domain_not_space (s : string) :
  all_chars not_space s = true -> all_chars not_space (normalize_domain s) = true.
Proof.
  intros H. unfold normalize_domain. destruct (is_empty s); [reflexivity|].
  assert (H0 : all_chars not_space (lower (strip s)) = true)
    by now apply lower_not_space, strip_all.
  apply split1_head_all, split1_head_all.
  destruct (find_sep "://" (lower (strip s))) as [[x y]|] eqn:E; [|exact H0].
  exact (proj2 (find_sep_all _ _ _ _ _ H0 E)).
Qed.

Lemma normalize_domain_spaces (s : string) :
  all_chars is_space s = true -> normalize_domain s = EmptyString.
Proof.
  intros H. unfold normalize_domain. destruct (is_empty s); [reflexivity|].
  unfold strip. now rewrite (lstrip_spaces _ H).
Qed.

(** C6, as the claim states it, fails: the path is cut after the
    surrounding whitespace is stripped, so a space before the slash
    survives the first pass and is stripped by the second. *)
Lemma normalize_domain_not_idempotent :
  normalize_domain "a /" = "a " /\
  normalize_domain (normalize_domain "a /") = "a" /\
  normalize_domain (normalize_domain "a /") <> normalize_domain "a /".
Proof. repeat split. vm_compute. discriminate. Qed.

(** C6, amended: a second pass of [normalize_domain] strips the surrounding
    whitespace of the first pass and changes nothing else, so the function
    is idempotent on every input whose normalized form has no leading or
    trailing whitespace, in particular on every input free of whitespace;
    the example of the spec normalizes to [host.example.com]; the empty
    string and whitespace-only inputs normalize to the empty string. *)
Theorem normalize_domain_idempotent_up_to_strip :
  (forall s, normalize_domain (normalize_domain s) = strip (normalize_domain s)) /\
  (forall s, strip (normalize_domain s) = normalize_domain s ->
             normalize_domain (normalize_domain s) = normalize_domain s) /\
  (forall s, all_chars not_space s = true ->
             normalize_domain (normalize_domain s) = normalize_domain s) /\
  normalize_domain "scheme://Host.Example.COM/path?q=1" = "host.example.com" /\
  normalize_domain "" = "" /\
  (forall s, all_chars is_space s = true -> normalize_domain s = "").
Proof.
  split; [exact normalize_domain_again|].
  split; [intros s H; now rewrite normalize_domain_again|].
  split.
  { intros s H. rewrite normalize_domain_again.
    apply strip_not_space, normalize_domain_not_space, H. }
  split; [reflexivity|].
  split; [reflexivity|].
  exact normalize_domain_spaces.
Qed.

Lemma normalize_domain_idempotent_witness :
  normalize_domain (normalize_domain "HTTPS://Example.com/page")
  = normalize_domain "HTTPS://Example.com/page"
  /\ normalize_domain "   " = "".
Proof.
  split.
  - apply (proj1 (proj2 (proj2 normalize_domain_idempotent_up_to_strip))). reflexivity.
  - apply (proj2 (proj2 (proj2 (proj2 (proj2 normalize_domain_idempotent_up_to_strip))))).
    reflexivity.
Defined.

(** ** The dotted-path getter *)

Lemma g_walk_none (parts : list string) (default : pyval) :
  g_walk PNone parts default = default.
Proof. destruct parts; reflexivity. Qed.

Lemma g_walk_at_path (cur : pyval) (parts : list string) (default : pyval) :
  g_walk cur parts default =
  match at_path cur parts with
  | Some PNone | None => default
  | Some v => v
  end.
Proof.
  revert cur. induction parts as [|part rest IH]; intros cur; simpl.
  - destruct cur; reflexivity.
  - destruct cur; try reflexivity.
    unfold dict_get. destruct (lookup d part) as [v|]; [apply IH|apply g_walk_none].
Qed.

(** C9: [g] returns the caller's default when a node on the path is
    missing or is not a mapping, and also when the value stored at the full
    path is [None]; it returns the stored value otherwise.  A null leaf and
    an absent one give the same result. *)
Theorem g_default_for_missing_and_null :
  (forall raw path default,
      g raw path default =
      match at_path raw (split_dots path) with
      | Some PNone | None => default
      | Some v => v
      end) /\
  (forall raw path default,
      at_path raw (split_dots path) = None -> g raw path default = default) /\
  (forall raw path default,
      at_path raw (split_dots path) = Some PNone -> g raw path default = default) /\
  (forall raw path default v,
      at_path raw (split_dots path) = Some v -> v <> PNone -> g raw path default = v).
Proof.
  assert (E := fun raw path => g_walk_at_path raw (split_dots path)).
  split; [exact E|]. unfold g.
  split; [intros raw path default H; now rewrite E, H|].
  split; [intros raw path default H; now rewrite E, H|].
  intros raw path default v H Hv. rewrite E, H. destruct v; congruence.
Qed.

Lemma g_default_witness :
  g (PDict [("ranking", PDict [("global", PDict [("rank", PNone)])])])
    "ranking.global.rank" (PInt 0) = PInt 0
  /\ g (PDict [("ranking", PDict [("global", PDict [])])]) "ranking.global.rank" (PInt 0)
     = PInt 0
  /\ g (PDict [("ranking", PStr "top")]) "ranking.global.rank" (PInt 0) = PInt 0
  /\ g (PDict [("ranking", PDict [("global", PDict [("rank", PInt 7)])])])
       "ranking.global.rank" (PInt 0) = PInt 7.
Proof.
  destruct g_default_for_missing_and_null as (_ & Hmissing & Hnull & Hsome).
  split; [apply Hnull; reflexivity|].
  split; [apply Hmissing; reflexivity|].
  split; [apply Hmissing; reflexivity|].
  apply Hsome; [reflexivity|discriminate].
Defined.

(** ** Remote normalization: which payloads it accepts *)



Lemma raises_rbind {A B} (r : result A) (k : A -> result B) :
  raises (rbind r k) = raises r || match r with Ok a => raises (k a) | Raise _ => false end.
Proof. destruct r; reflexivity. Qed.











Lemma bind_lift {A B} (r : result A) (k : A -> M B) (w : World) (st : State) :
  bind (lift r) k w st = match r with Ok a => k a w st | Raise e => (Raise e, st) end.
Proof. destruct r; reflexivity. Qed.



Lemma bind_utc_now_iso {B} (k : string -> M B) (w : World) (st : State) :
  bind utc_now_iso k w st
  = k (isoformat_seconds (clock w (ticks st))) w
      {| trace := trace st; ticks := S (ticks st) |}.
Proof. reflexivity. Qed.



(** What the record is made of when the normalization returns. *)
Lemma normalize_real_response_returns
      (self : SimilarwebParser) (domain : string) (d : list (string * pyval))
      (w : World) (st st' : State) (r : NormalizedRecord) :
  _normalize_real_response self domain (PDict d) w st = (Ok r, st') ->
  exists ov vs cs ss ks cr b p v t,
    dict_get d "overview" (PDict []) = PDict ov /\
    normalized_visits (PDict d) = Ok vs /\
    norm_countries (PDict d) = Ok cs /\
    norm_sources (PDict d) = Ok ss /\
    norm_keywords (PDict d) = Ok ks /\
    country_rank (PDict d) = Ok cr /\
    py_float (g (PDict d) "engagement.bounce_rate" (PFloat 0)) = Ok b /\
    py_float (g (PDict d) "engagement.pages_per_visit" (PFloat 0)) = Ok p /\
    py_int (g (PDict d) "engagement.visits" (PInt 0)) = Ok v /\
    py_float (g (PDict d) "engagement.time_on_site" (PFloat 0)) = Ok t /\
    st' = {| trace := trace st ++ [Log DEBUG "Normalized real response for %s: %s"];
             ticks := S (ticks st) |} /\
    r = {| domain := domain;
           snapshotDate := isoformat_seconds (clock w (ticks st));
           title := py_or (py_or (dict_get ov "title" PNone)
                                 (g (PDict d) "meta.title" PNone)) (PStr "");
           description := py_or (py_or (dict_get ov "description" PNone)
                                       (g (PDict d) "meta.description" PNone)) (PStr "");
           category := py_or (g (PDict d) "classification.category" PNone) (PStr "");
           screenshot := py_or (g (PDict d) "meta.screenshot_url" PNone) (PStr "");
           globalRank := g (PDict d) "ranking.global.rank" (PInt 0);
           countryRank := cr;
           categoryRank := py_str (g (PDict d) "ranking.category.rank" (PStr ""));
           estimatedMonthlyVisits := vs;
           bounceRate := format_fixed 4 b;
           pagesPerVisit := format_fixed 2 p;
           visits := decimal v;
           timeOnSite := format_fixed 2 t;
           topCountryShares := cs;
           trafficSources := ss;
           topKeywords := ks;
           isDataFromGA := truthy (g (PDict d) "meta.is_from_ga" (PBool false));
           competitors := g (PDict d) "competition.competitors" (PList []) |}.
Proof.
  unfold _normalize_real_response. rewrite bind_lift. cbn [py_get].
  rewrite bind_lift. destruct (normalized_visits (PDict d)) as [vs|]; [|discriminate].
  rewrite bind_lift. destruct (norm_countries (PDict d)) as [cs|]; [|discriminate].
  rewrite bind_lift. destruct (norm_sources (PDict d)) as [ss|]; [|discriminate].
  rewrite bind_lift. destruct (norm_keywords (PDict d)) as [ks|]; [|discriminate].
  rewrite bind_lift. destruct (country_rank (PDict d)) as [cr|]; [|discriminate].
  rewrite bind_utc_now_iso.
  destruct (dict_get d "overview" (PDict [])) as [| | | | | |ov];
    try (rewrite bind_lift; discriminate).
  cbn [py_get]. do 2 (rewrite bind_lift; cbv beta iota).
  rewrite bind_lift.
  destruct (py_float (g (PDict d) "engagement.bounce_rate" (PFloat 0))) as [b|]; [|discriminate].
  rewrite bind_lift.
  destruct (py_float (g (PDict d) "engagement.pages_per_visit" (PFloat 0))) as [p|];
    [|discriminate].
  rewrite bind_lift.
  destruct (py_int (g (PDict d) "engagement.visits" (PInt 0))) as [v|]; [|discriminate].
  rewrite bind_lift.
  destruct (py_float (g (PDict d) "engagement.time_on_site" (PFloat 0))) as [t|];
    [|discriminate].
  intros H. inversion H; subst. clear H.
  exists ov, vs, cs, ss, ks, cr, b, p, v, t. repeat split.
Qed.




(** ** Keywords of the record *)

Lemma first_truthy_or (d : list (string * pyval)) (key : string) (otherwise : pyval) :
  py_or (dict_get d key PNone) otherwise = first_truthy d key otherwise.
Proof.
  unfold py_or, dict_get, first_truthy. now destruct (lookup d key).
Qed.

(** One turn of the keyword loop, by what it reads. *)
Lemma keyword_of_reading (d : list (string * pyval)) :
  keyword_of (PDict d)
  = if keepable (PDict d)
    then rbind (py_int (keyword_value d)) (fun n =>
         rbind (py_float (keyword_cpc d)) (fun f =>
         Ok (Some {| kw_name := keyword_name d; kw_value := n; kw_cpc := f |})))
    else Ok None.
Proof.
  unfold keyword_of, keepable, keyword_name, keyword_value, keyword_cpc.
  cbn [py_get rbind]. rewrite <- !first_truthy_or. reflexivity.
Qed.

Lemma keywords_of_renders (kws : list pyval) :
  forall acc out,
    keywords_of kws acc = Ok out ->
    Forall (fun kw => is_dict kw = true) kws /\
    exists ks, out = (acc ++ ks)%list /\ Forall2 renders (filter keepable kws) ks.
Proof.
  induction kws as [|kw rest IH]; intros acc out H; cbn [keywords_of] in H.
  - injection H as <-. split; [constructor|]. exists []. rewrite app_nil_r.
    split; [reflexivity|constructor].
  - destruct kw as [| | | | | |d]; try discriminate.
    rewrite keyword_of_reading in H. cbn [filter].
    destruct (keepable (PDict d)) eqn:Hk.
    + destruct (py_int (keyword_value d)) as [n|e] eqn:Hn; [|discriminate].
      destruct (py_float (keyword_cpc d)) as [f|e] eqn:Hf; [|discriminate].
      cbn [rbind] in H. destruct (IH _ _ H) as (Hd & ks & -> & Hks).
      split; [constructor; [reflexivity|exact Hd]|].
      eexists. rewrite <- app_assoc. split; [reflexivity|]. cbn [app].
      constructor; [|exact Hks]. exists d. repeat split; assumption.
    + cbn [rbind] in H. destruct (IH _ _ H) as (Hd & ks & -> & Hks).
      split; [constructor; [reflexivity|exact Hd]|]. exists ks. split; [reflexivity|exact Hks].
Qed.

(** A value the normalization iterates over with [get]-reading turns is,
    once [or] has replaced a falsy one, a list. *)
Lemma iterated_is_a_list (v : pyval) (cs : list pyval) :
  py_iter v = Ok cs ->
  Forall (fun c => is_dict c = true) cs ->
  truthy v = true ->
  v = PList cs.
Proof.
  destruct v as [| | | |s|l|d]; cbn [py_iter]; try discriminate.
  - intros H F T. injection H as <-. destruct s as [|c s]; [discriminate|].
    cbn [chars_of] in F. inversion F; discriminate.
  - intros H _ _. now injection H as <-.
  - intros H F T. injection H as <-. destruct d as [|[k x] d]; [discriminate|].
    cbn [map fst] in F. inversion F; discriminate.
Qed.

Lemma or_list_is_a_list (v : pyval) (cs : list pyval) :
  py_iter (py_or v (PList [])) = Ok cs ->
  Forall (fun c => is_dict c = true) cs ->
  py_or v (PList []) = PList cs.
Proof.
  unfold py_or. destruct (truthy v) eqn:T.
  - intros H F. exact (iterated_is_a_list v cs H F T).
  - cbn [py_iter]. intros H _. now injection H as <-.
Qed.

(** C5, as the claim states it, fails: an entry with a name and no
    numeric value is dropped, and so is one with a numeric value and no
    name; the record of a payload with these two has no keyword. *)
Lemma keyword_lacking_either_is_dropped :
  match fst (_normalize_real_response (Sample.parser false) "example.com"
               (PDict [("traffic",
                        PDict [("top_keywords",
                                PList [PDict [("keyword", PStr "no number")];
                                       PDict [("visits", PInt 10)]])])])
               (Sample.world (Sample.at_time 2025 6 15)) Sample.start) with
  | Ok r => topKeywords r = []
  | Raise _ => False
  end.
Proof. vm_compute. reflexivity. Qed.

(** C5, amended: when [_normalize_real_response] returns a record, what
    it read under [traffic.top_keywords] is falsy or a list of mappings,
    and [topKeywords] holds, in the order of the payload, one entry for
    each mapping that has a truthy name and a value that is a number, and
    no other: an entry lacking either is dropped.  The name is the value
    under [keyword] or, when that is absent or falsy, the one under [name];
    the value is [int] of the one under [visits] or, when that is absent or
    falsy, under [value]; the cpc is [float] of the one under [cpc] or,
    when that is absent or falsy, of 0.0.  Both conversions succeed for
    every entry kept, or no record is returned. *)
Theorem keyword_kept_iff_named_and_numeric :
  forall (self : SimilarwebParser) (name : string) (d : list (string * pyval))
         (w : World) (st st' : State) (r : NormalizedRecord),
    _normalize_real_response self name (PDict d) w st = (Ok r, st') ->
    exists kws,
      py_or (g (PDict d) "traffic.top_keywords" (PList [])) (PList []) = PList kws /\
      Forall (fun kw => is_dict kw = true) kws /\
      Forall2 renders (filter keepable kws) (topKeywords r) /\
      List.length (topKeywords r) = List.length (filter keepable kws).
Proof.
  intros self name d w st st' r Hrun.
  destruct (normalize_real_response_returns _ _ _ _ _ _ _ Hrun)
    as (ov & vs & cs & ss & ks & cr & b & p & v & t &
        _ & _ & _ & _ & Hks & _ & _ & _ & _ & _ & _ & ->).
  cbn [topKeywords]. unfold norm_keywords in Hks.
  destruct (py_iter (py_or (g (PDict d) "traffic.top_keywords" (PList [])) (PList [])))
    as [kws|e] eqn:Hit; [|discriminate].
  cbn [rbind] in Hks. destruct (keywords_of_renders kws [] ks Hks) as (Hd & ks' & -> & Hr).
  exists kws. split; [exact (or_list_is_a_list _ _ Hit Hd)|]. split; [exact Hd|].
  cbn [app]. split; [exact Hr|]. symmetry. exact (Forall2_length Hr).
Qed.

Lemma keyword_kept_witness :
  exists r st' kws,
    _normalize_real_response (Sample.parser false) "example.com" Sample.payload
      (Sample.world (Sample.at_time 2025 6 15)) Sample.start = (Ok r, st') /\
    py_or (g Sample.payload "traffic.top_keywords" (PList [])) (PList []) = PList kws /\
    Forall2 renders (filter keepable kws) (topKeywords r) /\
    List.length (topKeywords r) = 2%nat.
Proof.
  destruct (_normalize_real_response (Sample.parser false) "example.com" Sample.payload
              (Sample.world (Sample.at_time 2025 6 15)) Sample.start)
    as [[r|e] st'] eqn:E.
  - destruct (keyword_kept_iff_named_and_numeric
                (Sample.parser false) "example.com"
                match Sample.payload with PDict d => d | _ => [] end
                (Sample.world (Sample.at_time 2025 6 15)) Sample.start st' r E)
      as (kws & Hk & _ & Hr & Hl).
    exists r, st', kws. split; [reflexivity|]. split; [exact Hk|]. split; [exact Hr|].
    rewrite Hl. vm_compute in Hk. injection Hk as <-. reflexivity.
  - exfalso. vm_compute in E. discriminate E.
Defined.

(** ** The retry loop *)

Section Retry.

Variable self : SimilarwebParser.
Variable w : World.
Variables url key : string.

(** The backoff factor is a duration. *)
Hypothesis backoff_nonneg : Qle_bool 0 (backoff_factor self) = true.

Lemma backoff_delay_nonneg (attempt : Z) : Qle_bool 0 (backoff_delay self attempt) = true.
Proof.
  apply Qle_bool_iff. unfold backoff_delay. apply Qmult_le_0_compat.
  - now apply Qle_bool_iff.
  - change 0%Q with (inject_Z 0). rewrite <- Zle_Qle. apply Z.pow_nonneg. lia.
Qed.

Lemma attempts_step (t : nat) (a : Z) (le : option exn) (st : State) :
  attempts self url key (S t) a le w st =
  let st1 := {| trace := trace st ++ [HttpGet url key (timeout self) a];
                ticks := ticks st |} in
  match succeeded (transport w a) with
  | Some body => (Ok body, st1)
  | None =>
      let st2 := {| trace := trace st1 ++ [Log WARNING (failure_log (transport w a))];
                    ticks := ticks st |} in
      let st3 := if a <? max_retries self
                 then {| trace := trace st2 ++ [Sleep (backoff_delay self a)];
                         ticks := ticks st |}
                 else st2 in
      attempts self url key t (a + 1)
               (match raised (transport w a) with Some e => Some e | None => le end) w st3
  end.
Proof.
  cbn [attempts]. unfold bind at 1, http_get, succeeded, failure_log, raised, is_success.
  destruct (transport w a) as [code [body|e]|e];
    try destruct ((200 <=? code) && (code <? 300));
    unfold bind, emit, _sleep_with_backoff, ret;
    rewrite ?backoff_delay_nonneg;
    destruct (a <? max_retries self); reflexivity.
Qed.

Lemma network_app (a b : list event) : network (a ++ b) = (network a ++ network b)%list.
Proof. apply filter_app. Qed.

Lemma attempts_spec (todo : nat) :
  forall (k : nat) (st : State),
    (k + todo = Z.to_nat (max_retries self))%nat ->
    exists m new r st',
      attempts self url key todo (Z.of_nat k + 1) (last_error w k) w st = (r, st') /\
      (k <= m <= Z.to_nat (max_retries self))%nat /\
      (todo <> O -> (k < m)%nat) /\
      trace st' = (trace st ++ new)%list /\ ticks st' = ticks st /\
      network new = schedule self url key (Z.of_nat k + 1) (m - k) /\
      ((exists body, r = Ok body /\ (k < m)%nat /\
                     succeeded (transport w (Z.of_nat m)) = Some body /\
                     forall i, (k < i < m)%nat -> succeeded (transport w (Z.of_nat i)) = None)
       \/ (m = Z.to_nat (max_retries self) /\
           (forall i, (k < i <= m)%nat -> succeeded (transport w (Z.of_nat i)) = None) /\
           r = Raise (match last_error w m with
                      | Some e => e
                      | None => RuntimeError "Failed to retrieve data"
                      end))).
Proof.
  induction todo as [|t IH]; intros k st Hn.
  - exists k, [], (Raise (match last_error w k with
                          | Some e => e
                          | None => RuntimeError "Failed to retrieve data"
                          end)), st.
    rewrite Nat.add_0_r in Hn. subst k.
    split; [cbn [attempts]; destruct (last_error w _); reflexivity|].
    split; [lia|]. split; [congruence|].
    split; [now rewrite app_nil_r|]. split; [reflexivity|].
    split; [now rewrite Nat.sub_diag|].
    right. split; [reflexivity|]. split; [intros i Hi; lia|reflexivity].
  - rewrite attempts_step. cbv zeta.
    assert (Ha : Z.of_nat (S k) = Z.of_nat k + 1) by lia.
    destruct (succeeded (transport w (Z.of_nat k + 1))) as [body|] eqn:Es.
    + exists (S k), [HttpGet url key (timeout self) (Z.of_nat k + 1)], (Ok body),
        {| trace := trace st ++ [HttpGet url key (timeout self) (Z.of_nat k + 1)];
           ticks := ticks st |}.
      split; [reflexivity|]. split; [lia|]. split; [lia|].
      split; [reflexivity|]. split; [reflexivity|].
      split; [replace (S k - k)%nat with 1%nat by lia; reflexivity|].
      left. exists body. split; [reflexivity|]. split; [lia|].
      split; [now rewrite Ha|intros i Hi; lia].
    + match goal with
      | |- context [attempts self url key t _ _ w ?s] => set (st3 := s)
      end.
      assert (Hk : (S k + t = Z.to_nat (max_retries self))%nat) by lia.
      destruct (IH (S k) st3 Hk)
        as (m & new & r & st' & Hrun & Hm & Hpos & Htr & Htk & Hnet & Hres).
      cbn [last_error] in Hrun. rewrite Ha in Hrun, Hnet.
      exists m.
      exists ([HttpGet url key (timeout self) (Z.of_nat k + 1);
               Log WARNING (failure_log (transport w (Z.of_nat k + 1)))]
              ++ (if Z.of_nat k + 1 <? max_retries self
                  then [Sleep (backoff_delay self (Z.of_nat k + 1))] else [])
              ++ new)%list.
      exists r, st'.
      split; [exact Hrun|].
      split; [lia|]. split; [lia|].
      split.
      { rewrite Htr. unfold st3.
        destruct (Z.of_nat k + 1 <? max_retries self); cbn [trace];
          rewrite <- ?app_assoc; reflexivity. }
      split.
      { rewrite Htk. unfold st3.
        destruct (Z.of_nat k + 1 <? max_retries self); reflexivity. }
      split.
      { replace (m - k)%nat with (S (m - S k)) by lia.
        cbn [schedule]. rewrite !network_app, Hnet.
        destruct t as [|t'].
        - assert (m = S k) by lia. subst m. rewrite Nat.sub_diag.
          assert (E : (Z.of_nat k + 1 <? max_retries self) = false)
            by (apply Z.ltb_ge; lia).
          rewrite E. reflexivity.
        - assert (E : (Z.of_nat k + 1 <? max_retries self) = true)
            by (apply Z.ltb_lt; lia).
          rewrite E.
          assert (S k < m)%nat by (apply Hpos; discriminate).
          destruct (m - S k)%nat as [|c] eqn:Ec; [lia|]. reflexivity. }
      destruct Hres as [(body & Hr & Hlt & Hs & Hfail)|(Hmn & Hfail & Hr)].
      * left. exists body. split; [exact Hr|]. split; [lia|]. split; [exact Hs|].
        intros i Hi. destruct (Nat.eq_dec i (S k)) as [->|Hne].
        -- now rewrite Ha.
        -- apply Hfail. lia.
      * right. split; [exact Hmn|]. split; [|exact Hr].
        intros i Hi. destruct (Nat.eq_dec i (S k)) as [->|Hne].
        -- now rewrite Ha.
        -- apply Hfail. lia.
Qed.

End Retry.

Lemma sleeps_network (tr : list event) : sleeps (network tr) = sleeps tr.
Proof.
  unfold sleeps, network. induction tr as [|e tr IH]; [reflexivity|].
  destruct e; simpl; now rewrite ?IH.
Qed.

Lemma requests_network (tr : list event) : requests (network tr) = requests tr.
Proof.
  unfold requests, network. induction tr as [|e tr IH]; [reflexivity|].
  destruct e; simpl; now rewrite ?IH.
Qed.

Lemma sleeps_schedule (self : SimilarwebParser) (url key : string) (count : nat) :
  forall first,
    sleeps (schedule self url key first count)
    = map (fun i => backoff_delay self (first + Z.of_nat i)) (seq 0 (count - 1)).
Proof.
  induction count as [|c IH]; intros first; [reflexivity|].
  cbn [schedule]. destruct c as [|c']; [reflexivity|].
  change (sleeps (HttpGet url key (timeout self) first
                    :: Sleep (backoff_delay self first)
                    :: schedule self url key (first + 1) (S c')))
    with (backoff_delay self first :: sleeps (schedule self url key (first + 1) (S c'))).
  rewrite IH. replace (S (S c') - 1)%nat with (S c') by lia.
  replace (S c' - 1)%nat with c' by lia.
  cbn [seq map]. rewrite Z.add_0_r. f_equal.
  rewrite <- seq_shift, map_map. apply map_ext. intros i. f_equal. lia.
Qed.

Lemma requests_schedule (self : SimilarwebParser) (url key : string) (count : nat) :
  forall first, List.length (requests (schedule self url key first count)) = count.
Proof.
  induction count as [|c IH]; intros first; [reflexivity|].
  cbn [schedule]. destruct c as [|c']; [reflexivity|].
  change (List.length (requests (HttpGet url key (timeout self) first
                                   :: Sleep (backoff_delay self first)
                                   :: schedule self url key (first + 1) (S c'))))
    with (S (List.length (requests (schedule self url key (first + 1) (S c'))))).
  now rewrite IH.
Qed.



(** ** The seed *)

Lemma all_chars_app (p : ascii -> bool) (a b : string) :
  all_chars p (a ++ b) = all_chars p a && all_chars p b.
Proof.
  induction a as [|c a IH]; simpl; [reflexivity|]. now rewrite IH, andb_assoc.
Qed.

Lemma all_chars_substring (p : ascii -> bool) (s : string) :
  forall n m, all_chars p s = true -> all_chars p (substring n m s) = true.
Proof.
  induction s as [|c s IH]; intros n m H.
  - destruct n, m; reflexivity.
  - simpl in H. apply andb_true_iff in H as [Hc Hs].
    destruct n as [|n]; simpl.
    + destruct m as [|m]; [reflexivity|]. simpl. now rewrite Hc, IH.
    + now apply IH.
Qed.

Lemma is_hex_hex_char (n : Z) : is_hex (Sha256.hex_char (n mod 16)) = true.
Proof.
  assert (H : 0 <= n mod 16 < 16) by (apply Z.mod_pos_bound; lia).
  remember (n mod 16) as r eqn:E. clear E.
  assert (C : r = 0 \/ r = 1 \/ r = 2 \/ r = 3 \/ r = 4 \/ r = 5 \/ r = 6 \/ r = 7 \/
              r = 8 \/ r = 9 \/ r = 10 \/ r = 11 \/ r = 12 \/ r = 13 \/ r = 14 \/ r = 15)
    by lia.
  repeat (destruct C as [->|C]; [reflexivity|]). now subst r.
Qed.

Lemma is_hex_hex8 (x : Z) : all_chars is_hex (Sha256.hex8 x) = true.
Proof.
  unfold Sha256.hex8. cbn [fold_right all_chars]. now rewrite !is_hex_hex_char.
Qed.

Lemma is_hex_hexdigest (msg : list Z) : all_chars is_hex (Sha256.hexdigest msg) = true.
Proof.
  unfold Sha256.hexdigest. induction (Sha256.digest msg) as [|x l IH]; [reflexivity|].
  cbn [fold_right]. now rewrite all_chars_app, is_hex_hex8, IH.
Qed.

Lemma round_length (st : list Z) (kw : Z * Z) :
  List.length st = 8%nat -> List.length (Sha256.round st kw) = 8%nat.
Proof.
  intros H. do 9 (destruct st as [|? st]; try discriminate). reflexivity.
Qed.

Lemma rounds_length (kws : list (Z * Z)) :
  forall st, List.length st = 8%nat ->
             List.length (fold_left Sha256.round kws st) = 8%nat.
Proof.
  induction kws as [|kw kws IH]; intros st H; [exact H|].
  cbn [fold_left]. apply IH, round_length, H.
Qed.

Lemma compress_length (h block : list Z) :
  List.length h = 8%nat -> List.length (Sha256.compress h block) = 8%nat.
Proof.
  intros H. unfold Sha256.compress.
  rewrite length_map, length_combine, rounds_length, H by exact H. reflexivity.
Qed.

Lemma blocks_length (n : nat) :
  forall h bs, List.length h = 8%nat -> List.length (Sha256.blocks n h bs) = 8%nat.
Proof.
  induction n as [|n IH]; intros h bs H; [exact H|].
  cbn [Sha256.blocks]. destruct (Sha256.take_words 16 bs) as [block rest].
  apply IH, compress_length, H.
Qed.

Lemma int16_from_hex (s : string) :
  forall acc, all_chars is_hex s = true -> exists z, int16_from acc s = Some z.
Proof.
  induction s as [|c s IH]; intros acc H; simpl; [now exists acc|].
  simpl in H. apply andb_true_iff in H as [Hc Hs].
  unfold is_hex in Hc. destruct (hex_val c) as [v|]; [|discriminate].
  apply IH, Hs.
Qed.

(** The hash of a text is always a number: the digest has eight words,
    its hexadecimal form is made of hexadecimal digits. *)
Lemma _hash_to_int_total (text : string) : exists seed, _hash_to_int text = Ok seed.
Proof.
  unfold _hash_to_int.
  pose proof (is_hex_hexdigest (Sha256.encode text)) as Hhex.
  assert (Hlen : List.length (Sha256.digest (Sha256.encode text)) = 8%nat)
    by (apply blocks_length; reflexivity).
  unfold Sha256.hexdigest in *.
  destruct (Sha256.digest (Sha256.encode text)) as [|x l]; [discriminate|].
  cbn [fold_right] in *. clear Hlen.
  set (h := (Sha256.hex8 x ++ _)%string) in *.
  assert (Hsub : all_chars is_hex (substring 0 12 h) = true)
    by now apply all_chars_substring.
  assert (Hne : exists c r, substring 0 12 h = String c r).
  { unfold h, Sha256.hex8. cbn [fold_right append substring]. eauto. }
  destruct Hne as (c & r & E). rewrite E in *.
  unfold int_base16. destruct (int16_from_hex _ 0 Hsub) as [z Hz].
  rewrite Hz. now exists z.
Qed.

(** ** The visit history *)

Lemma days_before_year_bounds (y : Z) :
  2 <= y <= 9999 -> 365 <= days_before_year y <= 3651694.
Proof.
  intros H. unfold days_before_year.
  pose proof (Z.div_mod (y - 1) 4 ltac:(lia)).
  pose proof (Z.mod_pos_bound (y - 1) 4 ltac:(lia)).
  pose proof (Z.div_mod (y - 1) 100 ltac:(lia)).
  pose proof (Z.mod_pos_bound (y - 1) 100 ltac:(lia)).
  pose proof (Z.div_mod (y - 1) 400 ltac:(lia)).
  pose proof (Z.mod_pos_bound (y - 1) 400 ltac:(lia)).
  lia.
Qed.

Lemma days_before_month_bounds (y m : Z) :
  1 <= m <= 12 -> 0 <= days_before_month y m <= 335.
Proof.
  intros H. unfold days_before_month.
  assert (C : m = 1 \/ m = 2 \/ m = 3 \/ m = 4 \/ m = 5 \/ m = 6 \/ m = 7 \/ m = 8 \/
              m = 9 \/ m = 10 \/ m = 11 \/ m = 12) by lia.
  destruct (is_leap y);
    destruct C as [->|[->|[->|[->|[->|[->|[->|[->|[->|[->|[->| ->]]]]]]]]]]];
    unfold days_before_month_table; simpl; lia.
Qed.

(** Going back at most sixty days from the first of a month after year 1
    stays within the calendar. *)
Lemma minus_days_first_of_month (t : datetime) (i : Z) :
  valid t -> 2 <= year t -> 0 <= i <= 2 ->
  exists d, minus_days (replace_day t 1) (30 * i) = Ok d.
Proof.
  intros (Hy & Hm & _) Hy2 Hi. unfold minus_days, replace_day, ymd2ord. cbn [year month day].
  pose proof (days_before_year_bounds (year t) ltac:(lia)).
  pose proof (days_before_month_bounds (year t) (month t) Hm).
  set (o := days_before_year (year t) + days_before_month (year t) (month t) + 1 - 30 * i).
  assert (E : (o <? 1) || (max_ordinal <? o) = false).
  { unfold max_ordinal. apply orb_false_iff. split; [apply Z.ltb_ge|apply Z.ltb_ge]; lia. }
  rewrite E. destruct (ord2ymd o) as [[y m] d]. eauto.
Qed.

Lemma month_keys_total (t : datetime) :
  valid t -> 2 <= year t -> exists months, month_keys t [2; 1; 0] = Ok months.
Proof.
  intros Hv Hy. cbn [month_keys].
  destruct (minus_days_first_of_month t 2 Hv Hy ltac:(lia)) as [d2 E2].
  destruct (minus_days_first_of_month t 1 Hv Hy ltac:(lia)) as [d1 E1].
  destruct (minus_days_first_of_month t 0 Hv Hy ltac:(lia)) as [d0 E0].
  rewrite E2, E1, E0. eauto.
Qed.

(** The month keys depend on the clock through its year and month only. *)
Lemma month_keys_same_month (a b : datetime) (offsets : list Z) :
  same_month a b -> month_keys a offsets = month_keys b offsets.
Proof.
  intros [Hy Hm]. induction offsets as [|i rest IH]; [reflexivity|].
  cbn [month_keys]. rewrite IH.
  unfold minus_days, replace_day. cbn [year month day]. rewrite Hy, Hm.
  destruct ((_ <? 1) || (max_ordinal <? _)); [reflexivity|].
  destruct (ord2ymd _) as [[y m] d]. reflexivity.
Qed.

(** Every count stored is at least 1000. *)
Lemma fill_visits_floor (decay : Z -> Z) (keys : list string) :
  forall current visits,
    Forall (fun kv => 1000 <= snd kv) visits ->
    Forall (fun kv => 1000 <= snd kv) (fill_visits decay keys current visits).
Proof.
  induction keys as [|key rest IH]; intros current visits H; [exact H|].
  cbn [fill_visits]. apply IH. clear IH.
  induction visits as [|[k v] visits IHv]; cbn [dict_set].
  - constructor; [cbn; lia|constructor].
  - inversion H; subst. destruct (String.eqb k key).
    + constructor; [cbn; lia|assumption].
    + constructor; [assumption|now apply IHv].
Qed.

(** ** The mock path *)

Section MockPath.

Variable decay : Z -> Z.
Variable derive : string -> Z -> Raw.seeded.

Lemma generate_mock_profile_run (clean : string) (seed : Z) (months : list string)
      (w : World) (st : State) :
  _hash_to_int clean = Ok seed ->
  month_keys (clock w (ticks st)) [2; 1; 0] = Ok months ->
  generate_mock_profile decay derive clean w st
  = (Ok (mock_profile decay derive clean seed months), {| trace := trace st; ticks := S (ticks st) |}).
Proof.
  intros Hs Hm. unfold generate_mock_profile, _build_estimated_visits.
  rewrite bind_lift, Hs. unfold bind at 1. unfold bind at 1. unfold now at 1.
  rewrite bind_lift, Hm. reflexivity.
Qed.

Lemma mock_mode_run (self : SimilarwebParser) (domain : string) (w : World) (st : State)
      (seed : Z) (months : list string) :
  use_mock_data self = true ->
  normalize_domain domain <> EmptyString ->
  _hash_to_int (normalize_domain domain) = Ok seed ->
  month_keys (clock w (ticks st)) [2; 1; 0] = Ok months ->
  get_domain_data decay derive self domain w st
  = (fst (_normalize_mock_response (mock_profile decay derive (normalize_domain domain) seed months) w
            {| trace := trace st; ticks := S (ticks st) |}),
     {| trace := trace st ++ [Log DEBUG "Using mock traffic profile for %s"];
        ticks := S (S (ticks st)) |}).
Proof.
  intros Hmock Hne Hs Hm. unfold get_domain_data.
  destruct (normalize_domain domain) as [|c clean] eqn:E; [congruence|].
  cbn [is_empty]. unfold wants_mock. rewrite Hmock.
  unfold bind at 1. cbn [ret]. unfold bind at 1. cbn [emit].
  unfold bind at 1.
  rewrite (generate_mock_profile_run _ seed months); [reflexivity|exact Hs|exact Hm].
Qed.

End MockPath.

(** C1: in mock mode, for every input whose canonical domain is not
    empty, [get_domain_data] returns a record and leaves in the trace one
    debug line and nothing else: no request, no sleep, no exception.  Two
    calls on the same input, under clocks that read the same calendar month,
    return records with the same visit history and the same fields but for
    the snapshot date. *)
Theorem mock_path_deterministic_within_a_month :
  forall (decay : Z -> Z) (derive : string -> Z -> Raw.seeded)
         (self : SimilarwebParser) (domain : string)
         (wa wb : World) (sta stb : State),
    use_mock_data self = true ->
    normalize_domain domain <> "" ->
    wall_clock wa -> wall_clock wb ->
    (forall i j, same_month (clock wa i) (clock wb j)) ->
    exists ra rb,
      get_domain_data decay derive self domain wa sta
      = (Ok ra, {| trace := trace sta ++ [Log DEBUG "Using mock traffic profile for %s"];
                   ticks := S (S (ticks sta)) |}) /\
      get_domain_data decay derive self domain wb stb
      = (Ok rb, {| trace := trace stb ++ [Log DEBUG "Using mock traffic profile for %s"];
                   ticks := S (S (ticks stb)) |}) /\
      estimatedMonthlyVisits ra = estimatedMonthlyVisits rb /\
      rb = with_snapshot (snapshotDate rb) ra.
Proof.
  intros decay derive self domain wa wb sta stb Hmock Hne Ha Hb Hsame.
  destruct (_hash_to_int_total (normalize_domain domain)) as [seed Hseed].
  destruct (Ha (ticks sta)) as [Hva Hya]. destruct (Hb (ticks stb)) as [Hvb Hyb].
  destruct (month_keys_total _ Hva Hya) as [months Hma].
  assert (Hmb : month_keys (clock wb (ticks stb)) [2; 1; 0] = Ok months)
    by now rewrite <- (month_keys_same_month _ _ _ (Hsame (ticks sta) (ticks stb))).
  rewrite (mock_mode_run decay derive self domain wa sta seed months Hmock Hne Hseed Hma).
  rewrite (mock_mode_run decay derive self domain wb stb seed months Hmock Hne Hseed Hmb).
  unfold _normalize_mock_response, bind, utc_now_iso, now, ret. cbn [fst ticks].
  eexists. eexists. repeat split.
Qed.

Lemma mock_path_witness :
  exists ra rb,
    get_domain_data Sample.decay Sample.derive (Sample.parser true) "HTTPS://Example.com/page"
                    (Sample.world (Sample.at_time 2025 6 2)) Sample.start
    = (Ok ra, {| trace := trace Sample.start
                          ++ [Log DEBUG "Using mock traffic profile for %s"];
                 ticks := S (S (ticks Sample.start)) |}) /\
    get_domain_data Sample.decay Sample.derive (Sample.parser true) "HTTPS://Example.com/page"
                    (Sample.world (Sample.at_time 2025 6 28)) Sample.start
    = (Ok rb, {| trace := trace Sample.start
                          ++ [Log DEBUG "Using mock traffic profile for %s"];
                 ticks := S (S (ticks Sample.start)) |}) /\
    estimatedMonthlyVisits ra = estimatedMonthlyVisits rb /\
    rb = with_snapshot (snapshotDate rb) ra.
Proof.
  apply (mock_path_deterministic_within_a_month
           Sample.decay Sample.derive (Sample.parser true) "HTTPS://Example.com/page"
           (Sample.world (Sample.at_time 2025 6 2))
           (Sample.world (Sample.at_time 2025 6 28)) Sample.start Sample.start).
  - reflexivity.
  - vm_compute. discriminate.
  - intros n. repeat split; vm_compute; intro H; discriminate H.
  - intros n. repeat split; vm_compute; intro H; discriminate H.
  - intros i j. split; reflexivity.
Defined.

(** From 1970 to 2100 the keys are those of the three most recent months
    in every month but March, and April of a common year: thirty days
    before the first of March is in January, sixty days before the first of
    April of a common year is in January too. *)
Lemma keys_are_recent_but_after_february :
  forall y m : Z,
    1970 <= y <= 2100 -> 1 <= m <= 12 ->
    keys_are_recent y m = negb ((m =? 3) || ((m =? 4) && negb (is_leap y))).
Proof.
  assert (H : forallb (fun y => forallb (fun m =>
                Bool.eqb (keys_are_recent (Z.of_nat y) (Z.of_nat m))
                         (negb ((Z.of_nat m =? 3)
                                || ((Z.of_nat m =? 4) && negb (is_leap (Z.of_nat y))))))
                (seq 1 12)) (seq 1970 131) = true) by (vm_compute; reflexivity).
  intros y m Hy Hm. rewrite forallb_forall in H.
  specialize (H (Z.to_nat y) ltac:(apply in_seq; lia)).
  rewrite forallb_forall in H.
  specialize (H (Z.to_nat m) ltac:(apply in_seq; lia)).
  rewrite !Z2Nat.id in H by lia. now apply Bool.eqb_prop in H.
Qed.

(** C2, at the input where the code departs from it: in March of a leap
    year the two earlier keys both fall in January and the history has two
    months; in March and April of a common year it has three months, but
    not the three most recent ones.  In other months, June here, the keys
    are those of the current month and of the two before it. *)
Theorem visit_history_skips_months_around_february :
  forall (decay : Z -> Z) (base : Z) (st : State),
    let history t := fst (_build_estimated_visits decay base (Sample.world t) st) in
    history (Sample.at_time 2024 3 15)
    = Ok [("2024-01-01", Z.max 1000 (decay (decay base)));
          ("2024-03-01", Z.max 1000 base)] /\
    history (Sample.at_time 2028 3 1)
    = Ok [("2028-01-01", Z.max 1000 (decay (decay base)));
          ("2028-03-01", Z.max 1000 base)] /\
    history (Sample.at_time 2025 3 15)
    = Ok [("2024-12-01", Z.max 1000 (decay (decay base)));
          ("2025-01-01", Z.max 1000 (decay base));
          ("2025-03-01", Z.max 1000 base)] /\
    history (Sample.at_time 2025 4 15)
    = Ok [("2025-01-01", Z.max 1000 (decay (decay base)));
          ("2025-03-01", Z.max 1000 (decay base));
          ("2025-04-01", Z.max 1000 base)] /\
    history (Sample.at_time 2025 6 15)
    = Ok [("2025-04-01", Z.max 1000 (decay (decay base)));
          ("2025-05-01", Z.max 1000 (decay base));
          ("2025-06-01", Z.max 1000 base)].
Proof. intros decay base st. repeat split. Qed.

(** C7: [normalize_domain] is a total function that returns the empty
    string where nothing is left of the input (the empty string, whitespace,
    a bare scheme, a bare path or query); on every input whose canonical
    form is empty [get_domain_data] raises [ValueError] with the state
    untouched: nothing logged, no profile generated, no key looked up, no
    request made, the clock not read. *)
Theorem empty_domain_is_rejected_first :
  (normalize_domain "" = "" /\ normalize_domain "https://" = "" /\
   normalize_domain "/path" = "" /\ normalize_domain "?q=1" = "" /\
   forall s, all_chars is_space s = true -> normalize_domain s = "") /\
  forall (decay : Z -> Z) (derive : string -> Z -> Raw.seeded)
         (self : SimilarwebParser) (domain : string) (w : World) (st : State),
    normalize_domain domain = "" ->
    get_domain_data decay derive self domain w st = (Raise (ValueError domain), st).
Proof.
  split; [repeat split; exact normalize_domain_spaces|].
  intros decay derive self domain w st H. unfold get_domain_data. now rewrite H.
Qed.

Lemma empty_domain_witness :
  get_domain_data Sample.decay Sample.derive (Sample.parser false) "https:///path?q=1"
                  Sample.flaky Sample.start
  = (Raise (ValueError "https:///path?q=1"), Sample.start)
  /\ get_domain_data Sample.decay Sample.derive (Sample.parser true) "   "
                     Sample.flaky Sample.start
     = (Raise (ValueError "   "), Sample.start).
Proof.
  split; apply (proj2 empty_domain_is_rejected_first); reflexivity.
Defined.

(** C8: with mock data off and the credential variable unset or empty,
    [get_domain_data] logs one warning and then does exactly what it does
    in mock mode: it makes no request and raises no credential error, and
    under a wall clock it returns the mock record, the trace holding the
    warning and the debug line of the mock path and nothing else. *)
Theorem missing_credential_falls_back_to_mock :
  forall (decay : Z -> Z) (derive : string -> Z -> Raw.seeded)
         (self : SimilarwebParser) (input : string) (w : World) (st : State),
    use_mock_data self = false ->
    no_key (environ w (api_key_env self)) = true ->
    normalize_domain input <> "" ->
    let warned :=
      {| trace := trace st ++ [Log WARNING "Environment variable %s not set; falling back to mock data."];
         ticks := ticks st |} in
    get_domain_data decay derive self input w st
    = get_domain_data decay derive (in_mock_mode self) input w warned /\
    (wall_clock w ->
     exists r,
       get_domain_data decay derive self input w st
       = (Ok r, {| trace := trace st ++ [Log WARNING "Environment variable %s not set; falling back to mock data.";
                                         Log DEBUG "Using mock traffic profile for %s"];
                   ticks := S (S (ticks st)) |}) /\
       isDataFromGA r = false /\ domain r = normalize_domain input).
Proof.
  intros decay derive self input w st Hoff Hkey Hne warned.
  assert (E : get_domain_data decay derive self input w st
              = get_domain_data decay derive (in_mock_mode self) input w warned).
  { unfold get_domain_data. destruct (is_empty (normalize_domain input)) eqn:Ee.
    - destruct (normalize_domain input); [congruence|discriminate].
    - unfold wants_mock, _has_api_key. rewrite Hoff. cbn [in_mock_mode use_mock_data].
      unfold bind at 1. unfold bind at 1. unfold bind at 1. unfold getenv at 1.
      rewrite Hkey. reflexivity. }
  split; [exact E|].
  intros Hclock. rewrite E.
  destruct (_hash_to_int_total (normalize_domain input)) as [seed Hseed].
  destruct (Hclock (ticks warned)) as [Hv Hy].
  destruct (month_keys_total _ Hv Hy) as [months Hm].
  rewrite (mock_mode_run decay derive (in_mock_mode self) input w warned seed months
             eq_refl Hne Hseed Hm).
  unfold _normalize_mock_response, bind, utc_now_iso, now, ret. cbn [fst ticks trace warned].
  eexists. split; [rewrite <- app_assoc; reflexivity|]. split; reflexivity.
Qed.

Lemma missing_credential_witness :
  exists r,
    get_domain_data Sample.decay Sample.derive (Sample.parser false) "example.com"
                    (Sample.world (Sample.at_time 2025 6 15)) Sample.start
    = (Ok r, {| trace := trace Sample.start
                         ++ [Log WARNING "Environment variable %s not set; falling back to mock data.";
                             Log DEBUG "Using mock traffic profile for %s"];
                ticks := S (S (ticks Sample.start)) |}) /\
    isDataFromGA r = false /\ domain r = normalize_domain "example.com".
Proof.
  apply (proj2 (missing_credential_falls_back_to_mock
                  Sample.decay Sample.derive (Sample.parser false) "example.com"
                  (Sample.world (Sample.at_time 2025 6 15)) Sample.start
                  eq_refl eq_refl ltac:(vm_compute; discriminate))).
  intros n. repeat split; vm_compute; intro H; discriminate H.
Defined.

(** ** What holds of the visit history whatever the month *)

Lemma dict_set_floor (visits : list (string * Z)) (key : string) (v : Z) :
  1000 <= v ->
  Forall (fun kv => 1000 <= snd kv) visits ->
  Forall (fun kv => 1000 <= snd kv) (dict_set visits key v).
Proof.
  intros Hv. induction visits as [|[k x] visits IH]; intros H; cbn [dict_set].
  - constructor; [exact Hv|constructor].
  - inversion H; subst. destruct (String.eqb k key); constructor; auto.
Qed.

Lemma dict_set_length {V : Type} (d : list (string * V)) (key : string) (v : V) :
  (List.length (dict_set d key v) <= S (List.length d))%nat.
Proof.
  induction d as [|[k x] d IH]; cbn [dict_set]; [cbn; lia|].
  destruct (String.eqb k key); cbn [List.length]; lia.
Qed.

Lemma lookup_count_floor (visits : list (string * Z)) (key : string) (v : Z) :
  Forall (fun kv => 1000 <= snd kv) visits ->
  lookup_count visits key = Some v -> 1000 <= v.
Proof.
  induction visits as [|[k x] visits IH]; intros H E; [discriminate|].
  inversion H; subst. cbn [lookup_count] in E.
  destruct (String.eqb k key); [now inversion E; subst|auto].
Qed.

Lemma oldest_first_floor (months : list string) (visits : list (string * Z)) :
  Forall (fun kv => 1000 <= snd kv) visits ->
  Forall (fun kv => 1000 <= snd kv) (oldest_first months visits)
  /\ (List.length (oldest_first months visits) <= List.length months)%nat.
Proof.
  intros H. unfold oldest_first.
  assert (G : forall acc,
             Forall (fun kv => 1000 <= snd kv) acc ->
             let out := fold_left
                          (fun acc key =>
                             match lookup_count visits key with
                             | Some v => dict_set acc key v
                             | None => acc
                             end) months acc in
             Forall (fun kv => 1000 <= snd kv) out
             /\ (List.length out <= List.length acc + List.length months)%nat).
  { induction months as [|key rest IH]; intros acc Hacc; cbn [fold_left List.length].
    - split; [exact Hacc|lia].
    - destruct (lookup_count visits key) as [v|] eqn:E.
      + destruct (IH (dict_set acc key v)) as [F L].
        { apply dict_set_floor; [exact (lookup_count_floor _ _ _ H E)|exact Hacc]. }
        split; [exact F|]. pose proof (dict_set_length acc key v). cbv zeta in L. lia.
      + destruct (IH acc Hacc) as [F L]. split; [exact F|]. cbv zeta in L. lia. }
  exact (G [] (Forall_nil _)).
Qed.

Lemma month_keys_length (t : datetime) (offsets : list Z) (months : list string) :
  month_keys t offsets = Ok months -> List.length months = List.length offsets.
Proof.
  revert months. induction offsets as [|i rest IH]; intros months E; cbn [month_keys] in E.
  - now inversion E.
  - destruct (minus_days (replace_day t 1) (30 * i)); [|discriminate].
    destruct (month_keys t rest) as [keys|]; [|discriminate].
    inversion E; subst. cbn [List.length]. now rewrite (IH keys eq_refl).
Qed.

(** Whenever [_build_estimated_visits] returns, every count of the history
    is at least 1000 and the history has at most three months. *)
Lemma visit_history_floor (decay : Z -> Z) (base : Z) (w : World) (st st' : State)
      (history : list (string * Z)) :
  _build_estimated_visits decay base w st = (Ok history, st') ->
  Forall (fun kv => 1000 <= snd kv) history /\ (List.length history <= 3)%nat.
Proof.
  unfold _build_estimated_visits. unfold bind at 1, now at 1. rewrite bind_lift.
  destruct (month_keys (clock w (ticks st)) [2; 1; 0]) as [months|e] eqn:E; [|discriminate].
  intros H. inversion H; subst. clear H.
  destruct (oldest_first_floor months
              (fill_visits decay (rev months) base [])
              (fill_visits_floor decay _ _ _ (Forall_nil _))) as [F L].
  split; [exact F|]. rewrite (month_keys_length _ _ _ E) in L. exact L.
Qed.

(** ** The scenarios of the specification, run *)

(** A transport that fails twice and then answers, with three retries:
    the payload comes back after sleeps of [backoff_factor * 2 ^ 0] and
    [backoff_factor * 2 ^ 1]; one that always fails is tried three times and
    the last error raised is passed on. *)
Example fetch_scenarios :
  let run w := _fetch_raw_data (Sample.parser false) "example.com" w Sample.start in
  fst (run Sample.flaky) = Ok (PDict [("meta", PDict [("title", PStr "Example")])]) /\
  sleeps (trace (snd (run Sample.flaky))) = [1 # 2; 2 # 2]%Q /\
  List.length (requests (trace (snd (run Sample.flaky)))) = 3%nat /\
  fst (run Sample.down) = Raise (OtherError "Timeout") /\
  sleeps (trace (snd (run Sample.down))) = [1 # 2; 2 # 2]%Q /\
  List.length (requests (trace (snd (run Sample.down)))) = 3%nat.
Proof. repeat split. Qed.

(** A payload without [audience.top_countries] has no country shares; a
    source that is not a number is left out and the channel is title-cased. *)
Example remote_scenarios :
  norm_countries (PDict []) = Ok [] /\
  norm_sources
    (PDict [("traffic", PDict [("sources", PDict [("search", PFloat 0.5);
                                                  ("not_a_number", PStr "x")])])])
  = Ok [("Search", 0.5%float)].
Proof. repeat split. Qed.

(** ["HTTPS://Example.com/page"] in mock mode: the canonical domain, no
    analytics flag, a bounce rate with four decimals. *)
Example mock_scenario :
  exists r,
    fst (get_domain_data Sample.decay Sample.derive (Sample.parser true)
           "HTTPS://Example.com/page" (Sample.world (Sample.at_time 2025 6 15)) Sample.start)
    = Ok r /\
    domain r = "example.com" /\ isDataFromGA r = false /\ bounceRate r = "0.4560".
Proof. eexists. vm_compute. repeat split. Qed.

(** * Further properties of the code *)

(** ** normalize_domain *)

Lemma lstrip_starts_clean (s : string) : starts_clean (lstrip s) = true.
Proof.
  induction s as [|c s IH]; [reflexivity|].
  simpl. destruct (is_space c) eqn:E; [exact IH|]. simpl. now rewrite E.
Qed.

Lemma lstrip_of_clean (s : string) : starts_clean s = true -> lstrip s = s.
Proof.
  destruct s as [|c s]; [reflexivity|]. simpl. now destruct (is_space c).
Qed.

Lemma rstrip_by_idem (p : ascii -> bool) (s : string) :
  rstrip_by p (rstrip_by p s) = rstrip_by p s.
Proof.
  induction s as [|c s IH]; [reflexivity|].
  cbn [rstrip_by]. destruct (rstrip_by p s) as [|c' r] eqn:E.
  - destruct (p c) eqn:Ep; [reflexivity|]. cbn [rstrip_by]. now rewrite Ep.
  - change (rstrip_by p (String c (String c' r))) with
      (match rstrip_by p (String c' r) with
       | EmptyString => if p c then EmptyString else String c EmptyString
       | r' => String c r'
       end).
    now rewrite IH.
Qed.

Lemma rstrip_starts_clean (s : string) :
  starts_clean s = true -> starts_clean (rstrip s) = true.
Proof.
  unfold rstrip. destruct s as [|c s]; [reflexivity|].
  cbn [rstrip_by starts_clean]. intros H. apply negb_true_iff in H.
  destruct (rstrip_by is_space s); rewrite ?H; cbn [starts_clean]; now rewrite H.
Qed.

Lemma strip_idem (s : string) : strip (strip s) = strip s.
Proof.
  unfold strip.
  rewrite (lstrip_of_clean (rstrip (lstrip s)))
    by apply rstrip_starts_clean, lstrip_starts_clean.
  apply rstrip_by_idem.
Qed.

Lemma is_space_lower_char (c : ascii) : is_space (lower_char c) = is_space c.
Proof. each_ascii c. Qed.

Lemma lstrip_lower (s : string) : lstrip (lower s) = lower (lstrip s).
Proof.
  unfold lower. induction s as [|c s IH]; [reflexivity|].
  simpl. rewrite is_space_lower_char. now destruct (is_space c).
Qed.

Lemma rstrip_lower (s : string) : rstrip (lower s) = lower (rstrip s).
Proof.
  unfold lower, rstrip. induction s as [|c s IH]; [reflexivity|].
  cbn [map_chars rstrip_by]. rewrite IH, is_space_lower_char.
  destruct (rstrip_by is_space s); [now destruct (is_space c)|reflexivity].
Qed.

Lemma strip_lower (s : string) : strip (lower s) = lower (strip s).
Proof. unfold strip. now rewrite lstrip_lower, rstrip_lower. Qed.

Lemma lower_idem (s : string) : lower (lower s) = lower s.
Proof. apply lower_of_fixed, all_chars_lower_fixed. Qed.

Lemma is_empty_lower (s : string) : is_empty (lower s) = is_empty s.
Proof. now destruct s. Qed.

(** X1: whatever the input, the canonical domain is in lower case and
    holds no slash, no question mark and no scheme separator. *)
Theorem normalize_domain_is_a_bare_lowercase_name :
  forall s : string,
    lower (normalize_domain s) = normalize_domain s /\
    absent "/" (normalize_domain s) = true /\
    absent "?" (normalize_domain s) = true /\
    find_sep "://" (normalize_domain s) = None.
Proof.
  intros s. destruct (normalize_domain_shape s) as (Hl & Hs & Hq).
  split; [now apply lower_of_fixed|]. split; [exact Hs|]. split; [exact Hq|].
  exact (find_sep_absent "/" "://" _ Hs eq_refl).
Qed.

(** X2: the canonical domain does not depend on the case of the input nor
    on the whitespace around it. *)
Theorem normalize_domain_ignores_case_and_margins :
  forall s : string,
    normalize_domain (lower s) = normalize_domain s /\
    normalize_domain (strip s) = normalize_domain s.
Proof.
  intros s. split.
  - unfold normalize_domain. rewrite is_empty_lower, strip_lower, lower_idem. reflexivity.
  - unfold normalize_domain at 1. destruct (is_empty (strip s)) eqn:E.
    + unfold normalize_domain. destruct (is_empty s); [reflexivity|].
      destruct (strip s); [reflexivity|discriminate].
    + rewrite strip_idem. unfold normalize_domain.
      destruct (is_empty s) eqn:Es; [|reflexivity].
      destruct s; [discriminate|discriminate].
Qed.

Lemma lower_char_absent (a c : ascii) :
  is_lower a = false -> Ascii.eqb a c = true \/ Ascii.eqb a (lower_char c) = false.
Proof.
  intros Hl. destruct (Ascii.eqb a c) eqn:E; [now left|right].
  unfold lower_char. destruct (is_upper c) eqn:Hc; [|exact E].
  apply Ascii.eqb_neq. intros ->. revert Hl Hc. clear. each_ascii c.
Qed.

Lemma lower_absent (a : ascii) (s : string) :
  is_lower a = false -> absent a s = true -> absent a (lower s) = true.
Proof.
  intros Hl. unfold absent, lower. induction s as [|c s IH]; [reflexivity|].
  simpl. intros H. apply andb_true_iff in H as [Hc Hs]. rewrite (IH Hs), andb_true_r.
  destruct (lower_char_absent a c Hl) as [E|E]; [now rewrite E in Hc|now rewrite E].
Qed.

(** X3: an input that is already a bare host name, without whitespace,
    slash or question mark, is only put in lower case. *)
Theorem normalize_domain_of_a_bare_host :
  forall s : string,
    all_chars not_space s = true -> absent "/" s = true -> absent "?" s = true ->
    normalize_domain s = lower s.
Proof.
  intros s Hw Hs Hq. unfold normalize_domain.
  destruct (is_empty s) eqn:E; [now destruct s|].
  rewrite (strip_not_space _ Hw).
  pose proof (lower_absent "/" s eq_refl Hs) as Hs'.
  pose proof (lower_absent "?" s eq_refl Hq) as Hq'.
  rewrite (find_sep_absent "/" "://" _ Hs' eq_refl). unfold split1_head.
  rewrite (find_sep_absent "/" "/" _ Hs' eq_refl).
  now rewrite (find_sep_absent "?" "?" _ Hq' eq_refl).
Qed.

Lemma normalize_domain_of_a_bare_host_witness :
  normalize_domain "Shop.Example.COM:8080" = lower "Shop.Example.COM:8080".
Proof.
  apply normalize_domain_of_a_bare_host; reflexivity.
Defined.

(** ** The seed and the generator *)

Lemma hex_val_range (c : ascii) (v : Z) : hex_val c = Some v -> 0 <= v < 16.
Proof.
  unfold hex_val. set (n := Z.of_nat (nat_of_ascii c)).
  destruct ((48 <=? n) && (n <=? 57)) eqn:E1.
  { intros H. inversion H. apply andb_true_iff in E1 as [A B].
    apply Z.leb_le in A, B. lia. }
  destruct ((97 <=? n) && (n <=? 102)) eqn:E2.
  { intros H. inversion H. apply andb_true_iff in E2 as [A B].
    apply Z.leb_le in A, B. lia. }
  destruct ((65 <=? n) && (n <=? 70)) eqn:E3; [|discriminate].
  intros H. inversion H. apply andb_true_iff in E3 as [A B].
  apply Z.leb_le in A, B. lia.
Qed.

Lemma int16_from_bound (s : string) :
  forall acc z,
    0 <= acc -> int16_from acc s = Some z ->
    16 ^ Z.of_nat (String.length s) * acc <= z
    < 16 ^ Z.of_nat (String.length s) * (acc + 1).
Proof.
  induction s as [|c s IH]; intros acc z Hacc H.
  - simpl in H. inversion H; subst. cbn [String.length Z.of_nat]. rewrite Z.pow_0_r. lia.
  - cbn [int16_from] in H. destruct (hex_val c) as [v|] eqn:Ev; [|discriminate].
    pose proof (hex_val_range _ _ Ev) as Hv.
    specialize (IH (16 * acc + v) z ltac:(lia) H).
    cbn [String.length]. rewrite Nat2Z.inj_succ, Z.pow_succ_r by lia.
    assert (0 < 16 ^ Z.of_nat (String.length s)) by (apply Z.pow_pos_nonneg; lia).
    nia.
Qed.

Lemma length_substring_le (s : string) :
  forall n m, (String.length (substring n m s) <= m)%nat.
Proof.
  induction s as [|c s IH]; intros n m.
  - destruct n, m; simpl; lia.
  - destruct n as [|n]; simpl.
    + destruct m as [|m]; simpl; [lia|]. specialize (IH 0%nat m). lia.
    + apply IH.
Qed.

(** X4: the seed of every text is defined and is a number of 48 bits. *)
Theorem _hash_to_int_is_a_48_bit_number :
  forall text : string, exists seed, _hash_to_int text = Ok seed /\ 0 <= seed < 2 ^ 48.
Proof.
  intros text. destruct (_hash_to_int_total text) as [seed H]. exists seed.
  split; [exact H|]. unfold _hash_to_int, int_base16 in H.
  set (h12 := substring 0 12 _) in H.
  destruct h12 as [|c r] eqn:E; [discriminate|].
  destruct (int16_from 0 (String c r)) as [z|] eqn:Ez; [|discriminate].
  inversion H; subst z.
  pose proof (int16_from_bound _ 0 seed ltac:(lia) Ez) as B.
  pose proof (length_substring_le
                (Sha256.hexdigest (Sha256.encode text)) 0 12) as L.
  fold h12 in L. rewrite E in L.
  assert (16 ^ Z.of_nat (String.length (String c r)) <= 16 ^ 12)
    by (apply Z.pow_le_mono_r; lia).
  change (2 ^ 48) with (16 ^ 12). lia.
Qed.

(** X5: a draw depends on the seed through its last 32 bits only: two
    seeds that differ by a multiple of [2 ^ 32] give the same float, so the
    upper 16 bits of the 48-bit seed play no part. *)
Theorem _pseudo_random_float_uses_32_bits :
  forall (seed k : Z) (minimum maximum : float),
    _pseudo_random_float (seed + k * 2 ^ 32) minimum maximum
    = _pseudo_random_float seed minimum maximum /\
    _pseudo_random_float (seed mod 2 ^ 32) minimum maximum
    = _pseudo_random_float seed minimum maximum.
Proof.
  intros seed k minimum maximum. unfold _pseudo_random_float. split.
  - replace (1664525 * (seed + k * 2 ^ 32) + 1013904223)
      with (1664525 * seed + 1013904223 + (1664525 * k) * 2 ^ 32) by ring.
    now rewrite Z_mod_plus_full.
  - rewrite (Z.add_mod (1664525 * (seed mod 2 ^ 32))) by lia.
    rewrite Z.mul_mod_idemp_r by lia.
    now rewrite <- Z.add_mod by lia.
Qed.

(** ** The parser's base URL *)

Lemma rstrip_by_ends (p : ascii -> bool) (s : string) : ends_with p (rstrip_by p s) = false.
Proof.
  induction s as [|c s IH]; [reflexivity|].
  cbn [rstrip_by]. destruct (rstrip_by p s) as [|c' r] eqn:E.
  - destruct (p c) eqn:Ep; [reflexivity|]. simpl. exact Ep.
  - exact IH.
Qed.

Lemma rstrip_by_of_clean (p : ascii -> bool) (s : string) :
  ends_with p s = false -> rstrip_by p s = s.
Proof.
  induction s as [|c s IH]; [reflexivity|].
  intros H. cbn [rstrip_by]. destruct s as [|c' s'].
  - simpl in H. simpl. now rewrite H.
  - rewrite (IH H). reflexivity.
Qed.

Lemma rstrip_by_cut (p : ascii -> bool) (s : string) :
  exists t, s = (rstrip_by p s ++ t)%string /\ all_chars p t = true.
Proof.
  induction s as [|c s (t & Ht & Hp)]; [now exists EmptyString|].
  cbn [rstrip_by]. destruct (rstrip_by p s) as [|c' r] eqn:E.
  - destruct (p c) eqn:Ep.
    + exists (String c t). simpl in Ht. split; [now rewrite <- Ht|]. simpl. now rewrite Ep.
    + exists t. split; [|exact Hp]. simpl in *. now rewrite <- Ht.
  - exists t. split; [|exact Hp]. simpl in *. now rewrite <- Ht.
Qed.

(** One turn of the retry loop, whatever the backoff factor. *)
Lemma attempts_turn (self : SimilarwebParser) (w : World) (url key : string)
      (t : nat) (a : Z) (le : option exn) (st : State) :
  attempts self url key (S t) a le w st =
  let st1 := {| trace := trace st ++ [HttpGet url key (timeout self) a];
                ticks := ticks st |} in
  match succeeded (transport w a) with
  | Some body => (Ok body, st1)
  | None =>
      let st2 := {| trace := trace st1 ++ [Log WARNING (failure_log (transport w a))];
                    ticks := ticks st |} in
      let le' := match raised (transport w a) with Some e => Some e | None => le end in
      if a <? max_retries self then
        if Qle_bool 0 (backoff_delay self a) then
          attempts self url key t (a + 1) le' w
                   {| trace := trace st2 ++ [Sleep (backoff_delay self a)];
                      ticks := ticks st |}
        else (Raise (ValueError "sleep length must be non-negative"), st2)
      else attempts self url key t (a + 1) le' w st2
  end.
Proof.
  cbn [attempts]. unfold bind at 1, http_get, succeeded, failure_log, raised, is_success.
  destruct (transport w a) as [code [body|e]|e];
    try destruct ((200 <=? code) && (code <? 300));
    unfold bind, emit, _sleep_with_backoff, ret, raise;
    destruct (a <? max_retries self);
    try destruct (Qle_bool 0 (backoff_delay self a)); reflexivity.
Qed.

(** What the retry loop adds to the trace: requests to the one URL with
    the one key and timeout, warnings and sleeps; it does not read the
    clock. *)
Lemma attempts_events (self : SimilarwebParser) (w : World) (url key : string) (todo : nat) :
  forall (a : Z) (le : option exn) (st : State),
  exists new,
    trace (snd (attempts self url key todo a le w st)) = (trace st ++ new)%list /\
    ticks (snd (attempts self url key todo a le w st)) = ticks st /\
    Forall (fun e => match e with
                     | HttpGet u k t _ => u = url /\ k = key /\ t = timeout self
                     | _ => True
                     end) new.
Proof.
  induction todo as [|t IH]; intros a le st.
  - exists []. cbn [attempts]. destruct le; cbn; rewrite app_nil_r; auto.
  - rewrite attempts_turn. cbv zeta.
    destruct (succeeded (transport w a)).
    { eexists. cbn [snd trace ticks]. split; [reflexivity|]. split; [reflexivity|].
      constructor; [auto|constructor]. }
    destruct (a <? max_retries self).
    + destruct (Qle_bool 0 (backoff_delay self a)).
      * match goal with
        | |- context [attempts self url key t _ ?l w ?s] =>
            destruct (IH (a + 1) l s) as (new & Htr & Htk & Hall)
        end.
        eexists. rewrite Htr, Htk. cbn [trace ticks]. rewrite <- !app_assoc.
        split; [reflexivity|]. split; [reflexivity|].
        repeat (constructor; [auto|]). exact Hall.
      * eexists. cbn [snd trace ticks]. rewrite <- !app_assoc.
        split; [reflexivity|]. split; [reflexivity|].
        repeat (constructor; [auto|]). constructor.
    + match goal with
      | |- context [attempts self url key t _ ?l w ?s] =>
          destruct (IH (a + 1) l s) as (new & Htr & Htk & Hall)
      end.
      eexists. rewrite Htr, Htk. cbn [trace ticks]. rewrite <- !app_assoc.
      split; [reflexivity|]. split; [reflexivity|].
      repeat (constructor; [auto|]). exact Hall.
Qed.

Lemma requests_app (a b : list event) : requests (a ++ b) = (requests a ++ requests b)%list.
Proof. apply filter_app. Qed.

Lemma in_requests (e : event) (tr : list event) : In e (requests tr) -> In e tr.
Proof. unfold requests. intros H. now apply filter_In in H. Qed.

(** X6: the constructor removes the slashes that end the base URL and
    nothing else: the URL kept never ends with a slash, a URL without a
    final slash is kept as it is.  Every request [_fetch_raw_data] makes
    goes to the URL kept, one slash, the domain and [/overview], with the
    key and the timeout of the parser. *)
Theorem base_url_loses_its_final_slashes :
  forall (url env_var : string) (secs retries : Z) (backoff : Q) (mock : bool),
    let self := SimilarwebParser_init url env_var secs retries backoff mock in
    ends_with (Ascii.eqb "/") (base_url self) = false /\
    (exists slashes, url = (base_url self ++ slashes)%string
                     /\ all_chars (Ascii.eqb "/") slashes = true) /\
    (ends_with (Ascii.eqb "/") url = false -> base_url self = url) /\
    forall (name : string) (w : World) (st : State) (e : event),
      In e (requests (trace (snd (_fetch_raw_data self name w st)))) ->
      In e (requests (trace st)) \/
      exists key attempt,
        environ w env_var = Some key /\
        e = HttpGet (base_url self ++ "/" ++ name ++ "/overview") key secs attempt.
Proof.
  intros url env_var secs retries backoff mock self.
  split; [apply rstrip_by_ends|]. split; [apply rstrip_by_cut|].
  split; [apply rstrip_by_of_clean|].
  intros name w st e. unfold _fetch_raw_data, bind, getenv.
  change (api_key_env self) with env_var.
  destruct (environ w env_var) as [key|]; [|now left].
  destruct (is_empty key); [now left|].
  set (u := (base_url self ++ "/" ++ name ++ "/overview")%string).
  destruct (attempts_events self w u key (Z.to_nat (max_retries self)) 1 None st)
    as (new & Htr & _ & Hall).
  rewrite Htr, requests_app. intros H. apply in_app_or in H as [H|H]; [now left|].
  right. exists key. apply in_requests in H as Hin.
  rewrite Forall_forall in Hall. specialize (Hall e Hin).
  unfold requests in H. apply filter_In in H as [_ Hget].
  destruct e as [| u' k' t' a' |]; try discriminate.
  destruct Hall as (-> & -> & ->). exists a'. split; reflexivity.
Qed.

Lemma base_url_witness :
  base_url (SimilarwebParser_init "https://api.similarweb.com/v1/website" "KEY" 10 3 (1 # 2) true)
  = "https://api.similarweb.com/v1/website".
Proof.
  apply (proj1 (proj2 (proj2 (base_url_loses_its_final_slashes
                                "https://api.similarweb.com/v1/website" "KEY" 10 3 (1 # 2) true)))).
  reflexivity.
Defined.

(** ** The month keys *)

Lemma same_keys_eq (a b : list string) : same_keys a b = true <-> a = b.
Proof.
  revert b. induction a as [|x a IH]; intros [|y b]; simpl; split; intros H;
    try reflexivity; try discriminate.
  - apply andb_true_iff in H as [Hx Ha]. apply String.eqb_eq in Hx. apply IH in Ha.
    now subst.
  - inversion H; subst. rewrite String.eqb_refl. now apply IH.
Qed.

Lemma keys_end_now_in_range :
  forall y m : Z, 1970 <= y <= 2100 -> 1 <= m <= 12 -> keys_end_now y m = true.
Proof.
  assert (H : forallb (fun y => forallb (fun m => keys_end_now (Z.of_nat y) (Z.of_nat m))
                                        (seq 1 12)) (seq 1970 131) = true)
    by (vm_compute; reflexivity).
  intros y m Hy Hm. rewrite forallb_forall in H.
  specialize (H (Z.to_nat y) ltac:(apply in_seq; lia)).
  rewrite forallb_forall in H.
  specialize (H (Z.to_nat m) ltac:(apply in_seq; lia)).
  now rewrite !Z2Nat.id in H by lia.
Qed.

(** X7: for every clock from 1970 to 2100, the first loop of
    [_build_estimated_visits] yields three keys that end with the key of
    the current month and never go forward.  They are the keys of the three
    most recent months exactly when the month is neither March nor April of
    a common year; in those months an earlier month is skipped or repeated. *)
Theorem month_keys_end_now_and_skip_after_february :
  forall t : datetime,
    1970 <= year t <= 2100 -> 1 <= month t <= 12 ->
    let recent := map (key_months_back (year t) (month t)) [2; 1; 0] in
    (exists k2 k1,
        month_keys t [2; 1; 0] = Ok [k2; k1; month_key t] /\
        String.leb k2 k1 = true /\ String.ltb k1 (month_key t) = true) /\
    (month_keys t [2; 1; 0] = Ok recent <->
     month t <> 3 /\ (month t = 4 -> is_leap (year t) = true)).
Proof.
  intros t Hy Hm recent.
  assert (Hs : same_month t (probe (year t) (month t))) by (split; reflexivity).
  rewrite (month_keys_same_month _ _ _ Hs).
  pose proof (keys_end_now_in_range _ _ Hy Hm) as He.
  pose proof (keys_are_recent_but_after_february _ _ Hy Hm) as Hr.
  unfold keys_end_now in He. unfold keys_are_recent in Hr.
  change {| year := year t; month := month t; day := 15;
            hour := 0; minute := 0; second := 0 |}
    with (probe (year t) (month t)) in Hr.
  destruct (month_keys (probe (year t) (month t)) [2; 1; 0]) as [keys|]; [|discriminate].
  split.
  - destruct keys as [|k2 [|k1 [|k0 [|]]]]; try discriminate.
    apply andb_true_iff in He as [He Hlt]. apply andb_true_iff in He as [He Hle].
    apply String.eqb_eq in He. subst k0. exists k2, k1.
    change (month_key (probe (year t) (month t))) with (month_key t) in *.
    repeat split; assumption.
  - fold recent in Hr. split.
    + intros E. inversion E; subst keys.
      rewrite (proj2 (same_keys_eq recent recent) eq_refl) in Hr.
      symmetry in Hr. apply negb_true_iff, orb_false_iff in Hr as [H3 H4].
      apply Z.eqb_neq in H3. split; [exact H3|]. intros E4.
      rewrite E4 in H4. simpl in H4. now destruct (is_leap (year t)).
    + intros [H3 H4]. f_equal. apply same_keys_eq. rewrite Hr.
      apply negb_true_iff, orb_false_iff. split; [now apply Z.eqb_neq|].
      destruct (month t =? 4) eqn:E4; [|reflexivity].
      apply Z.eqb_eq in E4. now rewrite (H4 E4).
Qed.

Lemma month_keys_witness :
  month_keys (Sample.at_time 2025 6 15) [2; 1; 0]
  = Ok (map (key_months_back 2025 6) [2; 1; 0]).
Proof.
  apply (proj2 (month_keys_end_now_and_skip_after_february
                  (Sample.at_time 2025 6 15) ltac:(simpl; lia) ltac:(simpl; lia))).
  split; [discriminate|discriminate].
Defined.

(** ** Mappings under construction *)

Section DictSet.

Context {V : Type}.

Lemma assoc_dict_set (d : list (string * V)) (k k' : string) (v : V) :
  assoc (dict_set d k v) k' = if String.eqb k k' then Some v else assoc d k'.
Proof.
  induction d as [|[x y] d IH]; cbn [dict_set assoc].
  - reflexivity.
  - destruct (String.eqb x k) eqn:E; cbn [assoc].
    + apply String.eqb_eq in E. subst x. now destruct (String.eqb k k').
    + rewrite IH. destruct (String.eqb x k') eqn:E'; [|reflexivity].
      apply String.eqb_eq in E'. subst x. rewrite String.eqb_sym in E. now rewrite E.
Qed.

Lemma keys_dict_set (d : list (string * V)) (k : string) (v : V) (x : string) :
  In x (map fst (dict_set d k v)) <-> In x (map fst d) \/ x = k.
Proof.
  induction d as [|[a b] d IH]; cbn [dict_set map fst In].
  - intuition.
  - destruct (String.eqb a k) eqn:E; cbn [map fst In].
    + apply String.eqb_eq in E. subst a. intuition.
    + rewrite IH. intuition.
Qed.

Lemma nodup_dict_set (d : list (string * V)) (k : string) (v : V) :
  NoDup (map fst d) -> NoDup (map fst (dict_set d k v)).
Proof.
  induction d as [|[a b] d IH]; cbn [dict_set map fst]; intros H.
  - constructor; [intros []|constructor].
  - inversion H; subst. destruct (String.eqb a k) eqn:E; cbn [map fst].
    + constructor; assumption.
    + constructor; [|now apply IH].
      rewrite keys_dict_set. intros [Hin|Heq]; [contradiction|].
      subst a. now rewrite String.eqb_refl in E.
Qed.

(** A key that is new goes last. *)
Lemma dict_set_fresh (d : list (string * V)) (k : string) (v : V) :
  ~ In k (map fst d) -> dict_set d k v = (d ++ [(k, v)])%list.
Proof.
  induction d as [|[a b] d IH]; cbn [dict_set map fst In]; intros H; [reflexivity|].
  destruct (String.eqb a k) eqn:E.
  - apply String.eqb_eq in E. subst a. exfalso. apply H. now left.
  - cbn [app]. rewrite IH; [reflexivity|]. intros Hin. apply H. now right.
Qed.

End DictSet.

Lemma lookup_count_assoc (d : list (string * Z)) (k : string) : lookup_count d k = assoc d k.
Proof.
  induction d as [|[a b] d IH]; [reflexivity|]. cbn [lookup_count assoc]. now rewrite IH.
Qed.

(** ** The second loop of _build_estimated_visits *)

Lemma fill_visits_spec (decay : Z -> Z) (keys : list string) :
  forall current visits,
    let out := fill_visits decay keys current visits in
    (Forall (fun kv => 1000 <= snd kv) visits -> Forall (fun kv => 1000 <= snd kv) out) /\
    (forall k, In k (map fst out) <-> In k (map fst visits) \/ In k keys) /\
    (NoDup (map fst visits) -> NoDup (map fst out)) /\
    (forall k, ~ In k keys -> assoc out k = assoc visits k).
Proof.
  induction keys as [|key rest IH]; intros current visits; cbn [fill_visits].
  - cbv zeta. split; [auto|]. split; [intros k; cbn [In]; tauto|]. split; auto.
  - destruct (IH (decay current) (dict_set visits key (Z.max 1000 current)))
      as (F & K & N & A).
    cbv zeta in *. split; [|split; [|split]].
    + intros H. apply F. apply dict_set_floor; [lia|exact H].
    + intros k. rewrite K, keys_dict_set. cbn [In]. intuition.
    + intros H. apply N, nodup_dict_set, H.
    + intros k Hk. rewrite A by (intros Hin; apply Hk; now right).
      rewrite assoc_dict_set. destruct (String.eqb key k) eqn:E; [|reflexivity].
      apply String.eqb_eq in E. subst k. exfalso. apply Hk. now left.
Qed.

(** X8: whatever the update of [current] between two months, the loop
    [visits[key] = max(1000, int(current))] stores a count of at least 1000
    under every month key and under nothing else, each key once; the first
    key of the loop, the current month, holds [max(1000, base)] unless a
    later key repeats it. *)
Theorem stored_counts_have_a_floor :
  forall (decay : Z -> Z) (keys : list string) (base : Z),
    let visits := fill_visits decay keys base [] in
    Forall (fun kv => 1000 <= snd kv) visits /\
    (forall k, In k (map fst visits) <-> In k keys) /\
    NoDup (map fst visits) /\
    (forall key rest, keys = key :: rest -> ~ In key rest ->
                      assoc visits key = Some (Z.max 1000 base)).
Proof.
  intros decay keys base visits.
  destruct (fill_visits_spec decay keys base []) as (F & K & N & _).
  split; [apply F; constructor|].
  split; [intros k; unfold visits; destruct (K k) as [K1 K2]; cbn [map In] in *; tauto|].
  split; [apply N; constructor|].
  intros key rest -> Hfresh. unfold visits. cbn [fill_visits dict_set].
  destruct (fill_visits_spec decay rest (decay base) [(key, Z.max 1000 base)])
    as (_ & _ & _ & A).
  rewrite (A key Hfresh). cbn [assoc]. now rewrite String.eqb_refl.
Qed.

Lemma stored_counts_witness :
  assoc (fill_visits Sample.decay ["2025-06-01"; "2025-05-01"; "2025-04-01"] 250 [])
        "2025-06-01" = Some (Z.max 1000 250).
Proof.
  apply (proj2 (proj2 (proj2 (stored_counts_have_a_floor
                                Sample.decay ["2025-06-01"; "2025-05-01"; "2025-04-01"] 250)))
           "2025-06-01" ["2025-05-01"; "2025-04-01"] eq_refl).
  intros [H|[H|[]]]; discriminate.
Defined.

(** ** How long a fetch sleeps *)

Lemma fetch_shape (self : SimilarwebParser) (name : string) (w : World) (st : State)
      (key : string) :
  environ w (api_key_env self) = Some key ->
  is_empty key = false ->
  Qle_bool 0 (backoff_factor self) = true ->
  exists (m : nat) (new : list event),
    trace (snd (_fetch_raw_data self name w st)) = (trace st ++ new)%list /\
    ticks (snd (_fetch_raw_data self name w st)) = ticks st /\
    (m <= Z.to_nat (max_retries self))%nat /\
    List.length (requests new) = m /\
    sleeps new = map (fun i => backoff_delay self (1 + Z.of_nat i)) (seq 0 (m - 1)) /\
    ((exists body,
         fst (_fetch_raw_data self name w st) = Ok body /\ (1 <= m)%nat /\
         succeeded (transport w (Z.of_nat m)) = Some body /\
         forall i, (1 <= i < m)%nat -> succeeded (transport w (Z.of_nat i)) = None)
     \/ ((exists e, fst (_fetch_raw_data self name w st) = Raise e) /\
         m = Z.to_nat (max_retries self) /\
         forall i, (1 <= i <= m)%nat -> succeeded (transport w (Z.of_nat i)) = None)).
Proof.
  intros Henv Hkey Hbf.
  set (url := (base_url self ++ "/" ++ name ++ "/overview")%string).
  destruct (attempts_spec self w url key Hbf (Z.to_nat (max_retries self)) 0 st eq_refl)
    as (m & new & r & st' & Hrun & Hm & _ & Htr & Htk & Hnet & Hres).
  rewrite Nat.sub_0_r in Hnet. change (Z.of_nat 0 + 1) with 1 in *.
  assert (E : _fetch_raw_data self name w st = (r, st')).
  { unfold _fetch_raw_data, bind, getenv. rewrite Henv, Hkey. exact Hrun. }
  rewrite E. cbn [fst snd]. exists m, new.
  split; [exact Htr|]. split; [exact Htk|]. split; [lia|].
  split; [now rewrite <- requests_network, Hnet, requests_schedule|].
  split; [now rewrite <- sleeps_network, Hnet, sleeps_schedule|].
  destruct Hres as [(body & Hr & Hlt & Hs & Hfail)|(Hmn & Hfail & Hr)].
  - left. exists body. split; [exact Hr|]. split; [lia|]. split; [exact Hs|].
    intros i Hi. apply Hfail. lia.
  - right. split; [eexists; exact Hr|]. split; [exact Hmn|].
    intros i Hi. apply Hfail. lia.
Qed.

Lemma sum_app (a b : list Q) :
  (fold_right Qplus 0 (a ++ b) == fold_right Qplus 0 a + fold_right Qplus 0 b)%Q.
Proof.
  induction a as [|x a IH]; cbn [app fold_right]; [ring|]. rewrite IH. ring.
Qed.

Lemma inject_pow2_succ (k : nat) :
  (inject_Z (2 ^ Z.of_nat (S k)) == 2 * inject_Z (2 ^ Z.of_nat k))%Q.
Proof.
  rewrite Nat2Z.inj_succ, Z.pow_succ_r by lia. rewrite inject_Z_mult. reflexivity.
Qed.

(** The delays before attempts [2 .. k + 1] add up to
    [backoff_factor * (2 ^ k - 1)]. *)
Lemma backoff_sum (self : SimilarwebParser) (k : nat) :
  (fold_right Qplus 0 (map (fun i => backoff_delay self (1 + Z.of_nat i)) (seq 0 k))
   == backoff_factor self * (inject_Z (2 ^ Z.of_nat k) - 1))%Q.
Proof.
  induction k as [|k IH].
  - cbn. ring.
  - rewrite seq_S, map_app, sum_app, IH. cbn [map fold_right Nat.add].
    unfold backoff_delay. replace (1 + Z.of_nat k - 1) with (Z.of_nat k) by lia.
    rewrite inject_pow2_succ. ring.
Qed.

Lemma pow2_mono (a b : nat) :
  (a <= b)%nat -> (inject_Z (2 ^ Z.of_nat a) <= inject_Z (2 ^ Z.of_nat b))%Q.
Proof.
  intros H. rewrite <- Zle_Qle. apply Z.pow_le_mono_r; lia.
Qed.

(** X9: with a credential and a backoff factor that is not negative, a
    fetch that makes [m] requests sleeps [backoff_factor * (2 ^ (m - 1) - 1)]
    seconds in all, and so never more than
    [backoff_factor * (2 ^ (max_retries - 1) - 1)]. *)
Theorem fetch_sleeps_a_geometric_sum :
  forall (self : SimilarwebParser) (name : string) (w : World) (st : State) (key : string),
    environ w (api_key_env self) = Some key ->
    is_empty key = false ->
    Qle_bool 0 (backoff_factor self) = true ->
    exists (m : nat) (new : list event),
      trace (snd (_fetch_raw_data self name w st)) = (trace st ++ new)%list /\
      List.length (requests new) = m /\
      (m <= Z.to_nat (max_retries self))%nat /\
      (total_sleep new == backoff_factor self * (inject_Z (2 ^ Z.of_nat (m - 1)) - 1))%Q /\
      (total_sleep new
       <= backoff_factor self
          * (inject_Z (2 ^ Z.of_nat (Z.to_nat (max_retries self) - 1)) - 1))%Q.
Proof.
  intros self name w st key Henv Hkey Hbf.
  destruct (fetch_shape self name w st key Henv Hkey Hbf)
    as (m & new & Htr & _ & Hm & Hreq & Hsl & _).
  exists m, new. split; [exact Htr|]. split; [exact Hreq|]. split; [exact Hm|].
  assert (E : (total_sleep new
               == backoff_factor self * (inject_Z (2 ^ Z.of_nat (m - 1)) - 1))%Q).
  { unfold total_sleep. rewrite Hsl. apply backoff_sum. }
  split; [exact E|]. rewrite E.
  apply Qle_bool_iff in Hbf.
  rewrite !(Qmult_comm (backoff_factor self)).
  apply Qmult_le_compat_r; [|exact Hbf].
  apply Qplus_le_l with (z := 1%Q). ring_simplify.
  apply pow2_mono. lia.
Qed.

Lemma fetch_sleeps_witness :
  exists (m : nat) (new : list event),
    trace (snd (_fetch_raw_data (Sample.parser false) "example.com" Sample.down Sample.start))
    = (trace Sample.start ++ new)%list /\
    List.length (requests new) = m /\
    (m <= Z.to_nat (max_retries (Sample.parser false)))%nat /\
    (total_sleep new
     == backoff_factor (Sample.parser false) * (inject_Z (2 ^ Z.of_nat (m - 1)) - 1))%Q /\
    (total_sleep new
     <= backoff_factor (Sample.parser false)
        * (inject_Z (2 ^ Z.of_nat (Z.to_nat (max_retries (Sample.parser false)) - 1)) - 1))%Q.
Proof.
  apply (fetch_sleeps_a_geometric_sum (Sample.parser false) "example.com" Sample.down
           Sample.start "secret"); reflexivity.
Defined.

(** ** What every call of get_domain_data keeps *)

Section AnyCall.

Variable decay : Z -> Z.
Variable derive : string -> Z -> Raw.seeded.

(** The generator reads the clock once and leaves the trace alone, whether
    it returns or the date arithmetic overflows. *)
Lemma generate_mock_profile_quiet (clean : string) (w : World) (st : State) :
  trace (snd (generate_mock_profile decay derive clean w st)) = trace st /\
  forall raw st1,
    generate_mock_profile decay derive clean w st = (Ok raw, st1) ->
    Raw.domain raw = clean /\ ticks st1 = S (ticks st).
Proof.
  unfold generate_mock_profile, _build_estimated_visits. rewrite bind_lift.
  destruct (_hash_to_int clean) as [seed|e]; [|split; [reflexivity|discriminate]].
  cbv [bind ret now lift].
  destruct (month_keys (clock w (ticks st)) [2; 1; 0]) as [months|e] eqn:Hm.
  - cbn [snd trace]. split; [reflexivity|]. intros raw st1 H.
    injection H as <- <-. split; reflexivity.
  - split; [reflexivity|discriminate].
Qed.

Lemma fetch_ticks (self : SimilarwebParser) (name : string) (w : World) (st : State) :
  ticks (snd (_fetch_raw_data self name w st)) = ticks st.
Proof.
  unfold _fetch_raw_data, bind, getenv.
  destruct (environ w (api_key_env self)) as [key|]; [|reflexivity].
  destruct (is_empty key); [reflexivity|].
  destruct (attempts_events self w (base_url self ++ "/" ++ name ++ "/overview") key
              (Z.to_nat (max_retries self)) 1 None st) as (new & _ & Htk & _).
  exact Htk.
Qed.

Lemma mock_branch (clean : string) (w : World) (st : State) :
  let run := bind (generate_mock_profile decay derive clean) _normalize_mock_response w st in
  trace (snd run) = trace st /\
  forall r st', run = (Ok r, st') ->
                domain r = clean /\ isDataFromGA r = false /\
                ticks st' = S (S (ticks st)) /\
                snapshotDate r = isoformat_seconds (clock w (S (ticks st))).
Proof.
  cbv zeta. unfold bind at 1. unfold bind at 1.
  destruct (generate_mock_profile_quiet clean w st) as [Htr Hok].
  destruct (generate_mock_profile decay derive clean w st) as [[raw|e] st1] eqn:E.
  - destruct (Hok raw st1 eq_refl) as [Hd Htk]. cbn [snd] in Htr.
    unfold _normalize_mock_response, bind, utc_now_iso, now, ret. cbn [snd trace].
    split; [exact Htr|]. intros r st' H. inversion H; subst. cbn [domain isDataFromGA
      snapshotDate ticks]. rewrite Htk. repeat split; reflexivity.
  - cbn [snd] in *. split; [exact Htr|discriminate].
Qed.

End AnyCall.

Lemma network_log (tr : list event) (l : level) (msg : string) :
  network (tr ++ [Log l msg]) = network tr.
Proof. rewrite network_app. cbn. apply app_nil_r. Qed.

(** X10: in mock mode, or with the credential variable unset or empty, a
    call of [get_domain_data] makes no request and never sleeps, whatever
    the input, the clock and the outcome of the call: the events of the
    trace that are no log lines are those that were there before. *)
Theorem no_network_without_a_credential :
  forall (decay : Z -> Z) (derive : string -> Z -> Raw.seeded)
         (self : SimilarwebParser) (input : string) (w : World) (st : State),
    use_mock_data self = true \/ no_key (environ w (api_key_env self)) = true ->
    network (trace (snd (get_domain_data decay derive self input w st)))
    = network (trace st).
Proof.
  intros decay derive self input w st Hmode. unfold get_domain_data.
  destruct (is_empty (normalize_domain input)); [reflexivity|].
  assert (Hrun : forall st0,
             network (trace (snd (bind (emit (Log DEBUG "Using mock traffic profile for %s"))
                                       (fun _ => bind (generate_mock_profile decay derive
                                                         (normalize_domain input))
                                                      (_normalize_mock_response)) w st0)))
             = network (trace st0)).
  { intros st0. unfold bind at 1. cbn [emit].
    rewrite (proj1 (mock_branch decay derive (normalize_domain input) w _)).
    cbn [trace]. apply network_log. }
  unfold wants_mock. destruct (use_mock_data self) eqn:Hm.
  - unfold bind at 1. cbn [ret]. apply Hrun.
  - destruct Hmode as [Hmode|Hkey]; [discriminate|].
    unfold _has_api_key. unfold bind at 1. unfold bind at 1. unfold bind at 1.
    unfold getenv at 1. rewrite Hkey. unfold bind at 1. cbn [emit ret negb].
    rewrite Hrun. cbn [trace]. apply network_log.
Qed.

Lemma no_network_witness :
  network (trace (snd (get_domain_data Sample.decay Sample.derive (Sample.parser false)
                         "example.com" (Sample.world (Sample.at_time 2025 6 15))
                         Sample.start)))
  = network (trace Sample.start).
Proof.
  apply (no_network_without_a_credential Sample.decay Sample.derive (Sample.parser false)
           "example.com" (Sample.world (Sample.at_time 2025 6 15)) Sample.start).
  right. reflexivity.
Defined.

Lemma normalize_real_response_needs_a_mapping
      (self : SimilarwebParser) (name : string) (raw : pyval) (w : World) (st st' : State)
      (r : NormalizedRecord) :
  _normalize_real_response self name raw w st = (Ok r, st') -> exists d, raw = PDict d.
Proof.
  destruct raw as [| | | | | |d]; try (unfold _normalize_real_response; rewrite bind_lift;
                                       discriminate).
  intros _. now exists d.
Qed.

(** What a record returned by [get_domain_data] carries, in either mode. *)
Lemma get_domain_data_returns :
  forall (decay : Z -> Z) (derive : string -> Z -> Raw.seeded)
         (self : SimilarwebParser) (input : string) (w : World) (st st' : State)
         (r : NormalizedRecord),
    get_domain_data decay derive self input w st = (Ok r, st') ->
    normalize_domain input <> "" /\
    domain r = normalize_domain input /\
    exists n, (ticks st <= n)%nat /\ ticks st' = S n /\
              snapshotDate r = isoformat_seconds (clock w n).
Proof.
  intros decay derive self input w st st' r. unfold get_domain_data.
  destruct (is_empty (normalize_domain input)) eqn:Hne; [discriminate|].
  assert (Hclean : normalize_domain input <> "").
  { intros E. rewrite E in Hne. discriminate. }
  intros H. split; [exact Hclean|].
  unfold bind at 1 in H.
  destruct (wants_mock self w st) as [[mock|e] st0] eqn:Hw; [|discriminate].
  assert (Htk : ticks st0 = ticks st).
  { revert Hw. unfold wants_mock, _has_api_key. destruct (use_mock_data self).
    - intros E. now inversion E.
    - cbv [bind getenv emit ret]. destruct (no_key _); intros E; now inversion E. }
  unfold bind at 1 in H. cbn [emit] in H.
  destruct mock.
  - pose proof (mock_branch decay derive (normalize_domain input) w
                  {| trace := trace st0 ++ [Log DEBUG "Using mock traffic profile for %s"];
                     ticks := ticks st0 |}) as P.
    cbv zeta in P. destruct (proj2 P r st' H) as (Hd & _ & Ht & Hs). clear P.
    cbn [ticks] in Ht, Hs. split; [exact Hd|].
    exists (S (ticks st0)). rewrite <- Htk. split; [lia|]. split; [exact Ht|exact Hs].
  - unfold bind at 1 in H. cbn [emit] in H. unfold bind at 1 in H.
    match type of H with
    | context [_fetch_raw_data self ?c w ?s] =>
        pose proof (fetch_ticks self c w s) as Hf;
        destruct (_fetch_raw_data self c w s) as [[raw|e] st2]; [|discriminate]
    end.
    cbn [snd ticks] in Hf.
    destruct (normalize_real_response_needs_a_mapping _ _ _ _ _ _ _ H) as [d ->].
    destruct (normalize_real_response_returns _ _ _ _ _ _ _ H)
      as (ov & vs & cs & ss & ks & cr & b & p & v & t & _ & _ & _ & _ & _ & _ & _ & _ & _ & _
          & -> & ->).
    cbn [domain snapshotDate ticks]. split; [reflexivity|].
    exists (ticks st2). rewrite Hf, Htk. split; [lia|]. split; reflexivity.
Qed.

(** X11: a record that [get_domain_data] returns, in either mode, carries
    the canonical form of the input as its domain, and that form is not
    empty; its snapshot date is the last reading of the clock the call
    made, taken after the data was built or fetched. *)
Theorem a_returned_record_names_the_canonical_domain :
  forall (decay : Z -> Z) (derive : string -> Z -> Raw.seeded)
         (self : SimilarwebParser) (input : string) (w : World) (st st' : State)
         (r : NormalizedRecord),
    get_domain_data decay derive self input w st = (Ok r, st') ->
    normalize_domain input <> "" /\
    domain r = normalize_domain input /\
    exists n, (ticks st <= n)%nat /\ ticks st' = S n /\
              snapshotDate r = isoformat_seconds (clock w n).
Proof. exact get_domain_data_returns. Qed.

Lemma a_returned_record_witness :
  exists r st',
    get_domain_data Sample.decay Sample.derive (Sample.parser true) "HTTPS://Example.com/page"
                    (Sample.world (Sample.at_time 2025 6 15)) Sample.start = (Ok r, st') /\
    domain r = normalize_domain "HTTPS://Example.com/page".
Proof.
  destruct (get_domain_data Sample.decay Sample.derive (Sample.parser true)
              "HTTPS://Example.com/page" (Sample.world (Sample.at_time 2025 6 15))
              Sample.start) as [[r|e] st'] eqn:E.
  - exists r, st'. split; [reflexivity|].
    exact (proj1 (proj2 (a_returned_record_names_the_canonical_domain
                           Sample.decay Sample.derive (Sample.parser true)
                           "HTTPS://Example.com/page"
                           (Sample.world (Sample.at_time 2025 6 15)) Sample.start st' r E))).
  - exfalso. vm_compute in E. discriminate E.
Defined.

(** ** The remote path *)





(** ** The mappings of the normalized record *)

Lemma assoc_app {V : Type} (a b : list (string * V)) (k : string) :
  assoc (a ++ b) k = match assoc a k with Some v => Some v | None => assoc b k end.
Proof.
  induction a as [|[x y] a IH]; [reflexivity|]. cbn [app assoc].
  destruct (String.eqb x k); [reflexivity|exact IH].
Qed.

Lemma sources_of_items_spec (items : list (string * pyval)) :
  forall (acc out : list (string * float)),
    sources_of_items items acc = Ok out ->
    (NoDup (map fst acc) -> NoDup (map fst out)) /\
    (forall k, In k (map fst out)
               <-> In k (map fst acc) \/ In k (map fst (numeric_sources items))) /\
    (forall k, assoc out k = match last_value (numeric_sources items) k with
                             | Some v => Some v
                             | None => assoc acc k
                             end).
Proof.
  unfold last_value.
  induction items as [|[key val] rest IH]; intros acc out H; cbn [sources_of_items] in H.
  - injection H as <-. cbn. split; [auto|]. split; [tauto|reflexivity].
  - cbn [numeric_sources flat_map fst snd]. fold (numeric_sources rest).
    destruct (is_number val).
    + destruct (py_float val) as [f|e]; [|discriminate]. cbn [rbind] in H.
      destruct (IH _ _ H) as (N & K & A). split; [|split].
      * intros Hn. apply N, nodup_dict_set, Hn.
      * intros k. rewrite K, keys_dict_set. cbn [app map fst In]. intuition.
      * intros k. rewrite A, assoc_dict_set. cbn [app rev]. rewrite assoc_app.
        destruct (assoc (rev (numeric_sources rest)) k); [reflexivity|].
        cbn [assoc]. now destruct (String.eqb (str_title key) k).
    + cbn [app]. apply IH, H.
Qed.

(** X13: in a record that [_normalize_real_response] returns, the
    traffic sources have one entry for each title-cased name of a numeric
    item under [traffic.sources] of the payload, and no other; when
    several names of the payload have the same title-cased form, the entry
    holds the value of the last of them. *)
Theorem sources_merge_names_that_differ_by_case :
  forall (self : SimilarwebParser) (name : string) (d : list (string * pyval))
         (w : World) (st st' : State) (r : NormalizedRecord),
    _normalize_real_response self name (PDict d) w st = (Ok r, st') ->
    exists items,
      py_or (g (PDict d) "traffic.sources" (PDict [])) (PDict []) = PDict items /\
      NoDup (map fst (trafficSources r)) /\
      (forall k, In k (map fst (trafficSources r))
                 <-> In k (map fst (numeric_sources items))) /\
      (forall k, assoc (trafficSources r) k = last_value (numeric_sources items) k).
Proof.
  intros self name d w st st' r Hrun.
  destruct (normalize_real_response_returns _ _ _ _ _ _ _ Hrun)
    as (ov & vs & cs & ss & ks & cr & b & p & v & t &
        _ & _ & _ & Hss & _ & _ & _ & _ & _ & _ & _ & ->).
  cbn [trafficSources]. unfold norm_sources in Hss.
  destruct (py_or (g (PDict d) "traffic.sources" (PDict [])) (PDict []))
    as [| | | | | |items]; try discriminate.
  cbn [py_items rbind] in Hss. exists items. split; [reflexivity|].
  destruct (sources_of_items_spec items [] ss Hss) as (N & K & A).
  split; [apply N; constructor|]. split.
  - intros k. rewrite K. cbn [map In]. tauto.
  - intros k. rewrite A. now destruct (last_value (numeric_sources items) k).
Qed.

Lemma sources_merge_witness :
  exists r st',
    _normalize_real_response (Sample.parser false) "example.com"
      (PDict [("traffic",
               PDict [("sources",
                       PDict [("search", PFloat 0.25); ("direct", PFloat 0.5);
                              ("note", PStr "n/a"); ("SEARCH", PFloat 0.75)])])])
      (Sample.world (Sample.at_time 2025 6 15)) Sample.start = (Ok r, st') /\
    assoc (trafficSources r) "Search" = Some 0.75%float /\
    List.length (trafficSources r) = 2%nat.
Proof.
  destruct (_normalize_real_response (Sample.parser false) "example.com"
              (PDict [("traffic",
                       PDict [("sources",
                               PDict [("search", PFloat 0.25); ("direct", PFloat 0.5);
                                      ("note", PStr "n/a"); ("SEARCH", PFloat 0.75)])])])
              (Sample.world (Sample.at_time 2025 6 15)) Sample.start)
    as [[r|e] st'] eqn:E.
  - destruct (sources_merge_names_that_differ_by_case _ _ _ _ _ _ _ E)
      as (items & Hitems & _ & _ & A).
    exists r, st'. split; [reflexivity|]. vm_compute in Hitems. injection Hitems as <-.
    split; [rewrite A; reflexivity|].
    vm_compute in E. injection E as <- _. reflexivity.
  - exfalso. vm_compute in E. discriminate E.
Defined.

Lemma visits_of_items_spec (items : list (string * pyval)) :
  forall (acc out : list (string * Z)),
    NoDup (map fst acc ++ map fst items) ->
    visits_of_items items acc = Ok out ->
    out = (acc ++ numeric_counts items)%list.
Proof.
  induction items as [|[k v] rest IH]; intros acc out Hn H; cbn [visits_of_items] in H.
  - injection H as <-. cbn. now rewrite app_nil_r.
  - cbn [numeric_counts flat_map fst snd]. fold (numeric_counts rest).
    cbn [map fst] in Hn.
    assert (Hk : ~ In k (map fst acc)).
    { intros Hin. apply NoDup_remove_2 in Hn. apply Hn, in_or_app. now left. }
    destruct (is_number v).
    + destruct (py_int v) as [n|e]; [|discriminate]. cbn [rbind] in H.
      rewrite (dict_set_fresh acc k n Hk) in H.
      assert (Hn' : NoDup (map fst (acc ++ [(k, n)]) ++ map fst rest)).
      { rewrite map_app, <- app_assoc. exact Hn. }
      rewrite (IH _ _ Hn' H). now rewrite <- app_assoc.
    + cbn [app]. apply IH; [|exact H]. now apply NoDup_remove_1 in Hn.
Qed.

Lemma rbind_items {B} (items : list (string * pyval)) (k : list (string * pyval) -> result B) :
  rbind (py_items (PDict items)) k = k items.
Proof. reflexivity. Qed.

(** X14: [normalized_visits] of a payload whose visit history is a
    mapping with distinct keys keeps, in the order of the payload, the
    entries whose value is a number, each converted by [int], and drops the
    others without an error. *)
Theorem visit_history_keeps_the_numeric_entries_in_order :
  forall (raw : pyval) (items : list (string * pyval)) (out : list (string * Z)),
    py_or (g raw "traffic.estimated_monthly_visits" (PDict [])) (PDict []) = PDict items ->
    NoDup (map fst items) ->
    normalized_visits raw = Ok out ->
    out = numeric_counts items.
Proof.
  intros raw items out Hg Hn H. apply (visits_of_items_spec items [] out Hn).
  rewrite <- H. unfold normalized_visits. rewrite Hg. symmetry.
  exact (rbind_items items (fun i => visits_of_items i [])).
Qed.

Lemma visit_history_witness :
  [("2025-04-01", 1200); ("2025-05-01", 1300); ("2025-06-01", 1)]
  = numeric_counts [("2025-04-01", PInt 1200); ("2025-05-01", PFloat 1300.5);
                    ("2025-06-01", PBool true); ("note", PStr "n/a")].
Proof.
  apply (visit_history_keeps_the_numeric_entries_in_order Sample.payload
           [("2025-04-01", PInt 1200); ("2025-05-01", PFloat 1300.5);
            ("2025-06-01", PBool true); ("note", PStr "n/a")]
           [("2025-04-01", 1200); ("2025-05-01", 1300); ("2025-06-01", 1)]).
  - reflexivity.
  - repeat constructor; cbn; intuition discriminate.
  - reflexivity.
Defined.

(** ** Booleans among the numbers *)

Lemma numeric_counts_assoc (items : list (string * pyval)) (k : string) (v : pyval) (n : Z) :
  NoDup (map fst items) -> In (k, v) items -> is_number v = true -> py_int v = Ok n ->
  assoc (numeric_counts items) k = Some n.
Proof.
  intros Hn Hin Hnum Hint. induction items as [|[k0 v0] rest IH]; [destruct Hin|].
  cbn [map fst] in Hn. inversion Hn as [|? ? Hfresh Hrest]; subst.
  cbn [numeric_counts flat_map fst snd]. fold (numeric_counts rest).
  rewrite assoc_app. destruct Hin as [E|Hin].
  - injection E as -> ->. rewrite Hnum, Hint. cbn [assoc]. now rewrite String.eqb_refl.
  - assert (Hk : String.eqb k0 k = false).
    { apply String.eqb_neq. intros ->. apply Hfresh.
      change k with (fst (k, v)). now apply in_map. }
    rewrite (IH Hrest Hin).
    destruct (is_number v0); [|reflexivity].
    destruct (py_int v0); [|reflexivity]. cbn [assoc]. now rewrite Hk.
Qed.

Lemma assoc_const {V : Type} (l : list (string * V)) (key : string) (x : V) :
  In (key, x) l -> (forall v, In (key, v) l -> v = x) -> assoc l key = Some x.
Proof.
  induction l as [|[k0 v0] l IH]; intros Hin Hall; [destruct Hin|].
  cbn [assoc]. destruct (String.eqb k0 key) eqn:E.
  - apply String.eqb_eq in E. subst k0. f_equal. apply Hall. now left.
  - apply IH.
    + destruct Hin as [H|H]; [|exact H]. injection H as -> ->.
      now rewrite String.eqb_refl in E.
    + intros v Hv. apply Hall. now right.
Qed.

Lemma last_value_const {V : Type} (l : list (string * V)) (key : string) (x : V) :
  In (key, x) l -> (forall v, In (key, v) l -> v = x) -> last_value l key = Some x.
Proof.
  intros Hin Hall. unfold last_value. apply assoc_const.
  - now apply in_rev in Hin.
  - intros v Hv. apply Hall. now apply in_rev.
Qed.

Lemma numeric_sources_in (items : list (string * pyval)) (key : string) (x : float) :
  In (key, x) (numeric_sources items) <->
  exists k v, In (k, v) items /\ str_title k = key /\ is_number v = true /\ py_float v = Ok x.
Proof.
  unfold numeric_sources. rewrite in_flat_map. split.
  - intros ([k v] & Hin & H). cbn [fst snd] in H.
    destruct (is_number v) eqn:Hn; [|destruct H].
    destruct (py_float v) as [f|e] eqn:Hf; [|destruct H].
    destruct H as [H|[]]. injection H as <- <-. exists k, v. auto.
  - intros (k & v & Hin & <- & Hn & Hf). exists (k, v). split; [exact Hin|].
    cbn [fst snd]. rewrite Hn, Hf. now left.
Qed.

Lemma countries_of_keeps (cs : list pyval) :
  forall acc out,
    countries_of cs acc = Ok out ->
    (forall x, In x acc -> In x out) /\
    forall c b,
      In (PDict c) cs ->
      truthy (dict_get c "country_code" PNone) = true ->
      dict_get c "share" PNone = PBool b ->
      In {| CountryCode := dict_get c "country_code" PNone;
            Value := (if b then 1 else 0)%float |} out.
Proof.
  induction cs as [|c0 rest IH]; intros acc out H; cbn [countries_of] in H.
  - injection H as <-. split; [auto|]. intros c b [].
  - destruct c0 as [| | | | | |d0]; try discriminate. cbn [py_get rbind] in H.
    destruct (truthy (dict_get d0 "country_code" PNone)
              && is_number (dict_get d0 "share" PNone)) eqn:Hkeep.
    + destruct (py_float (dict_get d0 "share" PNone)) as [f|e] eqn:Hf; [|discriminate].
      cbn [rbind] in H. destruct (IH _ _ H) as [Hacc Hrest]. split.
      * intros x Hx. apply Hacc, in_or_app. now left.
      * intros c b [E|Hin] Hcode Hshare; [|now apply Hrest].
        injection E as ->. apply Hacc, in_or_app. right. left.
        rewrite Hshare in Hf. cbn [py_float] in Hf. now injection Hf as <-.
    + destruct (IH _ _ H) as [Hacc Hrest]. split; [exact Hacc|].
      intros c b [E|Hin] Hcode Hshare; [|now apply Hrest].
      injection E as ->. rewrite Hcode, Hshare in Hkeep. discriminate.
Qed.

(** C10: a boolean passes [isinstance(v, (int, float))].  In a record
    that [_normalize_real_response] returns, a boolean under
    [traffic.estimated_monthly_visits] is under its key in
    [estimatedMonthlyVisits] as the integer 0 or 1; a boolean under
    [traffic.sources] is in [trafficSources] as 0.0 or 1.0 under the
    title-cased key, when no other source has that title-cased key; a
    boolean share of a country with a code is in [topCountryShares] as 0.0
    or 1.0 with that code. *)
Theorem booleans_pass_the_numeric_filters :
  forall (self : SimilarwebParser) (name : string) (d : list (string * pyval))
         (w : World) (st st' : State) (r : NormalizedRecord),
    let raw := PDict d in
    _normalize_real_response self name raw w st = (Ok r, st') ->
    (forall items k b,
        py_or (g raw "traffic.estimated_monthly_visits" (PDict [])) (PDict []) = PDict items ->
        NoDup (map fst items) ->
        In (k, PBool b) items ->
        assoc (estimatedMonthlyVisits r) k = Some (if b then 1 else 0)) /\
    (forall items k b,
        py_or (g raw "traffic.sources" (PDict [])) (PDict []) = PDict items ->
        In (k, PBool b) items ->
        (forall k' v', In (k', v') items -> str_title k' = str_title k -> v' = PBool b) ->
        assoc (trafficSources r) (str_title k) = Some (if b then 1 else 0)%float) /\
    (forall cs c b,
        py_or (g raw "audience.top_countries" (PList [])) (PList []) = PList cs ->
        In (PDict c) cs ->
        truthy (dict_get c "country_code" PNone) = true ->
        dict_get c "share" PNone = PBool b ->
        In {| CountryCode := dict_get c "country_code" PNone;
              Value := (if b then 1 else 0)%float |} (topCountryShares r)).
Proof.
  intros self name d w st st' r raw Hrun.
  destruct (normalize_real_response_returns _ _ _ _ _ _ _ Hrun)
    as (ov & vs & cs0 & ss & ks & cr & b0 & p & v & t &
        _ & Hvs & Hcs & Hss & _ & _ & _ & _ & _ & _ & _ & ->).
  fold raw in Hvs, Hcs, Hss.
  cbn [estimatedMonthlyVisits trafficSources topCountryShares].
  split; [|split].
  - intros items k b Hg Hn Hin. unfold normalized_visits in Hvs. rewrite Hg in Hvs.
    rewrite (rbind_items items (fun i => visits_of_items i [])) in Hvs.
    rewrite (visits_of_items_spec items [] vs Hn Hvs). cbn [app].
    apply (numeric_counts_assoc items k (PBool b)); [exact Hn|exact Hin|reflexivity|].
    now destruct b.
  - intros items k b Hg Hin Hsame. unfold norm_sources in Hss. rewrite Hg in Hss.
    rewrite (rbind_items items (fun i => sources_of_items i [])) in Hss.
    destruct (sources_of_items_spec items [] ss Hss) as (_ & _ & A).
    rewrite A. rewrite (last_value_const (numeric_sources items) (str_title k)
                          (if b then 1 else 0)%float); [reflexivity| |].
    + apply numeric_sources_in. exists k, (PBool b). repeat split. exact Hin.
    + intros x Hx. apply numeric_sources_in in Hx as (k' & v' & Hin' & Ht & _ & Hf).
      rewrite (Hsame k' v' Hin' Ht) in Hf. cbn [py_float] in Hf. now injection Hf as <-.
  - intros cs c b Hg Hin Hcode Hshare. unfold norm_countries in Hcs. rewrite Hg in Hcs.
    cbn [py_iter rbind] in Hcs.
    exact (proj2 (countries_of_keeps cs [] cs0 Hcs) c b Hin Hcode Hshare).
Qed.

Lemma boolean_share_witness :
  exists r st',
    _normalize_real_response (Sample.parser false) "example.com" Sample.payload
      (Sample.world (Sample.at_time 2025 6 15)) Sample.start = (Ok r, st') /\
    assoc (estimatedMonthlyVisits r) "2025-06-01" = Some 1 /\
    assoc (trafficSources r) "Paid Search" = Some 1%float /\
    In {| CountryCode := PStr "DE"; Value := 1%float |} (topCountryShares r).
Proof.
  destruct (_normalize_real_response (Sample.parser false) "example.com" Sample.payload
              (Sample.world (Sample.at_time 2025 6 15)) Sample.start)
    as [[r|e] st'] eqn:E.
  - destruct (booleans_pass_the_numeric_filters
                (Sample.parser false) "example.com"
                match Sample.payload with PDict d => d | _ => [] end
                (Sample.world (Sample.at_time 2025 6 15)) Sample.start st' r E)
      as (Hv & Hs & Hc).
    exists r, st'. split; [reflexivity|]. split; [|split].
    + apply (Hv [("2025-04-01", PInt 1200); ("2025-05-01", PFloat 1300.5);
                 ("2025-06-01", PBool true); ("note", PStr "n/a")] "2025-06-01" true).
      * reflexivity.
      * repeat constructor; cbn; intuition discriminate.
      * cbn. tauto.
    + apply (Hs [("search", PFloat 0.5); ("not_a_number", PStr "x");
                 ("paid search", PBool true)] "paid search" true).
      * reflexivity.
      * cbn. tauto.
      * intros k' v' [H|[H|[H|[]]]] Ht; injection H as <- <-;
          [vm_compute in Ht; discriminate Ht|vm_compute in Ht; discriminate Ht|reflexivity].
    + apply (Hc [PDict [("country_code", PStr "US"); ("share", PFloat 0.25)];
                 PDict [("country_code", PStr "DE"); ("share", PBool true)]]
                [("country_code", PStr "DE"); ("share", PBool true)] true).
      * reflexivity.
      * right. now left.
      * reflexivity.
      * reflexivity.
  - exfalso. vm_compute in E. discriminate E.
Defined.

(** ** The list of domains *)

Lemma ltb_lt (a b : string) : String.ltb a b = true <-> OrderedTypeEx.String_as_OT.lt a b.
Proof.
  rewrite <- OrderedTypeEx.String_as_OT.cmp_lt. unfold String.ltb, OrderedTypeEx.String_as_OT.cmp.
  destruct (String.compare a b); split; intros H; try reflexivity; discriminate.
Qed.

Lemma ltb_trans (a b c : string) :
  String.ltb a b = true -> String.ltb b c = true -> String.ltb a c = true.
Proof.
  rewrite !ltb_lt. apply OrderedTypeEx.String_as_OT.lt_trans.
Qed.

Lemma ltb_irrefl (a : string) : String.ltb a a = false.
Proof.
  destruct (String.ltb a a) eqn:E; [|reflexivity].
  apply ltb_lt in E. exfalso. exact (OrderedTypeEx.String_as_OT.lt_not_eq a a E eq_refl).
Qed.

Lemma compare_gt_ltb (a b : string) : String.compare a b = Gt -> String.ltb b a = true.
Proof.
  intros H. unfold String.ltb. rewrite String.compare_antisym, H. reflexivity.
Qed.

Lemma insert_in (x y : string) (l : list string) : In x (insert y l) <-> x = y \/ In x l.
Proof.
  induction l as [|z l IH]; cbn [insert In]; [intuition|].
  destruct (String.compare y z) eqn:E; cbn [In].
  - apply String.compare_eq_iff in E. subst z. intuition.
  - intuition.
  - rewrite IH. intuition.
Qed.

Lemma insert_ascending (x : string) (l : list string) : ascending l -> ascending (insert x l).
Proof.
  unfold ascending. induction l as [|y l IH]; intros H; cbn [insert].
  - constructor; constructor.
  - inversion H as [|? ? Hl Hy]; subst. destruct (String.compare x y) eqn:E.
    + exact H.
    + assert (Hxy : String.ltb x y = true) by (unfold String.ltb; now rewrite E).
      constructor; [exact H|]. constructor; [exact Hxy|].
      rewrite Forall_forall in *. intros z Hz. eapply ltb_trans; [exact Hxy|now apply Hy].
    + constructor; [now apply IH|]. rewrite Forall_forall in *. intros z Hz.
      apply insert_in in Hz as [->|Hz]; [now apply compare_gt_ltb|now apply Hy].
Qed.

Lemma sorted_set_in (x : string) (l : list string) : In x (sorted_set l) <-> In x l.
Proof.
  induction l as [|y l IH]; cbn [sorted_set fold_right In]; [tauto|].
  fold (sorted_set l). rewrite insert_in, IH. intuition.
Qed.

Lemma sorted_set_ascending (l : list string) : ascending (sorted_set l).
Proof.
  induction l as [|y l IH]; cbn [sorted_set fold_right]; [constructor|].
  now apply insert_ascending.
Qed.

Lemma ascending_nodup (l : list string) : ascending l -> NoDup l.
Proof.
  induction 1 as [|x l Hl IH Hx]; constructor; [|exact IH].
  intros Hin. rewrite Forall_forall in Hx. specialize (Hx x Hin).
  now rewrite ltb_irrefl in Hx.
Qed.

Lemma is_empty_false (s : string) : is_empty s = false <-> s <> "".
Proof. destruct s; cbn; split; intros H; congruence. Qed.

Lemma named_column_in (rows : list (list string)) (d : string) :
  In d (named_column rows) ->
  exists header rest row, rows = header :: rest /\ In row rest /\
                          d = domain_cell header row /\ d <> "".
Proof.
  unfold named_column. rewrite in_flat_map. intros (row & Hrow & Hd).
  destruct rows as [|header rest]; [destruct Hrow|].
  unfold dict_rows in Hrow. cbn [tl] in Hrow. apply filter_In in Hrow as [Hrow _].
  destruct (is_empty (domain_cell header row)) eqn:E; [destruct Hd|].
  destruct Hd as [<-|[]]. exists header, rest, row. repeat split; try assumption.
  now apply is_empty_false.
Qed.

Lemma first_column_in (rows : list (list string)) (d : string) :
  In d (first_column rows) <->
  exists cell rest, In (cell :: rest) rows /\ d = strip cell /\ d <> "" /\ lower d <> "domain".
Proof.
  unfold first_column. rewrite in_flat_map. split.
  - intros ([|cell rest] & Hrow & Hd); [destruct Hd|].
    destruct (is_empty (strip cell)) eqn:E; [destruct Hd|].
    destruct (String.eqb (lower (strip cell)) "domain") eqn:E'; [destruct Hd|].
    destruct Hd as [<-|[]]. exists cell, rest. split; [exact Hrow|]. split; [reflexivity|].
    split; [now apply is_empty_false|now apply String.eqb_neq].
  - intros (cell & rest & Hrow & -> & Hne & Hlow). exists (cell :: rest). split; [exact Hrow|].
    apply is_empty_false in Hne. apply String.eqb_neq in Hlow. rewrite Hne, Hlow. now left.
Qed.

(** X15: the list [load_domains_from_csv] returns is strictly ascending,
    so no text is in it twice; every entry is not empty and has no white
    space at either end.  The file has to exist for a list to be
    returned. *)
Theorem loaded_domains_are_sorted_and_trimmed :
  forall (h : Host) (path : string) (domains : list string),
    load_domains_from_csv h path = Ok domains ->
    path_exists h path = true /\
    ascending domains /\
    NoDup domains /\
    Forall (fun d => d <> "" /\ strip d = d) domains.
Proof.
  intros h path domains. unfold load_domains_from_csv.
  destruct (path_exists h path); [|discriminate]. cbn [negb].
  destruct (csv_rows h path) as [rows|e]; [|discriminate]. cbn [rbind].
  intros H. injection H as <-. split; [reflexivity|].
  split; [apply sorted_set_ascending|]. split; [apply ascending_nodup, sorted_set_ascending|].
  rewrite Forall_forall. intros d Hd. apply (proj1 (sorted_set_in _ _)) in Hd.
  destruct (existsb _ _).
  - apply named_column_in in Hd as (header & rest & row & _ & _ & -> & Hne).
    split; [exact Hne|]. apply strip_idem.
  - apply first_column_in in Hd as (cell & rest & _ & -> & Hne & _).
    split; [exact Hne|]. apply strip_idem.
Qed.

Lemma loaded_domains_witness :
  ascending ["a.example"; "b.example"; "website"].
Proof.
  apply (loaded_domains_are_sorted_and_trimmed SampleRun.host "sites.csv"
           ["a.example"; "b.example"; "website"] eq_refl).
Defined.

(** *** The column a DictReader reads *)

Lemma dict_of_row_entries (fieldnames row : list string) :
  dict_of_row fieldnames row
  = fold_left (fun d kv => dict_set d (fst kv) (snd kv)) (row_entries fieldnames row) [].
Proof.
  unfold dict_of_row. generalize (@nil (string * option string)) as acc. revert row.
  induction fieldnames as [|f fs IH]; intros row acc.
  - destruct row; reflexivity.
  - destruct row as [|c cs].
    + cbn [combine List.length skipn fold_left row_entries fst snd].
      specialize (IH [] (dict_set acc f None)).
      rewrite combine_nil in IH. cbn [List.length skipn fold_left] in IH. exact IH.
    + cbn [combine List.length skipn fold_left row_entries fst snd]. apply IH.
Qed.

Lemma assoc_fold_dict_set {V : Type} (l : list (string * V)) :
  forall (acc : list (string * V)) (k : string),
    assoc (fold_left (fun d kv => dict_set d (fst kv) (snd kv)) l acc) k
    = match last_value l k with Some v => Some v | None => assoc acc k end.
Proof.
  unfold last_value. induction l as [|[x y] l IH]; intros acc k; [reflexivity|].
  cbn [fold_left fst snd rev]. rewrite IH, assoc_dict_set, assoc_app.
  destruct (assoc (rev l) k); [reflexivity|]. cbn [assoc].
  now destruct (String.eqb x k).
Qed.

Lemma last_entry (k : string) (fieldnames : list string) :
  forall row,
    last_value (row_entries fieldnames row) k
    = match last_index k fieldnames with
      | Some j => Some (nth_error row j)
      | None => None
      end.
Proof.
  unfold last_value. induction fieldnames as [|f fs IH]; intros row.
  - destruct row; reflexivity.
  - destruct row as [|c cs]; cbn [row_entries rev last_index]; rewrite assoc_app, IH;
      destruct (last_index k fs) as [j|]; cbn [assoc nth_error];
      try (destruct (String.eqb f k); reflexivity).
    now destruct j.
Qed.

(** The cell a [DictReader] row has under [k]: that of the last column
    so named, [None] when the row is too short for it. *)
Lemma dict_of_row_get (fieldnames row : list string) (k : string) :
  assoc (dict_of_row fieldnames row) k
  = match last_index k fieldnames with
    | Some j => Some (nth_error row j)
    | None => None
    end.
Proof.
  rewrite dict_of_row_entries, assoc_fold_dict_set, last_entry.
  now destruct (last_index k fieldnames).
Qed.

Lemma last_index_existsb (k : string) (l : list string) :
  existsb (String.eqb k) l = match last_index k l with Some _ => true | None => false end.
Proof.
  induction l as [|x l IH]; [reflexivity|]. cbn [existsb last_index]. rewrite IH.
  destruct (last_index k l).
  - apply orb_true_r.
  - rewrite orb_false_r, String.eqb_sym. now destruct (String.eqb x k).
Qed.

(** X16: when the header row names [domain], the cell read from a row is
    the one under the last column so named.  The list returned holds the
    stripped cells of that column that are not blank, taken from the rows
    after the header; a row too short to have the column gives nothing,
    whatever its other cells. *)
Theorem named_column_is_the_last_one_called_domain :
  forall (h : Host) (path : string) (header : list string) (rest : list (list string))
         (j : nat),
    path_exists h path = true ->
    csv_rows h path = Ok (header :: rest) ->
    last_index "domain" header = Some j ->
    exists domains,
      load_domains_from_csv h path = Ok domains /\
      forall d, In d domains
                <-> d <> "" /\ exists row cell, In row rest /\ nth_error row j = Some cell
                                                /\ d = strip cell.
Proof.
  intros h path header rest j Hex Hrows Hj. unfold load_domains_from_csv.
  rewrite Hex, Hrows. cbn [negb rbind]. rewrite last_index_existsb, Hj.
  eexists. split; [reflexivity|]. intros d. rewrite sorted_set_in.
  unfold named_column, dict_rows. cbn [tl]. rewrite in_flat_map. split.
  - intros (row & Hrow & Hd). apply filter_In in Hrow as [Hrow _].
    unfold domain_cell in Hd. rewrite dict_of_row_get, Hj in Hd.
    destruct (nth_error row j) as [cell|] eqn:Hc; [|destruct Hd].
    destruct (is_empty (strip cell)) eqn:E; [destruct Hd|].
    destruct Hd as [<-|[]]. split; [now apply is_empty_false|].
    exists row, cell. repeat split; assumption.
  - intros (Hne & row & cell & Hrow & Hc & ->). exists row. split.
    + apply filter_In. split; [exact Hrow|]. destruct row; [now destruct j|reflexivity].
    + unfold domain_cell. rewrite dict_of_row_get, Hj, Hc.
      apply is_empty_false in Hne. rewrite Hne. now left.
Qed.

Lemma named_column_witness :
  exists domains,
    load_domains_from_csv SampleRun.host "in.csv" = Ok domains /\
    forall d, In d domains
              <-> d <> "" /\ exists row cell, In row (tl SampleRun.named)
                                              /\ nth_error row 2 = Some cell /\ d = strip cell.
Proof.
  apply (named_column_is_the_last_one_called_domain SampleRun.host "in.csv"
           (hd [] SampleRun.named) (tl SampleRun.named) 2 eq_refl eq_refl eq_refl).
Defined.

(** X17: when no cell of the header row is exactly [domain], the first
    column of every row is read, the header row with the others: the list
    returned holds the stripped first cells that are not blank and do not
    spell [domain] in any letter case.  So the name of the first column of
    such a file is loaded as a domain, unless it spells [domain]. *)
Theorem unnamed_file_is_read_by_its_first_column :
  forall (h : Host) (path : string) (rows : list (list string)),
    path_exists h path = true ->
    csv_rows h path = Ok rows ->
    last_index "domain" (hd [] rows) = None ->
    exists domains,
      load_domains_from_csv h path = Ok domains /\
      (forall d, In d domains
                 <-> exists cell rest, In (cell :: rest) rows /\ d = strip cell
                                       /\ d <> "" /\ lower d <> "domain") /\
      (forall name others tail,
          rows = (name :: others) :: tail ->
          strip name <> "" -> lower (strip name) <> "domain" ->
          In (strip name) domains).
Proof.
  intros h path rows Hex Hrows Hnone. unfold load_domains_from_csv.
  rewrite Hex, Hrows. cbn [negb rbind].
  replace (match rows with [] => [] | header :: _ => header end) with (hd [] rows)
    by now destruct rows.
  rewrite last_index_existsb, Hnone. eexists. split; [reflexivity|].
  assert (Hin : forall d, In d (sorted_set (first_column rows))
                          <-> exists cell rest, In (cell :: rest) rows /\ d = strip cell
                                                /\ d <> "" /\ lower d <> "domain").
  { intros d. rewrite sorted_set_in. apply first_column_in. }
  split; [exact Hin|]. intros name others tail -> Hne Hlow. apply Hin.
  exists name, others. split; [now left|]. repeat split; assumption.
Qed.

Lemma unnamed_file_witness :
  In "website" ["a.example"; "b.example"; "website"].
Proof.
  destruct (unnamed_file_is_read_by_its_first_column SampleRun.host "sites.csv"
              SampleRun.unnamed eq_refl eq_refl eq_refl) as (domains & Hload & _ & Hhead).
  injection Hload as <-.
  apply (Hhead "website" ["rank"] (tl SampleRun.unnamed) eq_refl);
    intros H; discriminate H.
Defined.

(** ** The loop of main *)

Section Loop.

Variable decay : Z -> Z.
Variable derive : string -> Z -> Raw.seeded.
Variable parser : SimilarwebParser.
Variable h : Host.

(** One turn of the loop. *)
Lemma process_step (d : string) (rest : list string) (idx total : Z)
      (rs : list NormalizedRecord) (s : Run) :
  process decay derive parser (d :: rest) idx total rs h s
  = let call := get_domain_data decay derive parser d (parser_world h)
                                {| trace := []; ticks := clock_reads s |} in
    let s2 := {| events := (events s
                            ++ [AppLog INFO "Processing %d/%d: %s"
                                       [decimal idx; decimal total; d]])
                           ++ map Parser (trace (snd call));
                 clock_reads := ticks (snd call) |} in
    match fst call with
    | Ok record => process decay derive parser rest (idx + 1) total (rs ++ [record]) h s2
    | Raise _ =>
        process decay derive parser rest (idx + 1) total rs h
                {| events := events s2
                             ++ [AppLog ERROR "Failed to fetch data for domain '%s'" [d]];
                   clock_reads := clock_reads s2 |}
    end.
Proof.
  cbn [process]. unfold app_bind at 1. unfold try_except, app_bind at 1. cbn [log].
  unfold app_bind at 1. unfold of_parser. cbn [events clock_reads].
  destruct (get_domain_data decay derive parser d (parser_world h)
              {| trace := []; ticks := clock_reads s |}) as [[record|e] st]; reflexivity.
Qed.



Lemma written_app (a b : list app_event) : written (a ++ b) = (written a ++ written b)%list.
Proof. apply flat_map_app. Qed.

Lemma parser_events_app (a b : list app_event) :
  parser_events (a ++ b) = (parser_events a ++ parser_events b)%list.
Proof. apply flat_map_app. Qed.




Lemma parser_events_parser (tr : list event) : parser_events (map Parser tr) = tr.
Proof.
  induction tr as [|e tr IH]; [reflexivity|].
  cbn [map parser_events flat_map app]. fold (parser_events (map Parser tr)). now rewrite IH.
Qed.


End Loop.


(** ** export_data *)

Lemma written_missing_parent (h : Host) (path : string) : written (missing_parent h path) = [].
Proof. unfold missing_parent. now destruct (_ && _). Qed.

Lemma written_write_event (fmt path : string) (records : list NormalizedRecord) :
  written [write_event fmt path records] = [(path, records)].
Proof.
  unfold write_event. destruct (String.eqb (lower fmt) "json"); [reflexivity|].
  destruct (String.eqb (lower fmt) "csv"); reflexivity.
Qed.

(** What [export_data] does with records to export, when making the
    parent directory does not fail. *)
Lemma export_data_run (records : list NormalizedRecord) (fmt path : string)
      (h : Host) (s : Run) :
  records <> [] ->
  (missing_parent h path <> [] -> disk_fault h (Makedirs (dirname path)) = None) ->
  let line := AppLog INFO "Exporting %d records to %s (%s)"
                     [decimal (Z.of_nat (List.length records)); path; lower fmt] in
  let out := export_data records fmt path h s in
  clock_reads (snd out) = clock_reads s /\
  if supported fmt then
    fst out = match disk_fault h (write_event fmt path records) with
              | Some e => Raise e
              | None => Ok tt
              end /\
    events (snd out)
    = (events s ++ missing_parent h path ++ [line; write_event fmt path records])%list
  else
    fst out = Raise (ValueError ("Unsupported output format: " ++ lower fmt)) /\
    events (snd out) = (events s ++ missing_parent h path ++ [line])%list.
Proof.
  intros Hne Hmk. cbv zeta. destruct records as [|r rs]; [congruence|].
  unfold export_data, _ensure_parent_dir, missing_parent, supported, write_event in *.
  unfold app_bind, log, disk, app_raise.
  destruct (negb (is_empty (dirname path)) && negb (path_exists h (dirname path))).
  - rewrite Hmk by discriminate.
    destruct (String.eqb (lower fmt) "json");
      [|destruct (String.eqb (lower fmt) "csv");
        [|destruct (String.eqb (lower fmt) "xlsx")]];
      cbn [orb];
      try (destruct (disk_fault h (JsonDump path (r :: rs))));
      try (destruct (disk_fault h (ToCsv path (r :: rs))));
      try (destruct (disk_fault h (ToExcel path (r :: rs))));
      cbn [fst snd events clock_reads]; rewrite <- ?app_assoc; repeat split; reflexivity.
  - clear Hmk.
    destruct (String.eqb (lower fmt) "json");
      [|destruct (String.eqb (lower fmt) "csv");
        [|destruct (String.eqb (lower fmt) "xlsx")]];
      cbn [orb];
      try (destruct (disk_fault h (JsonDump path (r :: rs))));
      try (destruct (disk_fault h (ToCsv path (r :: rs))));
      try (destruct (disk_fault h (ToExcel path (r :: rs))));
      cbn [fst snd events clock_reads app]; rewrite <- ?app_assoc; repeat split; reflexivity.
Qed.

Lemma written_export (before : list app_event) (l : app_level) (message : string)
      (args : list string) (fmt path : string) (records : list NormalizedRecord) :
  written before = [] ->
  written (before ++ [AppLog l message args; write_event fmt path records])
  = [(path, records)].
Proof.
  intros H. rewrite written_app, H.
  change [AppLog l message args; write_event fmt path records]
    with ([AppLog l message args] ++ [write_event fmt path records])%list.
  rewrite written_app, written_write_event. reflexivity.
Qed.


(** ** main *)

Section MockRun.

Variable decay : Z -> Z.
Variable derive : string -> Z -> Raw.seeded.
Variable parser : SimilarwebParser.
Variable h : Host.

Hypothesis mock_on : use_mock_data parser = true.
Hypothesis clock_ok : wall_clock (parser_world h).

Lemma mock_call (d : string) (st : State) :
  normalize_domain d <> "" ->
  exists r,
    get_domain_data decay derive parser d (parser_world h) st
    = (Ok r, {| trace := trace st ++ [Log DEBUG "Using mock traffic profile for %s"];
                ticks := S (S (ticks st)) |}) /\
    domain r = normalize_domain d.
Proof.
  intros Hne.
  destruct (_hash_to_int_total (normalize_domain d)) as [seed Hseed].
  destruct (clock_ok (ticks st)) as [Hv Hy].
  destruct (month_keys_total _ Hv Hy) as [months Hm].
  rewrite (mock_mode_run decay derive parser d (parser_world h) st seed months
             mock_on Hne Hseed Hm).
  unfold _normalize_mock_response, bind, utc_now_iso, now, ret. cbn [fst ticks trace].
  eexists. split; reflexivity.
Qed.

Lemma invalid_call (d : string) (st : State) :
  normalize_domain d = "" ->
  get_domain_data decay derive parser d (parser_world h) st = (Raise (ValueError d), st).
Proof. intros E. unfold get_domain_data. rewrite E. reflexivity. Qed.

Lemma process_mock (domains : list string) :
  forall (idx total : Z) (rs : list NormalizedRecord) (s : Run),
  exists (recs : list NormalizedRecord) (new : list app_event) (s' : Run),
    process decay derive parser domains idx total rs h s = (Ok (rs ++ recs)%list, s') /\
    events s' = (events s ++ new)%list /\
    map domain recs
    = filter (fun clean => negb (is_empty clean)) (map normalize_domain domains) /\
    written new = [] /\
    network (parser_events new) = [].
Proof.
  induction domains as [|d rest IH]; intros idx total rs s.
  - exists [], [], s. cbn. rewrite !app_nil_r. repeat split.
  - rewrite process_step. cbv zeta. cbn [map filter].
    destruct (is_empty (normalize_domain d)) eqn:E; cbn [negb].
    + assert (E' : normalize_domain d = "") by (now destruct (normalize_domain d)).
      rewrite (invalid_call d _ E'). cbn [fst snd trace ticks map].
      match goal with
      | |- context [process _ _ _ _ _ _ ?r _ ?s0] =>
          destruct (IH (idx + 1) total r s0) as (recs & new & s' & Hrun & Hev & Hdom & Hw & Hn)
      end.
      exists recs. eexists. exists s'. rewrite Hrun, Hev. cbn [events].
      rewrite app_nil_r, <- !app_assoc. split; [reflexivity|]. split; [reflexivity|].
      split; [exact Hdom|]. rewrite !written_app, !parser_events_app, Hw.
      split; [reflexivity|]. cbn [parser_events flat_map app]. exact Hn.
    + apply is_empty_false in E. destruct (mock_call d {| trace := []; ticks := clock_reads s |} E)
        as (r & Hcall & Hd).
      rewrite Hcall. cbn [fst snd trace ticks map app].
      match goal with
      | |- context [process _ _ _ _ _ _ ?r0 _ ?s0] =>
          destruct (IH (idx + 1) total r0 s0) as (recs & new & s' & Hrun & Hev & Hdom & Hw & Hn)
      end.
      exists (r :: recs). eexists. exists s'. rewrite Hrun, Hev. cbn [events].
      rewrite <- !app_assoc. split; [reflexivity|]. split; [reflexivity|].
      split; [cbn [map]; now rewrite Hd, Hdom|].
      rewrite !written_app, !parser_events_app, Hw.
      split; [reflexivity|]. cbn [parser_events flat_map app network filter is_log negb].
      exact Hn.
Qed.

End MockRun.

(** *** The parser of the settings *)


Section BuiltRun.

Variable decay : Z -> Z.
Variable derive : string -> Z -> Raw.seeded.
Variable h : Host.



Lemma app_bind_ext {A B} (c : App A) (k1 k2 : A -> App B) (s : Run) :
  (forall a s', k1 a h s' = k2 a h s') -> app_bind c k1 h s = app_bind c k2 h s.
Proof.
  intros E. unfold app_bind. destruct (c h s) as [[a|e] s']; [apply E|reflexivity].
Qed.

(** With attributes of the declared types it is the loop on that parser. *)
Lemma process_with_typed (b : BuiltParser) (self : SimilarwebParser) (domains : list string) :
  declared_types b = Some self ->
  forall (idx total : Z) (rs : list NormalizedRecord) (s : Run),
    process_with (call_parser decay derive b) domains idx total rs h s
    = process decay derive self domains idx total rs h s.
Proof.
  intros Ht.
  assert (E : call_parser decay derive b
              = fun d => of_parser (get_domain_data decay derive self d)).
  { unfold call_parser. now rewrite Ht. }
  rewrite E. clear E.
  induction domains as [|d rest IH]; intros idx total rs s; [reflexivity|].
  cbn [process_with process]. apply app_bind_ext. intros results s'. apply IH.
Qed.

(** [main] up to the loop. *)
Lemma main_start (settings : pyval) (cli : option bool)
      (input_file output_path output_format : string) (s : Run) :
  main decay derive settings cli input_file output_path output_format h s
  = let s0 := {| events := events s
                           ++ [AppLog INFO "Starting Similarweb scraper" [];
                               AppLog INFO "Input file: %s" [input_file];
                               AppLog INFO "Output file: %s (%s)" [output_path; output_format]];
                 clock_reads := clock_reads s |} in
    match load_domains_from_csv h input_file with
    | Raise _ =>
        (Ok 1, {| events := events s0 ++ [AppLog ERROR "Failed to load domains from CSV" []];
                  clock_reads := clock_reads s |})
    | Ok [] =>
        (Ok 1, {| events := events s0
                            ++ [AppLog ERROR "No domains found in input file: %s" [input_file]];
                  clock_reads := clock_reads s |})
    | Ok domains =>
        let total := Z.of_nat (List.length domains) in
        let s1 := {| events := events s0
                               ++ [AppLog INFO "Loaded %d unique domains" [decimal total]];
                     clock_reads := clock_reads s |} in
        match build_parser_from_settings settings cli with
        | Raise e => (Raise e, s1)
        | Ok b =>
            match process_with (call_parser decay derive b) domains 1 total [] h s1 with
            | (Ok [], s2) =>
                (Ok 1,
                 {| events := events s2
                              ++ [AppLog ERROR "No data could be retrieved for any domain." []];
                    clock_reads := clock_reads s2 |})
            | (Ok results, s2) =>
                match export_data results output_format output_path h s2 with
                | (Ok _, s3) =>
                    (Ok 0,
                     {| events := events s3
                                  ++ [AppLog INFO "Completed successfully. Exported %d records."
                                             [decimal (Z.of_nat (List.length results))]];
                        clock_reads := clock_reads s3 |})
                | (Raise _, s3) =>
                    (Ok 1, {| events := events s3 ++ [AppLog ERROR "Failed to export data" []];
                              clock_reads := clock_reads s3 |})
                end
            | (Raise e, s2) => (Raise e, s2)
            end
        end
    end.
Proof.
  unfold main. unfold app_bind at 1. cbn [log]. unfold app_bind at 1. cbn [log].
  unfold app_bind at 1. cbn [log events clock_reads].
  replace (((events s ++ [AppLog INFO "Starting Similarweb scraper" []])
              ++ [AppLog INFO "Input file: %s" [input_file]])
             ++ [AppLog INFO "Output file: %s (%s)" [output_path; output_format]])%list
    with (events s ++ [AppLog INFO "Starting Similarweb scraper" [];
                       AppLog INFO "Input file: %s" [input_file];
                       AppLog INFO "Output file: %s (%s)" [output_path; output_format]])%list
    by (now rewrite <- !app_assoc).
  destruct (load_domains_from_csv h input_file) as [[|d ds]|e]; try reflexivity.
  cbv zeta. unfold app_bind at 1. cbn [log events clock_reads].
  unfold app_bind at 1.
  destruct (build_parser_from_settings settings cli) as [b|e]; [|reflexivity].
  unfold app_bind at 1.
  destruct (process_with (call_parser decay derive b) (d :: ds) 1 _ [] h _)
    as [[[|r rs]|e] s2]; try reflexivity.
  unfold app_bind at 1. unfold try_except. unfold app_bind at 1.
  destruct (export_data (r :: rs) output_format output_path h s2) as [[u|e] s3]; reflexivity.
Qed.

End BuiltRun.

Lemma written_line_write (l : app_level) (message : string) (args : list string)
      (fmt path : string) (records : list NormalizedRecord) :
  written [AppLog l message args; write_event fmt path records] = [(path, records)].
Proof. exact (written_export [] l message args fmt path records eq_refl). Qed.

Lemma parser_events_line_write (l : app_level) (message : string) (args : list string)
      (fmt path : string) (records : list NormalizedRecord) :
  parser_events [AppLog l message args; write_event fmt path records] = [].
Proof.
  unfold write_event. destruct (String.eqb (lower fmt) "json"); [reflexivity|].
  destruct (String.eqb (lower fmt) "csv"); reflexivity.
Qed.

Lemma parser_events_missing_parent (h : Host) (path : string) :
  parser_events (missing_parent h path) = [].
Proof. unfold missing_parent. now destruct (_ && _). Qed.



(** X20: when the settings give a parser in mock mode whose attributes
    have the declared types (the settings with no [similarweb] and no
    [request] section do), under a wall clock, on a host whose file system
    does not fail and for a supported format, [main] ends with status 0
    as soon as one loaded domain has a canonical form that is not empty.
    The one file written holds one record for each loaded domain with such
    a form, in the order of the sorted list, under that form: two loaded
    texts with the same canonical form give two records with the same
    domain.  The run makes no request and never sleeps. *)
Theorem mock_run_exports_a_record_for_each_valid_domain :
  forall (decay : Z -> Z) (derive : string -> Z -> Raw.seeded)
         (settings : pyval) (cli_use_mock_data : option bool)
         (b : BuiltParser) (self : SimilarwebParser)
         (input_file output_path output_format : string) (h : Host) (s : Run)
         (domains : list string),
    build_parser_from_settings settings cli_use_mock_data = Ok b ->
    declared_types b = Some self ->
    use_mock_data self = true ->
    wall_clock (parser_world h) ->
    load_domains_from_csv h input_file = Ok domains ->
    (exists d, In d domains /\ normalize_domain d <> "") ->
    supported output_format = true ->
    (forall e, disk_fault h e = None) ->
    exists (records : list NormalizedRecord) (new : list app_event) (s' : Run),
      main decay derive settings cli_use_mock_data input_file output_path output_format h s
      = (Ok 0, s') /\
      events s' = (events s ++ new)%list /\
      written new = [(output_path, records)] /\
      map domain records
      = filter (fun clean => negb (is_empty clean)) (map normalize_domain domains) /\
      network (parser_events new) = [].
Proof.
  intros decay derive settings cli b self input_file output_path output_format h s domains
         Hb Ht Hmock Hclock Hload (d0 & Hin & Hvalid) Hsup Hdisk.
  rewrite main_start. cbv zeta. rewrite Hload, Hb.
  destruct domains as [|d ds]; [destruct Hin|].
  rewrite (process_with_typed decay derive h b self (d :: ds) Ht).
  match goal with
  | |- context [process _ _ _ ?l 1 ?t [] h ?s0] =>
      destruct (process_mock decay derive self h Hmock Hclock l 1 t [] s0)
        as (recs & new & s2 & Hrun & Hev & Hdom & Hw & Hn)
  end.
  rewrite Hrun. cbn [app events] in *.
  assert (Hrecs : recs <> []).
  { intros ->.
    assert (Hc : In (normalize_domain d0)
                    (filter (fun clean => negb (is_empty clean))
                            (map normalize_domain (d :: ds)))).
    { apply filter_In. split; [now apply in_map|].
      apply is_empty_false in Hvalid. now rewrite Hvalid. }
    rewrite <- Hdom in Hc. exact Hc. }
  destruct recs as [|r rs]; [congruence|].
  pose proof (export_data_run (r :: rs) output_format output_path h s2 Hrecs
                (fun _ => Hdisk _)) as R.
  cbv zeta in R. rewrite Hsup, Hdisk in R. destruct R as (_ & Hr & Heve).
  destruct (export_data (r :: rs) output_format output_path h s2) as [[[]|e] s3];
    cbn [fst snd] in *; [|discriminate].
  exists (r :: rs). eexists. eexists. split; [reflexivity|]. cbn [events].
  rewrite Heve, Hev, <- !app_assoc. split; [reflexivity|].
  rewrite !written_app, !parser_events_app, Hw, written_missing_parent,
    written_line_write, parser_events_missing_parent, parser_events_line_write.
  split; [reflexivity|]. split; [exact Hdom|].
  cbn [parser_events flat_map app]. rewrite app_nil_r. exact Hn.
Qed.

Lemma mock_run_witness :
  exists (records : list NormalizedRecord) (new : list app_event) (s' : Run),
    main Sample.decay Sample.derive (PDict [("log_level", PStr "INFO")]) None
         "in.csv" "out/data.json" "JSON" SampleRun.host SampleRun.start = (Ok 0, s') /\
    events s' = (events SampleRun.start ++ new)%list /\
    written new = [("out/data.json", records)] /\
    map domain records = ["example.com"; "example.com"] /\
    network (parser_events new) = [].
Proof.
  destruct (build_parser_from_settings (PDict [("log_level", PStr "INFO")]) None)
    as [b|e] eqn:Hb; [|vm_compute in Hb; discriminate Hb].
  assert (Eb : b = {| built_base_url := "https://api.similarweb.com/v1/website";
                      built_api_key_env := PStr "SIMILARWEB_API_KEY";
                      built_timeout := PInt 10;
                      built_max_retries := PInt 3;
                      built_backoff_factor := PFloat 0.5;
                      built_use_mock_data := PBool true |}).
  { vm_compute in Hb. now injection Hb as <-. }
  destruct (declared_types b) as [self|] eqn:Ht;
    [|rewrite Eb in Ht; vm_compute in Ht; discriminate Ht].
  apply (mock_run_exports_a_record_for_each_valid_domain
           Sample.decay Sample.derive (PDict [("log_level", PStr "INFO")]) None b self
           "in.csv" "out/data.json" "JSON"
           SampleRun.host SampleRun.start ["Example.com"; "example.com"; "http://"] Hb Ht).
  - rewrite Eb in Ht. cbv [declared_types built_api_key_env built_timeout
                           built_max_retries built_use_mock_data built_backoff_factor] in Ht.
    destruct (exact_Q 0.5) as [q|]; [|discriminate Ht]. now injection Ht as <-.
  - intros n. repeat split; vm_compute; intro H; discriminate H.
  - reflexivity.
  - exists "example.com". split; [right; left; reflexivity|]. vm_compute. discriminate.
  - reflexivity.
  - reflexivity.
Defined.

(** X21: [export_data] matches the format without regard to letter case.
    With no records it raises before it does anything else.  With records
    and a format that is none of json, csv and xlsx it raises only after
    the parent directory has been made and the export announced: no file
    is written, the directory stays. *)
Theorem export_data_checks_the_format_last :
  forall (records : list NormalizedRecord) (output_format output_path : string)
         (h : Host) (s : Run),
    export_data records output_format output_path h s
    = export_data records (lower output_format) output_path h s /\
    export_data [] output_format output_path h s
    = (Raise (ValueError "No records to export"), s) /\
    (records <> [] ->
     supported output_format = false ->
     disk_fault h (Makedirs (dirname output_path)) = None ->
     fst (export_data records output_format output_path h s)
     = Raise (ValueError ("Unsupported output format: " ++ lower output_format)) /\
     events (snd (export_data records output_format output_path h s))
     = (events s ++ missing_parent h output_path
          ++ [AppLog INFO "Exporting %d records to %s (%s)"
                     [decimal (Z.of_nat (List.length records)); output_path;
                      lower output_format]])%list).
Proof.
  intros records output_format output_path h s. split; [|split].
  - unfold export_data. now rewrite lower_idem.
  - reflexivity.
  - intros Hne Hsup Hmk.
    pose proof (export_data_run records output_format output_path h s Hne (fun _ => Hmk)) as R.
    cbv zeta in R. rewrite Hsup in R. exact (proj2 R).
Qed.

Lemma export_data_witness :
  fst (export_data [default_record "example.com" "2025-06-15T09:30:00"] "yaml" "out/data.yaml"
                   SampleRun.host SampleRun.start)
  = Raise (ValueError "Unsupported output format: yaml") /\
  events (snd (export_data [default_record "example.com" "2025-06-15T09:30:00"] "yaml"
                           "out/data.yaml" SampleRun.host SampleRun.start))
  = [Makedirs "out";
     AppLog INFO "Exporting %d records to %s (%s)" ["1"; "out/data.yaml"; "yaml"]].
Proof.
  apply (proj2 (proj2 (export_data_checks_the_format_last
                         [default_record "example.com" "2025-06-15T09:30:00"] "yaml"
                         "out/data.yaml" SampleRun.host SampleRun.start)));
    [discriminate|reflexivity|reflexivity].
Defined.

(** *** The parent directory *)

Lemma head_length_bare (p : string) : has_slash p = false -> head_length p = 0%nat.
Proof.
  unfold has_slash. rewrite negb_false_iff.
  induction p as [|c p IH]; [reflexivity|]. cbn [all_chars head_length].
  intros H. apply andb_true_iff in H as [Hc Hp]. rewrite (IH Hp).
  apply negb_true_iff in Hc. now rewrite Hc.
Qed.

Lemma dirname_bare (p : string) : has_slash p = false -> dirname p = "".
Proof.
  intros H. unfold dirname. rewrite (head_length_bare p H). now destruct p.
Qed.

Lemma rstrip_by_dropped (p : ascii -> bool) (s : string) (c : ascii) :
  p c = true -> rstrip_by p (s ++ String c "") = rstrip_by p s.
Proof.
  intros Hc. induction s as [|a s IH]; cbn [append rstrip_by].
  - now rewrite Hc.
  - now rewrite IH.
Qed.

Lemma all_chars_snoc (p : ascii -> bool) (s : string) (c : ascii) :
  p c = true -> all_chars p (s ++ String c "") = all_chars p s.
Proof.
  intros Hc. induction s as [|a s IH]; cbn [append all_chars].
  - now rewrite Hc.
  - now rewrite IH.
Qed.

Lemma head_length_last_slash (head tail : string) :
  has_slash tail = false ->
  head_length (head ++ String "/" tail) = S (String.length head).
Proof.
  intros Ht. induction head as [|a head IH]; cbn [append head_length String.length].
  - now rewrite (head_length_bare tail Ht).
  - now rewrite IH.
Qed.

Lemma substring_head (head tail : string) :
  substring 0 (S (String.length head)) (head ++ String "/" tail) = (head ++ String "/" "")%string.
Proof.
  induction head as [|a head IH]; cbn [append String.length substring].
  - now destruct tail.
  - now rewrite IH.
Qed.

(** [posixpath.dirname] by the last slash of the path. *)
Lemma dirname_last_slash (head tail : string) :
  has_slash tail = false ->
  dirname (head ++ String "/" tail)
  = if all_chars (Ascii.eqb "/") head then (head ++ String "/" "")%string
    else rstrip_by (Ascii.eqb "/") head.
Proof.
  intros Ht. unfold dirname. rewrite (head_length_last_slash head tail Ht), substring_head.
  rewrite (all_chars_snoc (Ascii.eqb "/") head "/" eq_refl).
  rewrite (rstrip_by_dropped (Ascii.eqb "/") head "/" eq_refl).
  assert (E : is_empty (head ++ String "/" "") = false) by now destruct head.
  rewrite E. cbn [negb andb]. now destruct (all_chars (Ascii.eqb "/") head).
Qed.

Lemma last_slash_exists (path : string) :
  has_slash path = true ->
  exists head tail, path = (head ++ String "/" tail)%string /\ has_slash tail = false.
Proof.
  induction path as [|c path IH]; [discriminate|].
  destruct (has_slash path) eqn:Hp.
  - intros _. destruct (IH eq_refl) as (head & tail & -> & Ht).
    exists (String c head), tail. split; [reflexivity|exact Ht].
  - unfold has_slash in *. cbn [all_chars]. rewrite negb_false_iff in Hp. rewrite Hp.
    rewrite andb_true_r, negb_involutive. intros Hc. apply Ascii.eqb_eq in Hc. subst c.
    exists "", path. split; [reflexivity|]. now rewrite Hp.
Qed.

(** X22: [_ensure_parent_dir] asks for one directory at most, and only
    when the directory part of the path is not empty and does not exist.
    The directory part is what comes before the last slash of the path,
    less the slashes that end it, and that part with its slash when it is
    made of slashes only; every path with a slash has one such last slash,
    and for a path with no slash nothing is done. *)
Theorem parent_directory_is_made_only_when_named_and_missing :
  forall (path : string) (h : Host) (s : Run),
    (has_slash path = false -> _ensure_parent_dir path h s = (Ok tt, s)) /\
    (has_slash path = true ->
     exists head tail, path = (head ++ String "/" tail)%string /\ has_slash tail = false) /\
    (forall head tail,
        path = (head ++ String "/" tail)%string -> has_slash tail = false ->
        dirname path = if all_chars (Ascii.eqb "/") head then (head ++ String "/" "")%string
                       else rstrip_by (Ascii.eqb "/") head) /\
    events (snd (_ensure_parent_dir path h s)) = (events s ++ missing_parent h path)%list /\
    (forall e, In e (missing_parent h path) ->
               e = Makedirs (dirname path) /\ dirname path <> ""
               /\ path_exists h (dirname path) = false /\ has_slash path = true).
Proof.
  intros path h s. split; [|split; [|split; [|split]]].
  - intros H. unfold _ensure_parent_dir. now rewrite (dirname_bare path H).
  - apply last_slash_exists.
  - intros head tail -> Ht. now apply dirname_last_slash.
  - unfold _ensure_parent_dir, missing_parent, disk.
    destruct (negb (is_empty (dirname path)) && negb (path_exists h (dirname path))).
    + now destruct (disk_fault h (Makedirs (dirname path))).
    + cbn [snd]. now rewrite app_nil_r.
  - unfold missing_parent. intros e He.
    destruct (negb (is_empty (dirname path)) && negb (path_exists h (dirname path))) eqn:E;
      [|destruct He].
    destruct He as [<-|[]]. apply andb_true_iff in E as [E1 E2].
    apply negb_true_iff in E1, E2. split; [reflexivity|].
    split; [now apply is_empty_false|]. split; [exact E2|].
    destruct (has_slash path) eqn:Hs; [reflexivity|].
    rewrite (dirname_bare path Hs) in E1. discriminate.
Qed.

Lemma parent_directory_witness :
  dirname "out/2025/06//data.json" = "out/2025/06".
Proof.
  apply (proj1 (proj2 (proj2 (parent_directory_is_made_only_when_named_and_missing
                                "out/2025/06//data.json" SampleRun.host SampleRun.start)))
           "out/2025/06/" "data.json" eq_refl eq_refl).
Defined.
